(** * itadakimasu-api: the TTL cache and the media pipeline

    A shallow embedding of [src/cache_storage.py], and of the parts of
    [src/utils.py] and [src/main.py] that fetch, transcode and tag a track,
    together with the properties the specification states about them.

    Conventions.
    - Python values are terms of [pyval]; a Python [dict] with string keys
      is an association list in insertion order.
    - A function that can raise returns an [outcome]; the world (clock,
      files, the cache's dictionary) is threaded explicitly, and is kept
      when an exception is raised, so that handlers run in the world the
      failing statement left behind.
    - Whatever the program obtains from outside (the clock, the remote
      services, the encoder process, the names [tempfile] draws) is an
      oracle of the environment.  Nothing is assumed about the oracles
      except where a theorem says so. *)

From Stdlib Require Import ZArith String Ascii List Bool Lia.
From stdpp Require Import gmap strings list fin_maps.
Import ListNotations.

Set Warnings "-register-all".
Local Open Scope string_scope.
Local Open Scope Z_scope.

(** ** Python values and exceptions *)

Module Py.

(** A binary64 number read from a JSON text: a dyadic rational [m * 2^e],
    an infinity or a NaN ([json.load] accepts the last two). *)
Inductive pyfloat :=
| FNan
| FInf (negative : bool)
| FFin (m e : Z).

Inductive pyval :=
| PNone
| PBool (b : bool)
| PInt (n : Z)
| PFloat (f : pyfloat)
| PStr (s : string)
| PList (l : list pyval)
| PTuple (l : list pyval)
| PDict (d : list (string * pyval)).

(** The exception classes the modelled code raises, catches or lets
    through.  All of them derive from [Exception]. *)
Inductive exn :=
| FileNotFoundError
| FileExistsError
| JSONDecodeError
| UnicodeDecodeError
| TypeError
| KeyError
| IndexError
| AttributeError
| ValueError
| ValidationError
| IOError (args : list string)
| HTTPException (status_code : Z) (detail : string)
| VideoUnavailable (video_id : string)
| Exception (msg : string)
| OtherError (cls : string).

Inductive outcome (A : Type) :=
| Ok (a : A)
| Raise (e : exn).
Arguments Ok {A} a.
Arguments Raise {A} e.

(** Computations over a world [W]: the world is returned in both cases. *)
Definition M (W A : Type) : Type := W -> outcome A * W.

Definition ret {W A} (a : A) : M W A := fun w => (Ok a, w).
Definition raise {W A} (e : exn) : M W A := fun w => (Raise e, w).
Definition bind {W A B} (c : M W A) (k : A -> M W B) : M W B :=
  fun w => match c w with
           | (Ok a, w') => k a w'
           | (Raise e, w') => (Raise e, w')
           end.
Definition lift {W A} (r : outcome A) : M W A := fun w => (r, w).
Definition gets {W A} (f : W -> A) : M W A := fun w => (Ok (f w), w).
Definition modify {W} (f : W -> W) : M W unit := fun w => (Ok tt, f w).

(** [try: c  except <classes>: h]: the handler table [h] answers [Some]
    for the exceptions the clause lists. *)
Definition try_except {W A} (c : M W A) (h : exn -> option (M W A)) : M W A :=
  fun w => match c w with
           | (Ok a, w') => (Ok a, w')
           | (Raise e, w') =>
               match h e with
               | Some k => k w'
               | None => (Raise e, w')
               end
           end.

Declare Scope py_scope.
Delimit Scope py_scope with py.
Notation "'let*' x ':=' c 'in' k" := (bind c (fun x => k))
  (at level 10, x name, c at level 100, k at level 200) : py_scope.
Notation "c '>>' k" := (bind c (fun _ => k))
  (at level 100, k at level 200, right associativity) : py_scope.

(** *** Dictionaries *)

Fixpoint dict_get {A} (d : list (string * A)) (key : string) : option A :=
  match d with
  | [] => None
  | (k, x) :: d' => if String.eqb k key then Some x else dict_get d' key
  end.

(** [d[key] = x]: an existing key keeps its position, a new one goes last. *)
Fixpoint dict_set {A} (d : list (string * A)) (key : string) (x : A) : list (string * A) :=
  match d with
  | [] => [(key, x)]
  | (k, y) :: d' =>
      if String.eqb k key then (k, x) :: d' else (k, y) :: dict_set d' key x
  end.

Definition dict_keys {A} (d : list (string * A)) : list string := map fst d.

(** *** Subscripting and comparison *)

Definition string_index (s : string) (i : nat) : option string :=
  match String.get i s with
  | Some c => Some (String c EmptyString)
  | None => None
  end.

(** [x[i]] for a non-negative literal index [i]. *)
Definition getitem (x : pyval) (i : nat) : outcome pyval :=
  match x with
  | PList l | PTuple l =>
      match nth_error l i with Some y => Ok y | None => Raise IndexError end
  | PStr s =>
      match string_index s i with Some c => Ok (PStr c) | None => Raise IndexError end
  | PDict _ => Raise KeyError
  | PNone | PBool _ | PInt _ | PFloat _ => Raise TypeError
  end.

Definition usec : Z := 1000000.

(** [f < t / 10^6] for a clock reading of [t] microseconds. *)
Definition float_lt_timestamp (f : pyfloat) (t : Z) : bool :=
  match f with
  | FNan => false
  | FInf negative => negative
  | FFin m e =>
      if 0 <=? e then m * 2 ^ e * usec <? t
      else m * usec <? t * 2 ^ (- e)
  end.

(** [timestamp > x], where the timestamp is [t] microseconds: numbers
    compare by value ([bool] is a subclass of [int]), anything else is a
    [TypeError]. *)
Definition timestamp_gt (t : Z) (x : pyval) : outcome bool :=
  match x with
  | PInt n => Ok (n * usec <? t)
  | PBool b => Ok (Z.b2z b * usec <? t)
  | PFloat f => Ok (float_lt_timestamp f t)
  | PNone | PStr _ | PList _ | PTuple _ | PDict _ => Raise TypeError
  end.

(** *** JSON *)

(** What [json.load] gives back for what [json.dump] wrote: tuples come
    back as lists, everything else as itself. *)
Fixpoint to_json (x : pyval) : pyval :=
  match x with
  | PList l | PTuple l => PList (map to_json l)
  | PDict d => PDict (map (fun kv => match kv with (k, y) => (k, to_json y) end) d)
  | _ => x
  end.

(** A JSON-compatible value: one that survives the round trip unchanged. *)
Fixpoint is_json (x : pyval) : bool :=
  match x with
  | PTuple _ => false
  | PList l => forallb is_json l
  | PDict d => forallb (fun kv => is_json (snd kv)) d
  | _ => true
  end.

End Py.

Import Py.
Local Open Scope py_scope.

(** ** [cache_storage.py] *)

Module cache_storage.

(** What a process finds at a path when it opens the file as text and
    hands it to [json.load]. *)
Inductive content :=
| Undecodable            (* bytes that are not text in the file's encoding *)
| Unparseable            (* text that is not a JSON document *)
| Parsed (j : pyval).    (* a JSON document, as [json.load] returns it *)

(** The mutable state the cache touches.  [mem_cache] is the dictionary
    of the process's [CacheStorage] object; [reads] counts the clock
    readings taken so far. *)
Record world := World {
  reads : nat;
  mem_cache : gmap string pyval;
  disk : gmap string content
}.

(** The fields of a [CacheStorage] that never change after [__init__];
    [item_lifetime] is a [timedelta], in microseconds. *)
Record CacheStorage := {
  cache_path : string;
  item_lifetime : Z
}.

Definition set_reads (n : nat) (w : world) : world :=
  World n (mem_cache w) (disk w).
Definition set_mem_cache (m : gmap string pyval) (w : world) : world :=
  World (reads w) m (disk w).
Definition set_disk (d : gmap string content) (w : world) : world :=
  World (reads w) (mem_cache w) d.

(** [CacheStorage(cache_path, item_lifetime)]: a falsy path (absent or
    empty) falls back on the configured one, the lifetime defaults to ten
    seconds. *)
Definition __init__ (CACHE_PATH : string) (path : option string) (lifetime : option Z)
  : CacheStorage :=
  {| cache_path := match path with
                   | Some p => if String.eqb p "" then CACHE_PATH else p
                   | None => CACHE_PATH
                   end;
     item_lifetime := match lifetime with Some l => l | None => 10 * usec end |}.

Section Cache.

(** [clock i] is the [i]-th reading of [datetime.now(timezone.utc)], in
    microseconds since the epoch.  The float that [timestamp()] makes of it
    is kept exact: at today's dates binary64 resolves a quarter of a
    microsecond, so comparing with an integer and truncating to an integer
    give the same answers. *)
Variable clock : nat -> Z.

Definition now : M world Z :=
  fun w => (Ok (clock (reads w)), set_reads (S (reads w)) w).

(** [open(path)] followed by [json.load(fp)]. *)
Definition load (path : string) : M world pyval :=
  fun w => match disk w !! path with
           | None => (Raise FileNotFoundError, w)
           | Some Undecodable => (Raise UnicodeDecodeError, w)
           | Some Unparseable => (Raise JSONDecodeError, w)
           | Some (Parsed j) => (Ok j, w)
           end.

(** [json.dump(x, fp)] over the whole file, then closing it. *)
Definition dump (path : string) (x : pyval) : M world unit :=
  modify (fun w => set_disk (<[path := Parsed (to_json x)]> (disk w)) w).

(** [cache.get(key)] *)
Definition dict_get_method (cache : pyval) (key : string) : outcome pyval :=
  match cache with
  | PDict d => Ok (match dict_get d key with Some x => x | None => PNone end)
  | _ => Raise AttributeError
  end.

(** [cache[key] = item] *)
Definition setitem (cache : pyval) (key : string) (item : pyval) : outcome pyval :=
  match cache with
  | PDict d => Ok (PDict (dict_set d key item))
  | _ => Raise TypeError
  end.

Definition _has_expired (item : pyval) : M world bool :=
  let* t := now in
  let* expires_at := lift (getitem item 1) in
  lift (timestamp_gt t expires_at).

Definition _create_item (self : CacheStorage) (value : pyval) : M world pyval :=
  let* t := now in
  ret (PTuple [value; PInt (Z.quot (t + item_lifetime self) usec)]).

Definition storage_errors (e : exn) : bool :=
  match e with
  | FileNotFoundError | JSONDecodeError => true
  | _ => false
  end.

(** The second half of [get_item]: the durable tier. *)
Definition get_item_durable (self : CacheStorage) (key : string) : M world pyval :=
  let* item :=
    try_except
      (let* cache := load (cache_path self) in
       lift (dict_get_method cache key))
      (fun e => if storage_errors e then Some (ret PNone) else None) in
  match item with
  | PNone => ret PNone
  | _ =>
      let* expired := _has_expired item in
      if expired then ret PNone
      else lift (getitem item 0)
  end.

Definition get_item (self : CacheStorage) (key : string) : M world pyval :=
  let* mem := gets mem_cache in
  match mem !! key with
  | Some item =>
      let* expired := _has_expired item in
      if negb expired then ret item
      else get_item_durable self key
  | None => get_item_durable self key
  end.

Definition set_item (self : CacheStorage) (key : string) (value : pyval) : M world unit :=
  let* item := _create_item self value in
  try_except
    (let* cache := load (cache_path self) in
     let* cache' := lift (setitem cache key item) in
     dump (cache_path self) cache')
    (fun e => if storage_errors e
              then Some (dump (cache_path self) (PDict [(key, item)]))
              else None) >>
  modify (fun w => set_mem_cache (<[key := item]> (mem_cache w)) w).

End Cache.

End cache_storage.

(** ** [settings.py]: the values read from the environment at start-up *)

Module settings.
Record t := {
  SPOTIFY_API_SEARCH_URL : string;
  SPOTIFY_API_TOKEN_URL : string;
  SPOTIFY_API_CLIENT_ID : string;
  SPOTIFY_API_CLIENT_SECRET : string;
  FFMPEG_PATH : string;
  MOCK_MODE : bool;
  CACHE_PATH : string
}.
End settings.

(** ** The ID3 tag object of [eyed3], as far as the program drives it

    A tag records what the program assigned to it and the frames it asked
    for, in the order of the calls. *)

Module eyed3.

Record ImageFrame := {
  picture_type : Z;
  image_data : list Byte.byte;
  mime_type : string;
  image_description : string
}.

Definition FRONT_COVER : Z := 3.

Record LyricsFrame := {
  text : string;
  lyrics_description : string;
  lang : list Byte.byte
}.

Record Tag := {
  title : option string;
  artist : option string;
  album : option string;
  images : list ImageFrame;
  lyrics : list LyricsFrame
}.

(** [Tag()] *)
Definition new : Tag :=
  {| title := None; artist := None; album := None; images := []; lyrics := [] |}.

Definition set_title (x : string) (t : Tag) : Tag :=
  {| title := Some x; artist := artist t; album := album t;
     images := images t; lyrics := lyrics t |}.
Definition set_artist (x : string) (t : Tag) : Tag :=
  {| title := title t; artist := Some x; album := album t;
     images := images t; lyrics := lyrics t |}.
Definition set_album (x : string) (t : Tag) : Tag :=
  {| title := title t; artist := artist t; album := Some x;
     images := images t; lyrics := lyrics t |}.
Definition add_image (f : ImageFrame) (t : Tag) : Tag :=
  {| title := title t; artist := artist t; album := album t;
     images := images t ++ [f]; lyrics := lyrics t |}.
Definition add_lyrics (f : LyricsFrame) (t : Tag) : Tag :=
  {| title := title t; artist := artist t; album := album t;
     images := images t; lyrics := lyrics t ++ [f] |}.

End eyed3.

(** ** An [httpx] response *)

Module httpx.
Record Response := {
  status_code : Z;
  content : list Byte.byte;     (* what [response.read()] returns *)
  json : outcome pyval          (* what [response.json()] returns or raises *)
}.
End httpx.

(** ** The filesystem, processes and remote services of the pipeline *)

Module system.

(** A regular file: its bytes, and the ID3 tag saved into it, if any. *)
Record file := {
  data : list Byte.byte;
  id3 : option eyed3.Tag
}.

Definition empty_file : file := {| data := []; id3 := None |}.

Record world := World {
  fs : gmap string file;            (* the regular files, by path *)
  names_drawn : nat;                (* candidates [tempfile] has drawn *)
  spawned : list (list string)      (* argument vectors run, oldest first *)
}.

Definition set_fs (f : gmap string file) (w : world) : world :=
  World f (names_drawn w) (spawned w).
Definition set_names_drawn (n : nat) (w : world) : world :=
  World (fs w) n (spawned w).
Definition set_spawned (l : list (list string)) (w : world) : world :=
  World (fs w) (names_drawn w) l.

(** How a child process ends: it could not be started, or it exited with
    a return code after creating or overwriting some files. *)
Inductive proc_result :=
| SpawnFailed (e : exn)
| Exited (returncode : Z) (written : list (string * file)).

(** The oracles of the environment. *)
Record env := {
  (* [urllib.parse.unquote] *)
  url_decode : string -> string;
  (* the [i]-th path [tempfile] tries, without the suffix *)
  tmp_name : nat -> string;
  (* [tempfile.TMP_MAX]: how many candidates one allocation may try *)
  TMP_MAX : nat;
  (* [pytube.YouTube.from_id(id).streams.get_audio_only('mp4')]: raises, or
     gives no stream, or a stream whose download returns the bytes or
     raises after writing part of them *)
  youtube : string -> outcome (option (list Byte.byte * option exn));
  (* [subprocess.run(argv)] on the current files *)
  run_process : list string -> gmap string file -> proc_result;
  (* [httpx.get(url)] *)
  http_get : string -> outcome httpx.Response;
  (* whether [tag.images.set] refuses the image data *)
  image_refused : list Byte.byte -> option exn;
  (* whether [tag.save] fails on the file *)
  save_fault : string -> option exn
}.

Section Primitives.
Variable E : env.

(** [os.path.isfile(path)] *)
Definition isfile (path : string) : M world bool :=
  gets (fun w => bool_decide (is_Some (fs w !! path))).

(** [os.remove(path)] *)
Definition remove (path : string) : M world unit :=
  fun w => match fs w !! path with
           | Some _ => (Ok tt, set_fs (delete path (fs w)) w)
           | None => (Raise FileNotFoundError, w)
           end.

(** [tempfile] draws candidate names until one is free, at most
    [attempts] times, and creates the file empty. *)
Fixpoint mkstemp (attempts : nat) (suffix : string) : M world string :=
  match attempts with
  | O => raise FileExistsError
  | S n =>
      fun w =>
        let name := String.append (tmp_name E (names_drawn w)) suffix in
        let w' := set_names_drawn (S (names_drawn w)) w in
        match fs w !! name with
        | Some _ => mkstemp n suffix w'
        | None => (Ok name, set_fs (<[name := empty_file]> (fs w')) w')
        end
  end.

(** [f = tempfile.NamedTemporaryFile(suffix=suffix, delete=False)],
    [f.close()]; the result is [f.name]. *)
Definition NamedTemporaryFile (suffix : string) : M world string :=
  mkstemp (TMP_MAX E) suffix.

Definition write_all (written : list (string * file)) (f : gmap string file)
  : gmap string file :=
  fold_left (fun acc kv => <[fst kv := snd kv]> acc) written f.

(** [subprocess.run(argv).returncode] *)
Definition subprocess_run (argv : list string) : M world Z :=
  fun w =>
    let w' := set_spawned (spawned w ++ [argv]) w in
    match run_process E argv (fs w) with
    | SpawnFailed e => (Raise e, w')
    | Exited rc written => (Ok rc, set_fs (write_all written (fs w')) w')
    end.

(** [stream.download(...)] into [path] *)
Definition stream_download (stream : list Byte.byte * option exn) (path : string)
  : M world unit :=
  fun w =>
    let w' := set_fs (<[path := {| data := fst stream; id3 := None |}]> (fs w)) w in
    match snd stream with
    | Some e => (Raise e, w')
    | None => (Ok tt, w')
    end.

(** [tag.images.set(img_data=..., type_=..., mime_type=..., description=...)] *)
Definition images_set (frame : eyed3.ImageFrame) (tag : eyed3.Tag) : M world eyed3.Tag :=
  match image_refused E (eyed3.image_data frame) with
  | Some e => raise e
  | None => ret (eyed3.add_image frame tag)
  end.

(** [tag.save(filename=path)] *)
Definition tag_save (tag : eyed3.Tag) (path : string) : M world unit :=
  fun w =>
    match save_fault E path with
    | Some e => (Raise e, w)
    | None =>
        match fs w !! path with
        | Some f => (Ok tt, set_fs (<[path := {| data := data f; id3 := Some tag |}]> (fs w)) w)
        | None => (Raise FileNotFoundError, w)
        end
    end.

End Primitives.

End system.

(** ** [utils.py] *)

Module utils.

(** *** Pydantic models *)

Module PartialTrackMetadata.
Record t := { title : string; artist : string; album : option string }.
End PartialTrackMetadata.

Module TrackMetadata.
Record t := { title : string; artist : string; album : string; album_cover_url : string }.

(** [model.model_dump()]: a dictionary keyed by the field names. *)
Definition model_dump (m : t) : pyval :=
  PDict [("title", PStr (title m)); ("artist", PStr (artist m));
         ("album", PStr (album m)); ("album_cover_url", PStr (album_cover_url m))].
End TrackMetadata.

Module SpotifyAlbumImage.
Record t := { url : string; height : Z; width : Z }.
End SpotifyAlbumImage.

Module SpotifyAlbum.
Record t := { name : string; images : list SpotifyAlbumImage.t }.
End SpotifyAlbum.

Module SpotifyArtist.
Record t := { name : string }.
End SpotifyArtist.

Module SpotifyTrack.
Record t := { name : string; album : SpotifyAlbum.t; artists : list SpotifyArtist.t }.
End SpotifyTrack.

Module SpotifyTracksResult.
Record t := { total : Z; items : list SpotifyTrack.t }.
End SpotifyTracksResult.

Module SpotifySearchResponse.
Record t := { tracks : SpotifyTracksResult.t }.
End SpotifySearchResponse.

Module SpotifyAPIToken.
Record t := { token : string; expires_at : Z }.

Definition model_dump (m : t) : pyval :=
  PDict [("token", PStr (token m)); ("expires_at", PInt (expires_at m))].
End SpotifyAPIToken.

(** *** Small pieces of the Python library *)

(** [s.replace(' ', '%20')] *)
Fixpoint replace_spaces (s : string) : string :=
  match s with
  | EmptyString => EmptyString
  | String c s' =>
      if Ascii.eqb c " "%char then String.append "%20" (replace_spaces s')
      else String c (replace_spaces s')
  end.

(** [s.split(' ')]: every single space separates, so two spaces in a row
    or a space at either end give an empty field. *)
Fixpoint split_space (s : string) : list string :=
  match s with
  | EmptyString => [EmptyString]
  | String c s' =>
      if Ascii.eqb c " "%char then EmptyString :: split_space s'
      else match split_space s' with
           | field :: fields => String c field :: fields
           | [] => [String c EmptyString]
           end
  end.

(** [sep.join(fields)] *)
Fixpoint join (sep : string) (fields : list string) : string :=
  match fields with
  | [] => EmptyString
  | [x] => x
  | x :: rest => String.append x (String.append sep (join sep rest))
  end.

(** [s.endswith(suffix)] *)
Definition endswith (s suffix : string) : bool :=
  let n := String.length s in
  let k := String.length suffix in
  (k <=? n)%nat && String.eqb (String.substring (n - k) k s) suffix.

(** [needle in s] for two strings *)
Fixpoint contains (s needle : string) : bool :=
  String.prefix needle s ||
  match s with
  | EmptyString => false
  | String _ s' => contains s' needle
  end.

Definition pyval_is_str (x : pyval) (s : string) : bool :=
  match x with PStr s' => String.eqb s' s | _ => false end.

(** [key in data] *)
Definition py_in (key : string) (data : pyval) : outcome bool :=
  match data with
  | PDict d => Ok (existsb (String.eqb key) (dict_keys d))
  | PList l | PTuple l => Ok (existsb (fun x => pyval_is_str x key) l)
  | PStr s => Ok (contains s key)
  | PNone | PBool _ | PInt _ | PFloat _ => Raise TypeError
  end.

(** [data[key]] for a string key *)
Definition getitem_str (data : pyval) (key : string) : outcome pyval :=
  match data with
  | PDict d => match dict_get d key with Some x => Ok x | None => Raise KeyError end
  | _ => Raise TypeError
  end.

(** [for x in data]: the elements a Python loop visits. *)
Definition py_iter (data : pyval) : outcome (list pyval) :=
  match data with
  | PList l | PTuple l => Ok l
  | PDict d => Ok (map PStr (dict_keys d))
  | PStr s => Ok (map (fun c => PStr (String c EmptyString)) (list_ascii_of_string s))
  | PNone | PBool _ | PInt _ | PFloat _ => Raise TypeError
  end.

(** [status_code in range(200, 300)] *)
Definition in_range_200_300 (status_code : Z) : bool :=
  (200 <=? status_code) && (status_code <? 300).

(** Logging leaves the modelled world as it is. *)
Definition logger {W} (level message : string) : M W unit := ret tt.

(** A list comprehension whose body can raise. *)
Fixpoint for_each {W A B} (f : A -> M W B) (l : list A) : M W (list B) :=
  match l with
  | [] => ret []
  | x :: rest =>
      let* y := f x in
      let* ys := for_each f rest in
      ret (y :: ys)
  end.


(** *** The Spotify lookups: token and track search *)

(** The oracles of the lookups.  Pydantic's structural validation is a
    library matter and is taken as given; the validator the program adds
    to [SpotifyAPIToken] is modelled below. *)
Record services := {
  clock : nat -> Z;
  (* [str(partial_metadata).lower()] *)
  cache_key_of : PartialTrackMetadata.t -> string;
  (* [urllib.parse.quote] *)
  url_encode : string -> string;
  (* [client.post(url, headers=..., content=content)] *)
  post : string -> string -> outcome httpx.Response;
  (* [client.get(url, headers={'Authorization': authorization})] *)
  get : string -> string -> outcome httpx.Response;
  (* [int(s)] for a string *)
  int_of_str : string -> outcome Z;
  (* the fields pydantic extracts for [SpotifyAPIToken]; [None] when the
     input is no mapping at all *)
  token_fields : pyval -> option (option string * option Z);
  (* [TrackMetadata.model_validate] *)
  validate_track_metadata : pyval -> option TrackMetadata.t;
  (* [SpotifySearchResponse.model_validate] *)
  validate_search_response : pyval -> option SpotifySearchResponse.t
}.

Section Lookups.
Import cache_storage.
Variable S : settings.t.
Variable V : services.

(** [int(x)] *)
Definition py_int (x : pyval) : outcome Z :=
  match x with
  | PInt n => Ok n
  | PBool b => Ok (Z.b2z b)
  | PFloat FNan => Raise ValueError
  | PFloat (FInf _) => Raise (OtherError "OverflowError")
  | PFloat (FFin m e) => Ok (if 0 <=? e then m * 2 ^ e else Z.quot m (2 ^ (- e)))
  | PStr s => int_of_str V s
  | PNone | PList _ | PTuple _ | PDict _ => Raise TypeError
  end.

(** [SpotifyAPIToken.model_validate(x)], and the constructor alike: the
    field validator [validate_expiration_timestamp] runs on an
    [expires_at] that pydantic accepted, and its [ValueError] becomes a
    [ValidationError]. *)
Definition SpotifyAPIToken_model_validate (x : pyval) : M world SpotifyAPIToken.t :=
  match token_fields V x with
  | None => raise ValidationError
  | Some (token, expires_at) =>
      let* expires_at' :=
        match expires_at with
        | None => ret None
        | Some n =>
            let* t := now (clock V) in
            if n * usec <=? t then ret None else ret (Some n)
        end in
      match token, expires_at' with
      | Some tok, Some n => ret {| SpotifyAPIToken.token := tok; SpotifyAPIToken.expires_at := n |}
      | _, _ => raise ValidationError
      end
  end.

Definition on_ValidationError {A} (k : M world A) (e : exn) : option (M world A) :=
  match e with
  | ValidationError => Some k
  | _ => None
  end.

Definition get_spotify_api_token (cache : option CacheStorage) : M world (option string) :=
  let SPOTIFY_API_TOKEN_CACHE_KEY := "spotify_api_token" in
  let* cached :=
    match cache with
    | Some c =>
        try_except
          (let* item := get_item (clock V) c SPOTIFY_API_TOKEN_CACHE_KEY in
           let* cached_token := SpotifyAPIToken_model_validate item in
           logger "debug" "Spotify token retrieved from cache." >>
           ret (Some (SpotifyAPIToken.token cached_token)))
          (on_ValidationError (ret None))
    | None => ret None
    end in
  match cached with
  | Some token => ret (Some token)
  | None =>
      let content :=
        String.append "grant_type=client_credentials&client_id="
          (String.append (settings.SPOTIFY_API_CLIENT_ID S)
             (String.append "&client_secret=" (settings.SPOTIFY_API_CLIENT_SECRET S))) in
      let* response := lift (post V (settings.SPOTIFY_API_TOKEN_URL S) content) in
      let* data := lift (httpx.json response) in
      let* has_error := lift (py_in "error" data) in
      if has_error then
        let* error := lift (getitem_str data "error") in
        logger "error" "Error fetching a new spotify access token. Error:" >>
        ret None
      else
        let* access_token := lift (getitem_str data "access_token") in
        let* t := now (clock V) in
        let* expires_in := lift (getitem_str data "expires_in") in
        let* expires_in' := lift (py_int expires_in) in
        let* token :=
          SpotifyAPIToken_model_validate
            (PDict [("token", access_token);
                    ("expires_at", PInt (Z.quot t usec + expires_in'))]) in
        match cache with
        | Some c =>
            set_item (clock V) c SPOTIFY_API_TOKEN_CACHE_KEY (SpotifyAPIToken.model_dump token)
        | None => ret tt
        end >>
        logger "info" "Fetched new Spotify access token." >>
        ret (Some (SpotifyAPIToken.token token))
  end.

Definition TrackMetadata_model_validate (x : pyval) : M world TrackMetadata.t :=
  match validate_track_metadata V x with
  | Some m => ret m
  | None => raise ValidationError
  end.

(** The body of the comprehension that builds [metadata_options]. *)
Definition metadata_option (track : SpotifyTrack.t) : M world TrackMetadata.t :=
  match SpotifyAlbum.images (SpotifyTrack.album track) with
  | [] => raise IndexError
  | image :: _ =>
      ret {| TrackMetadata.artist :=
               join " & " (map SpotifyArtist.name (SpotifyTrack.artists track));
             TrackMetadata.title := SpotifyTrack.name track;
             TrackMetadata.album := SpotifyAlbum.name (SpotifyTrack.album track);
             TrackMetadata.album_cover_url := SpotifyAlbumImage.url image |}
  end.

(** The first block of [search_track_metadata_options]: the answer kept
    in the cache, when [cache] is given, holds a value and every element of
    it validates. *)
Definition cached_metadata_options (cache : option CacheStorage) (cache_key : string)
  : M world (option (list TrackMetadata.t)) :=
  match cache with
  | Some c =>
      try_except
        (let* cached_metadata := get_item (clock V) c cache_key in
         match cached_metadata with
         | PNone => ret None
         | _ =>
             let* elements := lift (py_iter cached_metadata) in
             let* models := for_each TrackMetadata_model_validate elements in
             ret (Some models)
         end)
        (on_ValidationError (ret None))
  | None => ret None
  end.

(** The address [search_track_metadata_options] requests: the search
    endpoint with the query built from the partial metadata. *)
Definition search_url (partial_metadata : PartialTrackMetadata.t) : string :=
  let title := PartialTrackMetadata.title partial_metadata in
  let artist := PartialTrackMetadata.artist partial_metadata in
  let query := String.append title (String.append " " artist) in
  let filters :=
    String.append "track:" (String.append title (String.append " artist:" artist)) in
  let filters' :=
    match PartialTrackMetadata.album partial_metadata with
    | Some album =>
        if String.eqb album "" then filters
        else String.append filters (String.append " album:" album)
    | None => filters
    end in
  let q := url_encode V (replace_spaces (String.append query (String.append " " filters'))) in
  String.append (settings.SPOTIFY_API_SEARCH_URL S)
    (String.append "?q=" (String.append q "&type=track&limit=10")).

Definition search_track_metadata_options
    (partial_metadata : PartialTrackMetadata.t) (cache : option CacheStorage)
  : M world (list TrackMetadata.t) :=
  let cache_key := cache_key_of V partial_metadata in
  let* cached := cached_metadata_options cache cache_key in
  match cached with
  | Some models => ret models
  | None =>
      let* token := get_spotify_api_token cache in
      match token with
      | None =>
          logger "error" "Could not retrieve spotify access token." >>
          raise (HTTPException 500 "Internal Server Error")
      | Some token =>
          let* response :=
            lift (get V (search_url partial_metadata) (String.append "Bearer " token)) in
          logger "debug" "Spotify search done." >>
          if negb (in_range_200_300 (httpx.status_code response)) then
            logger "error" "Error fetching the track metadata. HTTP code: " >>
            ret []
          else
            let* validated :=
              try_except
                (let* body := lift (httpx.json response) in
                 match validate_search_response V body with
                 | Some data => ret (Some data)
                 | None => raise ValidationError
                 end)
                (on_ValidationError
                   (logger "error" "Spotify search response with an unexpected format." >>
                    ret None)) in
            match validated with
            | None => ret []
            | Some data =>
                let* metadata_options :=
                  for_each metadata_option
                    (SpotifyTracksResult.items (SpotifySearchResponse.tracks data)) in
                match cache with
                | Some c =>
                    set_item (clock V) c cache_key
                      (PList (map TrackMetadata.model_dump metadata_options))
                | None => ret tt
                end >>
                ret metadata_options
            end
      end
  end.

End Lookups.

(** *** The media steps: download and transcode *)

Section Media.
Import system.
Variable S : settings.t.
Variable E : env.

Definition HTTP_404_NOT_FOUND : Z := 404.

Definition on_VideoUnavailable {A} (k : M world A) (e : exn) : option (M world A) :=
  match e with
  | VideoUnavailable _ => Some k
  | _ => None
  end.

(** The message of the two precondition failures of [convert_mp4_to_mp3];
    the extension is quoted in it. *)
Definition must_be_existing (parameter extension : string) : string :=
  let quote := String "034"%char EmptyString in
  String.append parameter
    (String.append " must be an existing file with the "
       (String.append quote
          (String.append extension (String.append quote " extension:")))).

Definition download_youtube_video (video_id filepath : string) : M world unit :=
  let* is_file := isfile filepath in
  if negb is_file then
    raise (IOError [String.append "`filepath` must be a valid filepath: " filepath])
  else
    let* audio_stream :=
      try_except
        (let* audio_stream := lift (youtube E video_id) in
         match audio_stream with
         | None => raise (VideoUnavailable video_id)
         | Some stream => ret stream
         end)
        (on_VideoUnavailable
           (logger "debug" "Youtube video not found." >>
            raise (HTTPException HTTP_404_NOT_FOUND
                     (String.append "No video found with ID " video_id)))) in
    logger "debug" "Downloading audio track" >>
    stream_download audio_stream filepath.

Definition convert_mp4_to_mp3 (mp4_filepath mp3_filepath : string) : M world unit :=
  let* mp4_is_file := isfile mp4_filepath in
  if negb (endswith mp4_filepath ".mp4") || negb mp4_is_file then
    raise (IOError [must_be_existing "`mp4_filepath`" ".mp4"; mp4_filepath])
  else
    let* mp3_is_file := isfile mp3_filepath in
    if negb (endswith mp3_filepath ".mp3") || negb mp3_is_file then
      raise (IOError [must_be_existing "`mp3_filepath`" ".mp3"; mp3_filepath])
    else
      let* returncode :=
        subprocess_run E
          (split_space
             (String.append (settings.FFMPEG_PATH S)
                (String.append " -i "
                   (String.append mp4_filepath
                      (String.append " -ab 320k -y " mp3_filepath))))) in
      if negb (returncode =? 0) then
        raise (Exception "Could not convert mp4 to mp3.")
      else
        logger "debug" "Successfully converted mp4 to mp3.".

End Media.

End utils.

(** ** [main.py]: the download endpoint *)

Module main.
Import system utils.

(** The work a response defers until it has been sent: here always the
    removal of the two temporary files of the request. *)
Inductive BackgroundTask :=
| remove_tmp_files_task (tmp_mp4_file tmp_mp3_file : string).

Record FileResponse := {
  path : string;
  media_type : option string;
  background : option BackgroundTask
}.

Section Download.
Variable S : settings.t.
Variable E : env.

(** The closure [remove_tmp_files] of one request. *)
Definition remove_tmp_files (tmp_mp4_file tmp_mp3_file : string) : M world unit :=
  remove tmp_mp4_file >>
  remove tmp_mp3_file.

(** What the server runs once the response has been sent. *)
Definition run_background (task : option BackgroundTask) : M world unit :=
  match task with
  | Some (remove_tmp_files_task tmp_mp4_file tmp_mp3_file) =>
      remove_tmp_files tmp_mp4_file tmp_mp3_file
  | None => ret tt
  end.

(** [except Exception:] catches every modelled exception. *)
Definition on_Exception {A} (k : exn -> M world A) (e : exn) : option (M world A) :=
  Some (k e).

(** The [try] block of [download_video_as_mp3]. *)
Definition try_block (video_id : string) (metadata : TrackMetadata.t)
    (tmp_mp4_file tmp_mp3_file : string) : M world FileResponse :=
  download_youtube_video E video_id tmp_mp4_file >>
  convert_mp4_to_mp3 S E tmp_mp4_file tmp_mp3_file >>
  let tag := eyed3.new in
  let tag := eyed3.set_title (TrackMetadata.title metadata) tag in
  let tag := eyed3.set_artist (TrackMetadata.artist metadata) tag in
  let tag := eyed3.set_album (TrackMetadata.album metadata) tag in
  let* response := lift (http_get E (TrackMetadata.album_cover_url metadata)) in
  (if negb (in_range_200_300 (httpx.status_code response)) then
     logger "error" "Could not fetch album cover. HTTP code: "
   else ret tt) >>
  let* tag :=
    images_set E
      {| eyed3.picture_type := eyed3.FRONT_COVER;
         eyed3.image_data := httpx.content response;
         eyed3.mime_type := "image/jpeg";
         eyed3.image_description :=
           String.append (TrackMetadata.album metadata) " Front Cover" |}
      tag in
  let tag :=
    eyed3.add_lyrics
      {| eyed3.text := ""; eyed3.lyrics_description := "";
         eyed3.lang := [Byte.x20; Byte.x20; Byte.x20] |}
      tag in
  tag_save E tag tmp_mp3_file >>
  ret {| path := tmp_mp3_file;
         media_type := Some "audio/mpeg";
         background := Some (remove_tmp_files_task tmp_mp4_file tmp_mp3_file) |}.

(** Its [except Exception:] block, for the exception [e] in flight. *)
Definition except_block (tmp_mp4_file tmp_mp3_file : string) (e : exn)
  : M world FileResponse :=
  logger "exception" "Exception downloading youtube track." >>
  remove_tmp_files tmp_mp4_file tmp_mp3_file >>
  raise e.

Definition download_video_as_mp3
    (video_id title artist album album_cover_url : string) : M world FileResponse :=
  if settings.MOCK_MODE S then
    ret {| path := "mock.mp3"; media_type := None; background := None |}
  else
    let video_id := url_decode E video_id in
    let metadata :=
      {| TrackMetadata.title := url_decode E title;
         TrackMetadata.artist := url_decode E artist;
         TrackMetadata.album := url_decode E album;
         TrackMetadata.album_cover_url := url_decode E album_cover_url |} in
    let* tmp_mp4_file := NamedTemporaryFile E ".mp4" in
    let* tmp_mp3_file := NamedTemporaryFile E ".mp3" in
    try_except
      (try_block video_id metadata tmp_mp4_file tmp_mp3_file)
      (on_Exception (except_block tmp_mp4_file tmp_mp3_file)).

End Download.

End main.

(** ** Auxiliary notions used by the statements *)

Module notions.
Import cache_storage.

(** The number of constructors of a value. *)
Fixpoint size (x : pyval) : nat :=
  match x with
  | PList l | PTuple l => S (list_sum (map size l))
  | PDict d => S (list_sum (map (fun kv => size (snd kv)) d))
  | _ => 1%nat
  end.

(** Every entry of the volatile tier is a pair made by [_create_item]. *)
Definition wf_mem (m : gmap string pyval) : Prop :=
  forall k item, m !! k = Some item -> exists v e, item = PTuple [v; PInt e].

(** The expiration [_create_item] computes in world [w]. *)
Definition expiration (clock : nat -> Z) (self : CacheStorage) (w : world) : Z :=
  Z.quot (clock (reads w) + item_lifetime self) usec.

(** What the cache file holds for [key]: nothing when the file is absent,
    is not a JSON document, or is an object without the key. *)
Definition file_entry (self : CacheStorage) (key : string) (w : world) : option pyval :=
  match disk w !! cache_path self with
  | Some (Parsed (PDict d)) => dict_get d key
  | _ => None
  end.

(** The cache file is absent, is not a JSON document, or is a JSON
    object: the contents [get_item] reads without raising on the file
    itself. *)
Definition readable (self : CacheStorage) (w : world) : Prop :=
  match disk w !! cache_path self with
  | None | Some Unparseable | Some (Parsed (PDict _)) => True
  | Some _ => False
  end.

End notions.

(** ** Concrete runs *)

Module examples.
Import cache_storage.

(** A clock that starts at 1 700 000 000 s and advances by [step]
    microseconds from one reading to the next. *)
Definition ticking (step : Z) (i : nat) : Z :=
  1700000000 * usec + Z.of_nat i * step.

(** A clock whose first reading falls 0.9 s after a full second and whose
    later readings follow 9.6 s apart. *)
Definition off_the_second (i : nat) : Z :=
  1700000000 * usec + 900000 + Z.of_nat i * 9600000.

(** A cache over [cache.json] with the default lifetime of ten seconds. *)
Definition ten_seconds : CacheStorage := __init__ "cache.json" None None.

(** A process that has just started: nothing in memory. *)
Definition started (d : gmap string content) : world := World 0 ∅ d.

Definition q1_value : pyval := PList [PStr "a"; PStr "b"].

(** The world after [set_item("q1", ["a", "b"])] in a fresh process
    without a cache file. *)
Definition after_set (step : Z) : world :=
  snd (set_item (ticking step) ten_seconds "q1" q1_value (started ∅)).

End examples.

Module pipeline_notions.
Import system utils main.

(** A string without the character the command line is split at. *)
Fixpoint no_space (s : string) : bool :=
  match s with
  | EmptyString => true
  | String c s' => negb (Ascii.eqb c " "%char) && no_space s'
  end.

(** The argument vector the specification gives for the encoder. *)
Definition encoder_argv (S : settings.t) (input output : string) : list string :=
  [settings.FFMPEG_PATH S; "-i"; input; "-ab"; "320k"; "-y"; output].

(** Every file of [w] is still a file of [w']. *)
Definition keeps_files (w w' : world) : Prop :=
  forall p, is_Some (fs w !! p) -> is_Some (fs w' !! p).

(** A computation that removes no file, whatever its outcome. *)
Definition removes_nothing {A} (c : M world A) : Prop :=
  forall w r w', c w = (r, w') -> keeps_files w w'.

(** The tag the endpoint builds from the decoded metadata and the bytes of
    the cover response. *)
Definition built_tag (title artist album : string) (cover : list Byte.byte) : eyed3.Tag :=
  {| eyed3.title := Some title;
     eyed3.artist := Some artist;
     eyed3.album := Some album;
     eyed3.images :=
       [{| eyed3.picture_type := eyed3.FRONT_COVER;
           eyed3.image_data := cover;
           eyed3.mime_type := "image/jpeg";
           eyed3.image_description := String.append album " Front Cover" |}];
     eyed3.lyrics :=
       [{| eyed3.text := ""; eyed3.lyrics_description := "";
           eyed3.lang := [Byte.x20; Byte.x20; Byte.x20] |}] |}.

(** The metadata object the endpoint builds from its query parameters. *)
Definition decoded (E : env) (title artist album album_cover_url : string)
  : TrackMetadata.t :=
  {| TrackMetadata.title := url_decode E title;
     TrackMetadata.artist := url_decode E artist;
     TrackMetadata.album := url_decode E album;
     TrackMetadata.album_cover_url := url_decode E album_cover_url |}.

(** The environment [E], except that every cover response carries the
    status [code]. *)
Definition with_status (code : Z) (E : env) : env :=
  {| url_decode := url_decode E;
     tmp_name := tmp_name E;
     TMP_MAX := TMP_MAX E;
     youtube := youtube E;
     run_process := run_process E;
     http_get := fun url =>
       match http_get E url with
       | Ok r => Ok {| httpx.status_code := code;
                       httpx.content := httpx.content r;
                       httpx.json := httpx.json r |}
       | Raise e => Raise e
       end;
     image_refused := image_refused E;
     save_fault := save_fault E |}.

End pipeline_notions.

Module pipeline_examples.
Import system utils main.

Definition configured (ffmpeg : string) : settings.t :=
  {| settings.SPOTIFY_API_SEARCH_URL := "https://api.spotify.com/v1/search";
     settings.SPOTIFY_API_TOKEN_URL := "https://accounts.spotify.com/api/token";
     settings.SPOTIFY_API_CLIENT_ID := "id";
     settings.SPOTIFY_API_CLIENT_SECRET := "secret";
     settings.FFMPEG_PATH := ffmpeg;
     settings.MOCK_MODE := false;
     settings.CACHE_PATH := "cache.json" |}.

(** A world where [missing123] names no video, every other identifier
    has a one-byte audio stream, the encoder exits with [rc] after writing
    its last argument, and the cover server answers every request with
    status [status] and a one-byte body. *)
Definition staged (rc status : Z) : env :=
  {| url_decode := fun s => s;
     tmp_name := fun i =>
       String.append "/tmp/tmp" (string_of_list_ascii (repeat "a"%char i));
     TMP_MAX := 100;
     youtube := fun video_id =>
       if String.eqb video_id "missing123" then Ok None
       else Ok (Some ([Byte.x01], None));
     run_process := fun argv _ =>
       Exited rc [(List.last argv "", {| data := [Byte.x02]; id3 := None |})];
     http_get := fun _ =>
       Ok {| httpx.status_code := status;
             httpx.content := [Byte.x03];
             httpx.json := Raise JSONDecodeError |};
     image_refused := fun _ => None;
     save_fault := fun _ => None |}.

Definition empty_world : world := World ∅ 0 [].

(** Two placeholder files, as the endpoint allocates them. *)
Definition two_placeholders (mp4 mp3 : string) : world :=
  World (<[mp3 := empty_file]> (<[mp4 := empty_file]> ∅)) 2 [].

End pipeline_examples.

Module search_examples.
Import cache_storage utils examples.

(** A strict reading of the three pydantic models, enough to run the
    lookups: a token is a mapping with a string [token] and an integer
    [expires_at]; track metadata is a mapping with the four string fields;
    no value is taken for a search response. *)
Definition strict_token_fields (x : pyval) : option (option string * option Z) :=
  match x with
  | PDict d =>
      Some (match dict_get d "token" with Some (PStr s) => Some s | _ => None end,
            match dict_get d "expires_at" with Some (PInt n) => Some n | _ => None end)
  | _ => None
  end.

Definition strict_track_metadata (x : pyval) : option TrackMetadata.t :=
  match x with
  | PDict d =>
      match dict_get d "title", dict_get d "artist",
            dict_get d "album", dict_get d "album_cover_url" with
      | Some (PStr t), Some (PStr a), Some (PStr b), Some (PStr c) =>
          Some {| TrackMetadata.title := t; TrackMetadata.artist := a;
                  TrackMetadata.album := b; TrackMetadata.album_cover_url := c |}
      | _, _, _, _ => None
      end
  | _ => None
  end.

(** The token service grants a token for an hour; the search service
    answers with [status] and the JSON document [body]. *)
Definition answering (status : Z) (body : outcome pyval) : services :=
  {| clock := ticking usec;
     cache_key_of := fun p =>
       String.append (PartialTrackMetadata.title p)
         (String.append "|" (PartialTrackMetadata.artist p));
     url_encode := fun s => s;
     post := fun _ _ =>
       Ok {| httpx.status_code := 200; httpx.content := [];
             httpx.json := Ok (PDict [("access_token", PStr "granted");
                                      ("expires_in", PInt 3600)]) |};
     get := fun _ _ =>
       Ok {| httpx.status_code := status; httpx.content := []; httpx.json := body |};
     int_of_str := fun _ => Raise ValueError;
     token_fields := strict_token_fields;
     validate_track_metadata := strict_track_metadata;
     validate_search_response := fun _ => None |}.

Definition some_track : PartialTrackMetadata.t :=
  {| PartialTrackMetadata.title := "T"; PartialTrackMetadata.artist := "A";
     PartialTrackMetadata.album := None |}.

End search_examples.

(** ** Sequences of cache calls *)

Module cache_sessions.
Import cache_storage.

(** One call a client makes on the cache. *)
Inductive call :=
| GetItem (key : string)
| SetItem (key : string) (value : pyval).

(** The call and what it hands back ([set_item] returns [None]). *)
Definition perform (clock : nat -> Z) (self : CacheStorage) (c : call) : M world pyval :=
  match c with
  | GetItem key => get_item clock self key
  | SetItem key value => set_item clock self key value >> ret PNone
  end.

(** The world after a series of calls; a call that raises leaves the
    process running, in the world it raised in. *)
Fixpoint session (clock : nat -> Z) (self : CacheStorage) (calls : list call) (w : world)
  : world :=
  match calls with
  | [] => w
  | c :: rest => session clock self rest (snd (perform clock self c w))
  end.

(** The process ends and another starts: the dictionary in memory is
    gone, the files and the clock go on. *)
Definition restart (w : world) : world := World (reads w) ∅ (disk w).

(** A two-element JSON list whose second element is an integer. *)
Definition is_pair (x : pyval) : Prop := exists v e, x = PList [v; PInt e].

(** A cache file the cache itself can have written, or none, or one it
    will overwrite: absent, not JSON, or a JSON object of pairs. *)
Definition sound_file (c : option content) : Prop :=
  match c with
  | None | Some Unparseable => True
  | Some (Parsed (PDict d)) => Forall (fun kv => is_pair (snd kv)) d
  | Some _ => False
  end.

End cache_sessions.

Module cache_session_examples.
Import cache_storage cache_sessions examples.

(** A cache file that maps [other] to a pair good until 1 700 000 300 s. *)
Definition other_entry : gmap string content :=
  {[ "cache.json" := Parsed (PDict [("other", PList [PStr "x"; PInt 1700000300])]) ]}.

(** A process whose pair for [q1] ran out at 1 600 000 000 s, next to a
    file where another process has put a pair good until 1 700 000 010 s. *)
Definition outdated_memory : world :=
  World 0 {[ "q1" := PTuple [PStr "old"; PInt 1600000000] ]}
    {[ "cache.json" := Parsed (PDict [("q1", PList [q1_value; PInt 1700000010])]) ]}.

Definition some_calls : list call :=
  [GetItem "q1"; SetItem "q1" q1_value; GetItem "q1"; SetItem "k" (PTuple [PInt 1; PNone]);
   GetItem "k"; GetItem "missing"].

End cache_session_examples.

Module pipeline_more_examples.
Import system utils main pipeline_examples.

(** A temporary directory where [tempfile] keeps drawing the one name
    [/tmp/x], and gives up after two attempts. *)
Definition one_name : env :=
  {| url_decode := fun s => s;
     tmp_name := fun _ => "/tmp/x";
     TMP_MAX := 2;
     youtube := fun _ => Ok None;
     run_process := fun _ _ => Exited 0 [];
     http_get := fun _ => Raise (OtherError "ConnectError");
     image_refused := fun _ => None;
     save_fault := fun _ => None |}.

(** A world whose only file is at [p]. *)
Definition only_file (p : string) : world := World {[ p := empty_file ]} 0 [].

(** The response of a successful acquisition, and the world it is
    returned in. *)
Definition acquired_world : world :=
  snd (download_video_as_mp3 (configured "/usr/bin/ffmpeg") (staged 0 200)
         "abc" "T" "A" "B" "http://x/y.jpg" empty_world).

Definition acquired_response : FileResponse :=
  {| path := "/tmp/tmpa.mp3"; media_type := Some "audio/mpeg";
     background := Some (remove_tmp_files_task "/tmp/tmp.mp4" "/tmp/tmpa.mp3") |}.

End pipeline_more_examples.

(** ** Notions for the Spotify lookups *)

Module lookup_notions.
Import cache_storage utils.

(** The body of the token request. *)
Definition grant_request (S : settings.t) : string :=
  String.append "grant_type=client_credentials&client_id="
    (String.append (settings.SPOTIFY_API_CLIENT_ID S)
       (String.append "&client_secret=" (settings.SPOTIFY_API_CLIENT_SECRET S))).

(** The cache gives [get_spotify_api_token] no token in world [w], and
    leaves world [w']: no cache was passed, or what [get_item] returned
    failed validation. *)
Definition no_cached_token (V : services) (cache : option CacheStorage) (w w' : world)
  : Prop :=
  match cache with
  | None => w' = w
  | Some c =>
      exists item w1,
        get_item (clock V) c "spotify_api_token" w = (Ok item, w1) /\
        SpotifyAPIToken_model_validate V item w1 = (Raise ValidationError, w')
  end.

(** What the search makes of one track, the first image of its album
    given. *)
Definition describes (track : SpotifyTrack.t) (m : TrackMetadata.t) : Prop :=
  TrackMetadata.title m = SpotifyTrack.name track /\
  TrackMetadata.artist m = join " & " (map SpotifyArtist.name (SpotifyTrack.artists track)) /\
  TrackMetadata.album m = SpotifyAlbum.name (SpotifyTrack.album track) /\
  exists image rest,
    SpotifyAlbum.images (SpotifyTrack.album track) = image :: rest /\
    TrackMetadata.album_cover_url m = SpotifyAlbumImage.url image.

Definition without_image (track : SpotifyTrack.t) : Prop :=
  SpotifyAlbum.images (SpotifyTrack.album track) = [].

(** The write that ends a search which was given a cache. *)
Definition remember (V : services) (cache : option CacheStorage) (key : string)
    (options : list TrackMetadata.t) : M world unit :=
  match cache with
  | Some c => set_item (clock V) c key (PList (map TrackMetadata.model_dump options))
  | None => ret tt
  end.

End lookup_notions.

Module lookup_examples.
Import cache_storage utils examples search_examples.

Definition one_track : SpotifyTrack.t :=
  {| SpotifyTrack.name := "T";
     SpotifyTrack.album :=
       {| SpotifyAlbum.name := "B";
          SpotifyAlbum.images :=
            [{| SpotifyAlbumImage.url := "http://x/640.jpg";
                SpotifyAlbumImage.height := 640; SpotifyAlbumImage.width := 640 |};
             {| SpotifyAlbumImage.url := "http://x/64.jpg";
                SpotifyAlbumImage.height := 64; SpotifyAlbumImage.width := 64 |}] |};
     SpotifyTrack.artists := [{| SpotifyArtist.name := "A" |}; {| SpotifyArtist.name := "C" |}] |}.

Definition one_option : TrackMetadata.t :=
  {| TrackMetadata.title := "T"; TrackMetadata.artist := "A & C";
     TrackMetadata.album := "B"; TrackMetadata.album_cover_url := "http://x/640.jpg" |}.

(** Services like [answering], except that the token service answers with
    the document [grant] and every search response validates as [tracks]. *)
Definition granting (grant : pyval) (tracks : list SpotifyTrack.t) : services :=
  {| clock := ticking usec;
     cache_key_of := fun p =>
       String.append (PartialTrackMetadata.title p)
         (String.append "|" (PartialTrackMetadata.artist p));
     url_encode := fun s => s;
     post := fun _ _ =>
       Ok {| httpx.status_code := 200; httpx.content := []; httpx.json := Ok grant |};
     get := fun _ _ =>
       Ok {| httpx.status_code := 200; httpx.content := []; httpx.json := Ok PNone |};
     int_of_str := fun _ => Raise ValueError;
     token_fields := strict_token_fields;
     validate_track_metadata := strict_track_metadata;
     validate_search_response := fun _ =>
       Some {| SpotifySearchResponse.tracks :=
                 {| SpotifyTracksResult.total := Z.of_nat (List.length tracks);
                    SpotifyTracksResult.items := tracks |} |} |}.

Definition good_grant : pyval :=
  PDict [("access_token", PStr "granted"); ("expires_in", PInt 3600)].

Definition refusal : pyval :=
  PDict [("error", PStr "invalid_client")].

End lookup_examples.

Module lookup_more_examples.
Import cache_storage utils examples search_examples lookup_examples.

(** A cache file whose token entry is good until 1 700 000 010 s, for a
    token that is itself good until 1 700 000 500 s. *)
Definition kept_token : world :=
  started {[ "cache.json" :=
               Parsed (PDict [("spotify_api_token",
                               PList [PDict [("token", PStr "kept");
                                             ("expires_at", PInt 1700000500)];
                                      PInt 1700000010])]) ]}.

End lookup_more_examples.

(** ** [main.py]: the video search endpoint *)

Module video_search.
Import cache_storage utils.

Module VideoSearchResult.
Record t := {
  video_id : string; watch_url : string; title : string; author : string;
  thumbnail_url : string
}.

Definition model_dump (m : t) : pyval :=
  PDict [("video_id", PStr (video_id m)); ("watch_url", PStr (watch_url m));
         ("title", PStr (title m)); ("author", PStr (author m));
         ("thumbnail_url", PStr (thumbnail_url m))].
End VideoSearchResult.

(** One entry of [vid_info['videoDetails']['thumbnail']['thumbnails']]. *)
Record Thumbnail := { url : string; width : Z; height : Z }.

(** A [pytube.YouTube] result, as far as the endpoint reads it; the
    properties that fetch or parse may raise. *)
Record YouTube := {
  video_id : string;
  watch_url : string;
  title : outcome string;
  author : outcome string;
  thumbnails : outcome (list Thumbnail)
}.

(** What the endpoint returns: the models it built or validated, or, in
    mock mode, whatever the mock file holds. *)
Inductive reply :=
| Videos (results : list VideoSearchResult.t)
| Mock (videos : pyval).

Record video_services := {
  tick : nat -> Z;                                  (* the clock, as for the cache *)
  unquote : string -> string;                       (* [urllib.parse.unquote] *)
  strip : string -> string;                         (* [str.strip] *)
  lower : string -> string;                         (* [str.lower] *)
  (* [pytube.Search(query).results] *)
  pytube_search : string -> outcome (option (list YouTube));
  (* [VideoSearchResult.model_validate] *)
  validate_video : pyval -> option VideoSearchResult.t
}.

(** The sort key [t['width'] * t['height']]. *)
Definition area (t : Thumbnail) : Z := width t * height t.

(** [sorted(thumbnails, key=area, reverse=True)]: a stable sort, so
    thumbnails of equal area keep their order. *)
Fixpoint insert_by_area (t : Thumbnail) (l : list Thumbnail) : list Thumbnail :=
  match l with
  | [] => [t]
  | u :: rest => if area t <? area u then u :: insert_by_area t rest else t :: u :: rest
  end.

Fixpoint sorted_by_area (l : list Thumbnail) : list Thumbnail :=
  match l with
  | [] => []
  | t :: rest => insert_by_area t (sorted_by_area rest)
  end.

(** [s.split('?', 1)[0]] *)
Fixpoint before_question_mark (s : string) : string :=
  match s with
  | EmptyString => EmptyString
  | String c rest =>
      if Ascii.eqb c "?"%char then EmptyString else String c (before_question_mark rest)
  end.

(** The [thumbnail_url] argument of the comprehension. *)
Definition thumbnail_url_of (result : YouTube) : outcome string :=
  match thumbnails result with
  | Raise e => Raise e
  | Ok l =>
      match sorted_by_area l with
      | [] => Raise IndexError
      | t :: _ => Ok (before_question_mark (url t))
      end
  end.

(** The body of the comprehension that builds [final_results]. *)
Definition video_search_result (result : YouTube) : M world VideoSearchResult.t :=
  let* title := lift (title result) in
  let* author := lift (author result) in
  let* thumbnail_url := lift (thumbnail_url_of result) in
  ret {| VideoSearchResult.video_id := video_id result;
         VideoSearchResult.watch_url := watch_url result;
         VideoSearchResult.title := title;
         VideoSearchResult.author := author;
         VideoSearchResult.thumbnail_url := thumbnail_url |}.

Section SearchVideos.
Variable S : settings.t.
Variable P : video_services.

Definition VideoSearchResult_model_validate (x : pyval) : M world VideoSearchResult.t :=
  match validate_video P x with
  | Some m => ret m
  | None => raise ValidationError
  end.

(** The key a query is cached under. *)
Definition video_cache_key (query : string) : string :=
  String.append "search_video_" (lower P (unquote P (strip P query))).

Definition search_videos (cache : CacheStorage) (query : string) : M world reply :=
  if settings.MOCK_MODE S then
    let* mock := load "mock.json" in
    let* videos := lift (getitem_str mock "videos") in
    ret (Mock videos)
  else
    let query := unquote P (strip P query) in
    let cache_key := String.append "search_video_" (lower P query) in
    let* cached_result := get_item (tick P) cache cache_key in
    let* cached :=
      match cached_result with
      | PNone => ret None
      | _ =>
          try_except
            (let* elements := lift (py_iter cached_result) in
             let* models := for_each VideoSearchResult_model_validate elements in
             ret (Some models))
            (on_ValidationError (ret None))
      end in
    match cached with
    | Some models => ret (Videos models)
    | None =>
        let* results := lift (pytube_search P query) in
        match results with
        | None | Some [] => ret (Videos [])
        | Some results =>
            let* final_results := for_each video_search_result results in
            set_item (tick P) cache cache_key
              (PList (map VideoSearchResult.model_dump final_results)) >>
            ret (Videos final_results)
        end
    end.

End SearchVideos.

(** What the endpoint makes of one result. *)
Definition presents (result : YouTube) (m : VideoSearchResult.t) : Prop :=
  VideoSearchResult.video_id m = video_id result /\
  VideoSearchResult.watch_url m = watch_url result /\
  title result = Ok (VideoSearchResult.title m) /\
  author result = Ok (VideoSearchResult.author m) /\
  thumbnail_url_of result = Ok (VideoSearchResult.thumbnail_url m).

(** A result one of whose properties raises, or that has no thumbnail. *)
Definition unpresentable (result : YouTube) : Prop :=
  (exists e, title result = Raise e) \/
  (exists e, author result = Raise e) \/
  (exists e, thumbnail_url_of result = Raise e).

End video_search.

(** ** [logger.py]: whether logging is enabled *)

Module logger_config.


Section Enable.
(** [str.upper] *)
Variable upper : string -> string.



End Enable.


End logger_config.

Module video_examples.
Import cache_storage utils examples video_search.

(** A strict reading of [VideoSearchResult]: a mapping with the five
    string fields. *)
Definition strict_video (x : pyval) : option VideoSearchResult.t :=
  match x with
  | PDict d =>
      match dict_get d "video_id", dict_get d "watch_url", dict_get d "title",
            dict_get d "author", dict_get d "thumbnail_url" with
      | Some (PStr i), Some (PStr u), Some (PStr t), Some (PStr a), Some (PStr p) =>
          Some {| VideoSearchResult.video_id := i; VideoSearchResult.watch_url := u;
                  VideoSearchResult.title := t; VideoSearchResult.author := a;
                  VideoSearchResult.thumbnail_url := p |}
      | _, _, _, _, _ => None
      end
  | _ => None
  end.

(** Three thumbnails, the last two as large as each other. *)
Definition clip_thumbnails : list Thumbnail :=
  [ {| url := "https://i.ytimg.com/abc/default.jpg?sqp=1"; width := 120; height := 90 |};
    {| url := "https://i.ytimg.com/abc/hq.jpg?sqp=2&rs=3"; width := 480; height := 360 |};
    {| url := "https://i.ytimg.com/abc/sd.jpg"; width := 360; height := 480 |} ].

Definition clip : YouTube :=
  {| video_id := "abc"; watch_url := "https://youtube.com/watch?v=abc";
     title := Ok "Cats"; author := Ok "Someone";
     thumbnails := Ok clip_thumbnails |}.

Definition presented_clip : VideoSearchResult.t :=
  {| VideoSearchResult.video_id := "abc";
     VideoSearchResult.watch_url := "https://youtube.com/watch?v=abc";
     VideoSearchResult.title := "Cats"; VideoSearchResult.author := "Someone";
     VideoSearchResult.thumbnail_url := "https://i.ytimg.com/abc/hq.jpg" |}.

(** A video whose details hold no thumbnail. *)
Definition bare : YouTube :=
  {| video_id := "xyz"; watch_url := "https://youtube.com/watch?v=xyz";
     title := Ok "Dogs"; author := Ok "Someone"; thumbnails := Ok [] |}.

(** A search that answers [results] whatever is asked. *)
Definition finding (results : outcome (option (list YouTube))) : video_services :=
  {| tick := ticking usec;
     unquote := fun s => s; strip := fun s => s; lower := fun s => s;
     pytube_search := fun _ => results;
     validate_video := strict_video |}.

(** A process whose cache file holds, under the key of the query [cats],
    the pair [(value, expiration)]. *)
Definition holding (value : pyval) (expiration : Z) : world :=
  started {[ "cache.json" :=
               Parsed (PDict [("search_video_cats",
                               PList [value; PInt expiration])]) ]}.

End video_examples.

(** * Properties of the cache *)

Section CacheProperties.
Import cache_storage notions.
Variable clock : nat -> Z.

Lemma size_pair_gt (v e : pyval) : (size v < size (PTuple [v; e]))%nat.
Proof. simpl. lia. Qed.

Lemma pair_neq_component (v e : pyval) : PTuple [v; e] <> v.
Proof.
  intros H. pose proof (size_pair_gt v e) as Hlt. rewrite H in Hlt. lia.
Qed.

Lemma has_expired_pair (v : pyval) (e : Z) (w : world) :
  _has_expired clock (PTuple [v; PInt e]) w
  = (Ok (e * usec <? clock (reads w)), set_reads (S (reads w)) w).
Proof. reflexivity. Qed.

Lemma has_expired_list (v : pyval) (e : Z) (w : world) :
  _has_expired clock (PList [v; PInt e]) w
  = (Ok (e * usec <? clock (reads w)), set_reads (S (reads w)) w).
Proof. reflexivity. Qed.

(** [set_item], case by case on what the durable file holds. *)
Lemma set_item_unfold (self : CacheStorage) (key : string) (value : pyval) (w : world) :
  set_item clock self key value w =
  let item := PTuple [value; PInt (expiration clock self w)] in
  let stored d :=
    (Ok tt, World (S (reads w)) (<[key := item]> (mem_cache w))
                  (<[cache_path self := Parsed (to_json (PDict d))]> (disk w))) in
  match disk w !! cache_path self with
  | None | Some Unparseable => stored [(key, item)]
  | Some (Parsed (PDict d)) => stored (dict_set d key item)
  | Some Undecodable => (Raise UnicodeDecodeError, set_reads (S (reads w)) w)
  | Some (Parsed _) => (Raise TypeError, set_reads (S (reads w)) w)
  end.
Proof.
  unfold set_item, _create_item, bind, try_except, load, now, ret, modify, dump, lift,
    expiration.
  cbn.
  destruct (disk w !! cache_path self) as [[| |j]|] eqn:Hd; cbn; try reflexivity.
  destruct j; reflexivity.
Qed.

Lemma set_item_Ok (self : CacheStorage) (key : string) (value : pyval) (w w1 : world) :
  set_item clock self key value w = (Ok tt, w1) ->
  reads w1 = S (reads w) /\
  mem_cache w1 = <[key := PTuple [value; PInt (expiration clock self w)]]> (mem_cache w) /\
  exists d, disk w1 = <[cache_path self := Parsed (PDict d)]> (disk w) /\
            dict_get d key = Some (PList [to_json value; PInt (expiration clock self w)]).
Proof.
  rewrite set_item_unfold. cbv zeta.
  assert (Hset : forall d : list (string * pyval),
             dict_get (map (fun kv => match kv with (k, y) => (k, to_json y) end)
                         (dict_set d key (PTuple [value; PInt (expiration clock self w)]))) key
             = Some (PList [to_json value; PInt (expiration clock self w)])).
  { induction d as [|[k y] d IH]; cbn.
    - rewrite String.eqb_refl. reflexivity.
    - destruct (String.eqb k key) eqn:Hk; cbn; rewrite Hk; [reflexivity | exact IH]. }
  destruct (disk w !! cache_path self) as [[| |j]|] eqn:Hd.
  - discriminate.
  - intros [= <-]. cbn. repeat split. eexists. split; [reflexivity|].
    cbn. rewrite String.eqb_refl. reflexivity.
  - destruct j; try discriminate.
    intros [= <-]. cbn. repeat split. eexists. split; [reflexivity|]. apply Hset.
  - intros [= <-]. cbn. repeat split. eexists. split; [reflexivity|].
    cbn. rewrite String.eqb_refl. reflexivity.
Qed.

Lemma get_item_durable_no_document (self : CacheStorage) (key : string) (w : world) :
  disk w !! cache_path self = None \/ disk w !! cache_path self = Some Unparseable ->
  get_item_durable clock self key w = (Ok PNone, w).
Proof.
  intros [H | H]; unfold get_item_durable, bind, try_except, load; rewrite H; reflexivity.
Qed.

Lemma get_item_durable_pair (self : CacheStorage) (key : string) (w : world)
    (d : list (string * pyval)) (v : pyval) (e : Z) :
  disk w !! cache_path self = Some (Parsed (PDict d)) ->
  dict_get d key = Some (PList [v; PInt e]) ->
  get_item_durable clock self key w
  = (Ok (if e * usec <? clock (reads w) then PNone else v), set_reads (S (reads w)) w).
Proof.
  intros Hd Hk.
  unfold get_item_durable, bind, try_except, load, lift, dict_get_method.
  rewrite Hd, Hk, has_expired_list.
  destruct (e * usec <? clock (reads w)); reflexivity.
Qed.

Lemma get_item_durable_no_entry (self : CacheStorage) (key : string) (w : world) :
  readable self w -> file_entry self key w = None ->
  get_item_durable clock self key w = (Ok PNone, w).
Proof.
  unfold readable, file_entry.
  destruct (disk w !! cache_path self) as [[| |j]|] eqn:Hd; try contradiction.
  - intros _ _. apply get_item_durable_no_document. right. exact Hd.
  - destruct j; try contradiction. intros _ Hk.
    unfold get_item_durable, bind, try_except, load, lift, dict_get_method.
    rewrite Hd, Hk. reflexivity.
  - intros _ _. apply get_item_durable_no_document. left. exact Hd.
Qed.

Lemma get_item_durable_entry (self : CacheStorage) (key : string) (w : world)
    (v : pyval) (e : Z) :
  file_entry self key w = Some (PList [v; PInt e]) ->
  get_item_durable clock self key w
  = (Ok (if e * usec <? clock (reads w) then PNone else v), set_reads (S (reads w)) w).
Proof.
  unfold file_entry.
  destruct (disk w !! cache_path self) as [[| |j]|] eqn:Hd; try discriminate.
  destruct j; try discriminate.
  intros Hk. apply (get_item_durable_pair self key w d v e Hd Hk).
Qed.

Lemma get_item_mem_miss (self : CacheStorage) (key : string) (w : world) :
  mem_cache w !! key = None ->
  get_item clock self key w = get_item_durable clock self key w.
Proof.
  intros H. unfold get_item, bind, gets. rewrite H. reflexivity.
Qed.

Lemma get_item_mem_hit (self : CacheStorage) (key : string) (w : world) (v : pyval) (e : Z) :
  mem_cache w !! key = Some (PTuple [v; PInt e]) ->
  get_item clock self key w
  = if e * usec <? clock (reads w)
    then get_item_durable clock self key (set_reads (S (reads w)) w)
    else (Ok (PTuple [v; PInt e]), set_reads (S (reads w)) w).
Proof.
  intros H. unfold get_item, bind, gets. rewrite H, has_expired_pair.
  destruct (e * usec <? clock (reads w)); reflexivity.
Qed.

(** The volatile tier only ever holds pairs. *)
Lemma wf_mem_empty : wf_mem ∅.
Proof. intros k item H. rewrite lookup_empty in H. discriminate. Qed.

Lemma set_item_wf_mem (self : CacheStorage) (key : string) (value : pyval)
    (w w1 : world) (r : outcome unit) :
  wf_mem (mem_cache w) ->
  set_item clock self key value w = (r, w1) ->
  wf_mem (mem_cache w1).
Proof.
  intros Hwf. rewrite set_item_unfold. cbv zeta.
  assert (Hins : wf_mem (<[key := PTuple [value; PInt (expiration clock self w)]]> (mem_cache w))).
  { intros k item. rewrite lookup_insert. case_decide.
    - intros [= <-]. eauto.
    - apply Hwf. }
  destruct (disk w !! cache_path self) as [[| |j]|]; try destruct j;
    intros [= <- <-]; cbn; assumption.
Qed.

End CacheProperties.

(** * The claims about the cache *)

Section CacheClaims.
Import cache_storage notions.
Variable clock : nat -> Z.

(** C1 (code differs from the claim).  After a successful [set_item(k, v)],
    a [get_item(k)] that reads the clock no later than the entry's
    expiration is answered from the volatile tier with the stored pair
    [(v, expires_at)], which is never [v] itself. *)
Theorem set_item_then_get_item_returns_the_pair
    (self : CacheStorage) (key : string) (value : pyval) (w w1 : world) :
  set_item clock self key value w = (Ok tt, w1) ->
  clock (reads w1) <= expiration clock self w * usec ->
  get_item clock self key w1
  = (Ok (PTuple [value; PInt (expiration clock self w)]), set_reads (S (reads w1)) w1)
  /\ PTuple [value; PInt (expiration clock self w)] <> value.
Proof.
  intros Hset Hnow.
  destruct (set_item_Ok clock _ _ _ _ _ Hset) as (_ & Hmem & _).
  split; [|apply pair_neq_component].
  rewrite (get_item_mem_hit clock self key w1 value (expiration clock self w)).
  - destruct (Z.ltb_spec (expiration clock self w * usec) (clock (reads w1)));
      [lia | reflexivity].
  - rewrite Hmem. apply lookup_insert_eq.
Qed.

(** C2, as amended.  When the durable file is absent or holds text that
    is not JSON, [get_item] does not raise: it answers [None], or the
    pair the volatile tier still holds for the key, and leaves the file
    alone; a [set_item(k, v)] that follows succeeds and leaves a file
    whose only key is [k]. *)
Theorem unreadable_file_degrades_to_a_miss
    (self : CacheStorage) (key k : string) (v : pyval) (w : world) :
  disk w !! cache_path self = None \/ disk w !! cache_path self = Some Unparseable ->
  wf_mem (mem_cache w) ->
  exists r w1,
    get_item clock self key w = (Ok r, w1) /\
    (r = PNone \/ mem_cache w !! key = Some r) /\
    disk w1 = disk w /\
    exists w2,
      set_item clock self k v w1 = (Ok tt, w2) /\
      disk w2 !! cache_path self
      = Some (Parsed (PDict [(k, PList [to_json v; PInt (expiration clock self w1)])])).
Proof.
  intros Hfile Hwf.
  assert (Hset : forall w1, disk w1 = disk w ->
            exists w2, set_item clock self k v w1 = (Ok tt, w2) /\
              disk w2 !! cache_path self
              = Some (Parsed (PDict [(k, PList [to_json v; PInt (expiration clock self w1)])]))).
  { intros w1 Hd. rewrite set_item_unfold. cbv zeta. rewrite Hd.
    destruct Hfile as [-> | ->]; eexists; (split; [reflexivity|]);
      cbn; rewrite lookup_insert_eq; reflexivity. }
  destruct (mem_cache w !! key) as [item|] eqn:Hmem.
  - destruct (Hwf _ _ Hmem) as (v0 & e0 & ->).
    rewrite (get_item_mem_hit clock self key w v0 e0 Hmem).
    destruct (e0 * usec <? clock (reads w)).
    + rewrite get_item_durable_no_document by (cbn; exact Hfile).
      do 2 eexists. split; [reflexivity|]. split; [left; reflexivity|].
      split; [reflexivity|]. apply Hset. reflexivity.
    + do 2 eexists. split; [reflexivity|]. split; [right; reflexivity|].
      split; [reflexivity|]. apply Hset. reflexivity.
  - rewrite get_item_mem_miss, get_item_durable_no_document by assumption.
    do 2 eexists. split; [reflexivity|]. split; [left; reflexivity|].
    split; [reflexivity|]. apply Hset. reflexivity.
Qed.

(** C4.  A pair is valid exactly when the clock reads no more than its
    [expires_at], the boundary instant included, and [get_item] serves it
    accordingly.  [_has_expired] is [now > expires_at] for a tuple in
    memory and for a list read from the file.  A pair in memory that is
    read no later than its [expires_at] is what [get_item] returns; with
    nothing in memory, a pair in the file that is read no later than its
    [expires_at] has its value returned.  A [get_item] that finds expired
    pairs only, in memory or in the file, and otherwise no entry, answers
    [None].  So does every [get_item(k)] that starts after [item_lifetime]
    has passed since [set_item(k, _)] read the clock, in the same process
    or in a new one, whether the file still holds the stale pair or holds
    nothing for [k] any more. *)
Theorem expired_pairs_are_absent :
  (forall (v : pyval) (e : Z) (w : world) (item : pyval),
      item = PTuple [v; PInt e] \/ item = PList [v; PInt e] ->
      _has_expired clock item w
      = (Ok (negb (clock (reads w) <=? e * usec)), set_reads (S (reads w)) w)) /\
  (forall (self : CacheStorage) (key : string) (w : world) (v0 : pyval) (e0 : Z),
      mem_cache w !! key = Some (PTuple [v0; PInt e0]) ->
      clock (reads w) <= e0 * usec ->
      get_item clock self key w
      = (Ok (PTuple [v0; PInt e0]), set_reads (S (reads w)) w)) /\
  (forall (self : CacheStorage) (key : string) (w : world) (v : pyval) (e : Z),
      mem_cache w !! key = None ->
      file_entry self key w = Some (PList [v; PInt e]) ->
      clock (reads w) <= e * usec ->
      get_item clock self key w = (Ok v, set_reads (S (reads w)) w)) /\
  (forall (self : CacheStorage) (key : string) (w : world),
      (mem_cache w !! key = None \/
       exists v0 e0, mem_cache w !! key = Some (PTuple [v0; PInt e0]) /\
                     e0 * usec < clock (reads w)) ->
      (readable self w /\ file_entry self key w = None \/
       exists v e, file_entry self key w = Some (PList [v; PInt e]) /\
                   e * usec < clock (reads w) /\
                   e * usec < clock (S (reads w))) ->
      fst (get_item clock self key w) = Ok PNone) /\
  (forall (self : CacheStorage) (key : string) (value : pyval) (w w1 w2 : world),
      0 <= clock (reads w) + item_lifetime self ->
      set_item clock self key value w = (Ok tt, w1) ->
      (mem_cache w2 !! key = None \/ mem_cache w2 !! key = mem_cache w1 !! key) ->
      (readable self w2 /\ file_entry self key w2 = None \/
       file_entry self key w2 = file_entry self key w1) ->
      clock (reads w) + item_lifetime self < clock (reads w2) ->
      clock (reads w2) <= clock (S (reads w2)) ->
      fst (get_item clock self key w2) = Ok PNone).
Proof.
  assert (Hstale : forall (self : CacheStorage) (key : string) (w : world),
      (mem_cache w !! key = None \/
       exists v0 e0, mem_cache w !! key = Some (PTuple [v0; PInt e0]) /\
                     e0 * usec < clock (reads w)) ->
      (readable self w /\ file_entry self key w = None \/
       exists v e, file_entry self key w = Some (PList [v; PInt e]) /\
                   e * usec < clock (reads w) /\
                   e * usec < clock (S (reads w))) ->
      fst (get_item clock self key w) = Ok PNone).
  { intros self key w Hmem Hfile.
    assert (Hdurable : forall n, (n = reads w \/ n = S (reads w)) ->
               fst (get_item_durable clock self key (set_reads n w)) = Ok PNone).
    { intros n Hn. destruct Hfile as [[Hr Hk] | (v & e & Hk & H1 & H2)].
      - rewrite get_item_durable_no_entry; [reflexivity | exact Hr | exact Hk].
      - rewrite (get_item_durable_entry clock self key (set_reads n w) v e Hk). cbn.
        destruct (Z.ltb_spec (e * usec) (clock n)); [reflexivity|].
        destruct Hn as [-> | ->]; lia. }
    destruct Hmem as [Hmem | (v0 & e0 & Hmem & H0)].
    - rewrite get_item_mem_miss by exact Hmem.
      replace w with (set_reads (reads w) w) at 1 by (destruct w; reflexivity).
      apply Hdurable. left. reflexivity.
    - rewrite (get_item_mem_hit clock self key w v0 e0 Hmem).
      destruct (Z.ltb_spec (e0 * usec) (clock (reads w))); [|lia].
      apply Hdurable. right. reflexivity. }
  split; [|split; [|split; [|split; [exact Hstale|]]]].
  - intros v e w item [-> | ->].
    + rewrite has_expired_pair, Z.ltb_antisym. reflexivity.
    + rewrite has_expired_list, Z.ltb_antisym. reflexivity.
  - intros self key w v0 e0 Hmem Hnow.
    rewrite (get_item_mem_hit clock self key w v0 e0 Hmem).
    destruct (Z.ltb_spec (e0 * usec) (clock (reads w))); [lia | reflexivity].
  - intros self key w v e Hmem Hk Hnow.
    rewrite get_item_mem_miss by exact Hmem.
    rewrite (get_item_durable_entry clock self key w v e Hk).
    destruct (Z.ltb_spec (e * usec) (clock (reads w))); [lia | reflexivity].
  - intros self key value w w1 w2 Hpos Hset Hmem2 Hfile2 Hlate Hmono.
    destruct (set_item_Ok clock _ _ _ _ _ Hset) as (_ & Hmem & d & Hd & Hk).
    assert (Hexp : expiration clock self w * usec <= clock (reads w) + item_lifetime self).
    { unfold expiration. rewrite Z.quot_div_nonneg by (unfold usec; lia).
      rewrite Z.mul_comm. apply Z.mul_div_le. unfold usec. lia. }
    assert (Hentry : file_entry self key w1
                     = Some (PList [to_json value; PInt (expiration clock self w)])).
    { unfold file_entry. rewrite Hd, lookup_insert_eq. exact Hk. }
    apply Hstale.
    + destruct Hmem2 as [Hnone | Hsame]; [left; exact Hnone|].
      right. exists value, (expiration clock self w). split; [|lia].
      rewrite Hsame, Hmem. apply lookup_insert_eq.
    + destruct Hfile2 as [Hgone | Hsame]; [left; exact Hgone|].
      right. exists (to_json value), (expiration clock self w).
      split; [rewrite Hsame; exact Hentry | lia].
Qed.

(** C5.  In a process whose volatile tier is empty, a durable file that
    maps [k] to [[v, expires_at]] with the clock not past [expires_at]
    makes [get_item(k)] answer [v]; nothing but the clock reading changes. *)
Theorem durable_pair_is_served_to_a_fresh_process
    (self : CacheStorage) (key : string) (v : pyval) (e : Z)
    (d : list (string * pyval)) (w : world) :
  mem_cache w = ∅ ->
  disk w !! cache_path self = Some (Parsed (PDict d)) ->
  dict_get d key = Some (PList [v; PInt e]) ->
  clock (reads w) <= e * usec ->
  get_item clock self key w = (Ok v, set_reads (S (reads w)) w).
Proof.
  intros Hmem Hd Hk Hnow.
  rewrite get_item_mem_miss by (rewrite Hmem; apply lookup_empty).
  rewrite (get_item_durable_pair clock self key w d v e Hd Hk).
  destruct (Z.ltb_spec (e * usec) (clock (reads w))); [lia | reflexivity].
Qed.

End CacheClaims.

(** * Properties of the pipeline *)

Section StringFacts.
Import utils pipeline_notions.

Lemma split_space_no_space (s : string) :
  no_space s = true -> split_space s = [s].
Proof.
  induction s as [|c s IH]; [reflexivity|].
  cbn. destruct (Ascii.eqb c " "%char); [discriminate|].
  cbn. intros H. rewrite (IH H). reflexivity.
Qed.

Lemma split_space_field (a rest : string) :
  no_space a = true ->
  split_space (String.append a (String " "%char rest)) = a :: split_space rest.
Proof.
  induction a as [|c a IH]; [reflexivity|].
  intros H. cbn in H.
  change (String.append (String c a) (String " "%char rest))
    with (String c (String.append a (String " "%char rest))).
  change (split_space (String c ?x))
    with (if Ascii.eqb c " "%char then EmptyString :: split_space x
          else match split_space x with
               | field :: fields => String c field :: fields
               | [] => [String c EmptyString]
               end).
  destruct (Ascii.eqb c " "%char); [discriminate|].
  rewrite (IH H). reflexivity.
Qed.

Lemma split_space_command (tool input output : string) :
  no_space tool = true -> no_space input = true -> no_space output = true ->
  split_space
    (String.append tool
       (String.append " -i " (String.append input (String.append " -ab 320k -y " output))))
  = [tool; "-i"; input; "-ab"; "320k"; "-y"; output].
Proof.
  intros Ht Hi Ho.
  change (String.append " -i " ?x) with (String " "%char (String.append "-i" (String " "%char x))).
  rewrite (split_space_field tool) by exact Ht.
  rewrite (split_space_field "-i") by reflexivity.
  change (String.append " -ab 320k -y " output)
    with (String " "%char (String.append "-ab" (String " "%char
            (String.append "320k" (String " "%char (String.append "-y" (String " "%char output))))))).
  rewrite (split_space_field input) by exact Hi.
  rewrite (split_space_field "-ab") by reflexivity.
  rewrite (split_space_field "320k") by reflexivity.
  rewrite (split_space_field "-y") by reflexivity.
  rewrite (split_space_no_space output) by exact Ho.
  reflexivity.
Qed.

Lemma substring_all (s : string) : String.substring 0 (String.length s) s = s.
Proof. induction s as [|c s IH]; [reflexivity|]. cbn. rewrite IH. reflexivity. Qed.

Lemma substring_after (a s : string) :
  String.substring (String.length a) (String.length s) (String.append a s) = s.
Proof. induction a as [|c a IH]; [apply substring_all | exact IH]. Qed.

Lemma length_append (a s : string) :
  String.length (String.append a s) = (String.length a + String.length s)%nat.
Proof.
  induction a as [|c a IH]; [reflexivity|].
  change (String.length (String.append (String c a) s))
    with (S (String.length (String.append a s))).
  rewrite IH. reflexivity.
Qed.

Lemma endswith_append (a suffix : string) : endswith (String.append a suffix) suffix = true.
Proof.
  unfold endswith. cbv zeta. rewrite length_append.
  replace (String.length a + String.length suffix - String.length suffix)%nat
    with (String.length a) by lia.
  rewrite substring_after, String.eqb_refl, andb_true_r.
  apply Nat.leb_le. lia.
Qed.

End StringFacts.

Section FileFacts.
Import system utils main pipeline_notions.

Lemma keeps_files_refl (w : world) : keeps_files w w.
Proof. intros p H. exact H. Qed.

Lemma keeps_files_trans (w1 w2 w3 : world) :
  keeps_files w1 w2 -> keeps_files w2 w3 -> keeps_files w1 w3.
Proof. intros H12 H23 p H. apply H23, H12, H. Qed.

Lemma keeps_files_insert (w : world) (p : string) (f : file) :
  keeps_files w (set_fs (<[p := f]> (fs w)) w).
Proof.
  intros q H. cbn. rewrite lookup_insert. case_decide; [eauto | exact H].
Qed.

Lemma write_all_keeps (written : list (string * file)) (m : gmap string file) (p : string) :
  is_Some (m !! p) -> is_Some (write_all written m !! p).
Proof.
  unfold write_all. revert m.
  induction written as [|[q f] written IH]; intros m H; [exact H|].
  cbn. apply IH. rewrite lookup_insert. case_decide; [eauto | exact H].
Qed.

Lemma removes_nothing_ret {A} (a : A) : removes_nothing (ret a).
Proof. intros w r w' [= <- <-]. apply keeps_files_refl. Qed.

Lemma removes_nothing_raise {A} (e : exn) : removes_nothing (@raise world A e).
Proof. intros w r w' [= <- <-]. apply keeps_files_refl. Qed.

Lemma removes_nothing_lift {A} (o : outcome A) : removes_nothing (lift o).
Proof. intros w r w' [= <- <-]. apply keeps_files_refl. Qed.

Lemma removes_nothing_logger (level message : string) :
  removes_nothing (@logger world level message).
Proof. apply removes_nothing_ret. Qed.

Lemma removes_nothing_bind {A B} (c : M world A) (k : A -> M world B) :
  removes_nothing c -> (forall a, removes_nothing (k a)) -> removes_nothing (bind c k).
Proof.
  intros Hc Hk w r w'. unfold bind.
  destruct (c w) as [[a|e] w1] eqn:Hcw.
  - intros H. eapply keeps_files_trans; [eapply Hc, Hcw | eapply Hk, H].
  - intros [= <- <-]. eapply Hc, Hcw.
Qed.

Lemma removes_nothing_try_except {A} (c : M world A) (h : exn -> option (M world A)) :
  removes_nothing c ->
  (forall e k, h e = Some k -> removes_nothing k) ->
  removes_nothing (try_except c h).
Proof.
  intros Hc Hh w r w'. unfold try_except.
  destruct (c w) as [[a|e] w1] eqn:Hcw.
  - intros [= <- <-]. eapply Hc, Hcw.
  - destruct (h e) as [k|] eqn:Hhe.
    + intros H. eapply keeps_files_trans; [eapply Hc, Hcw | eapply Hh; eauto].
    + intros [= <- <-]. eapply Hc, Hcw.
Qed.

Lemma removes_nothing_isfile (p : string) : removes_nothing (isfile p).
Proof. intros w r w' [= <- <-]. apply keeps_files_refl. Qed.

Lemma removes_nothing_stream_download (stream : list Byte.byte * option exn) (p : string) :
  removes_nothing (stream_download stream p).
Proof.
  intros w r w'. unfold stream_download.
  destruct (snd stream); intros [= <- <-]; apply keeps_files_insert.
Qed.

Lemma removes_nothing_subprocess_run (E : env) (argv : list string) :
  removes_nothing (subprocess_run E argv).
Proof.
  intros w r w'. unfold subprocess_run.
  destruct (run_process E argv (fs w)) as [e|rc written]; intros [= <- <-].
  - intros p H. exact H.
  - intros p H. cbn. apply write_all_keeps, H.
Qed.

Lemma removes_nothing_images_set (E : env) (frame : eyed3.ImageFrame) (tag : eyed3.Tag) :
  removes_nothing (images_set E frame tag).
Proof.
  unfold images_set. destruct (image_refused E _);
    [apply removes_nothing_raise | apply removes_nothing_ret].
Qed.

Lemma removes_nothing_tag_save (E : env) (tag : eyed3.Tag) (p : string) :
  removes_nothing (tag_save E tag p).
Proof.
  intros w r w'. unfold tag_save.
  destruct (save_fault E p); [intros [= <- <-]; apply keeps_files_refl|].
  destruct (fs w !! p); intros [= <- <-];
    [apply keeps_files_insert | apply keeps_files_refl].
Qed.

Lemma removes_nothing_download_youtube_video (E : env) (video_id filepath : string) :
  removes_nothing (download_youtube_video E video_id filepath).
Proof.
  unfold download_youtube_video.
  apply removes_nothing_bind; [apply removes_nothing_isfile|]. intros is_file.
  destruct (negb is_file); [apply removes_nothing_raise|].
  apply removes_nothing_bind.
  - apply removes_nothing_try_except.
    + apply removes_nothing_bind; [apply removes_nothing_lift|].
      intros [stream|]; [apply removes_nothing_ret | apply removes_nothing_raise].
    + intros e k. destruct e; try discriminate. intros [= <-].
      apply removes_nothing_bind; [apply removes_nothing_logger|].
      intros _. apply removes_nothing_raise.
  - intros stream. apply removes_nothing_bind; [apply removes_nothing_logger|].
    intros _. apply removes_nothing_stream_download.
Qed.

Lemma removes_nothing_convert_mp4_to_mp3 (S : settings.t) (E : env) (mp4 mp3 : string) :
  removes_nothing (convert_mp4_to_mp3 S E mp4 mp3).
Proof.
  unfold convert_mp4_to_mp3.
  apply removes_nothing_bind; [apply removes_nothing_isfile|]. intros b4.
  destruct (_ || _); [apply removes_nothing_raise|].
  apply removes_nothing_bind; [apply removes_nothing_isfile|]. intros b3.
  destruct (_ || _); [apply removes_nothing_raise|].
  apply removes_nothing_bind; [apply removes_nothing_subprocess_run|]. intros rc.
  destruct (negb _); [apply removes_nothing_raise | apply removes_nothing_logger].
Qed.

Lemma removes_nothing_try_block (S : settings.t) (E : env) (video_id : string)
    (metadata : TrackMetadata.t) (mp4 mp3 : string) :
  removes_nothing (try_block S E video_id metadata mp4 mp3).
Proof.
  unfold try_block.
  apply removes_nothing_bind; [apply removes_nothing_download_youtube_video|]. intros _.
  apply removes_nothing_bind; [apply removes_nothing_convert_mp4_to_mp3|]. intros _.
  apply removes_nothing_bind; [apply removes_nothing_lift|]. intros response.
  apply removes_nothing_bind.
  { destruct (negb _); [apply removes_nothing_logger | apply removes_nothing_ret]. }
  intros _.
  apply removes_nothing_bind; [apply removes_nothing_images_set|]. intros tag.
  apply removes_nothing_bind; [apply removes_nothing_tag_save|]. intros _.
  apply removes_nothing_ret.
Qed.

(** What a successful allocation tells: the name was free, is one of the
    candidates with the suffix appended, and now names an empty file. *)
Lemma mkstemp_Ok (E : env) (attempts : nat) (suffix : string) (w w' : world) (p : string) :
  mkstemp E attempts suffix w = (Ok p, w') ->
  fs w !! p = None /\
  fs w' = <[p := empty_file]> (fs w) /\
  spawned w' = spawned w /\
  exists i, p = String.append (tmp_name E i) suffix.
Proof.
  revert w. induction attempts as [|n IH]; intros w; [discriminate|].
  cbn [mkstemp].
  destruct (fs w !! String.append (tmp_name E (names_drawn w)) suffix) eqn:Hfree.
  - intros H. apply IH in H. exact H.
  - intros [= <- <-]. cbn. eauto.
Qed.

Lemma NamedTemporaryFile_Ok (E : env) (suffix : string) (w w' : world) (p : string) :
  NamedTemporaryFile E suffix w = (Ok p, w') ->
  fs w !! p = None /\
  fs w' = <[p := empty_file]> (fs w) /\
  spawned w' = spawned w /\
  exists i, p = String.append (tmp_name E i) suffix.
Proof. unfold NamedTemporaryFile. apply mkstemp_Ok. Qed.

Lemma remove_tmp_files_Ok (mp4 mp3 : string) (w : world) :
  mp4 <> mp3 -> is_Some (fs w !! mp4) -> is_Some (fs w !! mp3) ->
  remove_tmp_files mp4 mp3 w = (Ok tt, set_fs (delete mp3 (delete mp4 (fs w))) w).
Proof.
  intros Hne [f4 H4] [f3 H3]. unfold remove_tmp_files, bind, remove.
  rewrite H4. cbn. rewrite lookup_delete_ne by exact Hne. rewrite H3. reflexivity.
Qed.

Lemma except_block_removes (mp4 mp3 : string) (e : exn) (w : world) :
  mp4 <> mp3 -> is_Some (fs w !! mp4) -> is_Some (fs w !! mp3) ->
  except_block mp4 mp3 e w = (Raise e, set_fs (delete mp3 (delete mp4 (fs w))) w).
Proof.
  intros Hne H4 H3. unfold except_block, bind, logger, ret.
  rewrite (remove_tmp_files_Ok mp4 mp3 w Hne H4 H3). reflexivity.
Qed.

End FileFacts.

Section EndpointFacts.
Import system utils main pipeline_notions.
Variable S : settings.t.
Variable E : env.

Lemma allocated_placeholders (w w1 w2 : world) (mp4 mp3 : string) :
  NamedTemporaryFile E ".mp4" w = (Ok mp4, w1) ->
  NamedTemporaryFile E ".mp3" w1 = (Ok mp3, w2) ->
  mp4 <> mp3 /\
  fs w !! mp4 = None /\ fs w !! mp3 = None /\
  fs w2 = <[mp3 := empty_file]> (<[mp4 := empty_file]> (fs w)) /\
  endswith mp4 ".mp4" = true /\ endswith mp3 ".mp3" = true.
Proof.
  intros H4 H3.
  apply NamedTemporaryFile_Ok in H4 as (Hfree4 & Hfs1 & _ & i4 & ->).
  apply NamedTemporaryFile_Ok in H3 as (Hfree3 & Hfs2 & _ & i3 & ->).
  rewrite Hfs1 in Hfree3.
  assert (Hne : String.append (tmp_name E i4) ".mp4" <> String.append (tmp_name E i3) ".mp3").
  { intros Heq. rewrite <- Heq, lookup_insert_eq in Hfree3. discriminate. }
  repeat split; try assumption.
  - rewrite lookup_insert_ne in Hfree3 by exact Hne. exact Hfree3.
  - rewrite Hfs2, Hfs1. reflexivity.
  - apply endswith_append.
  - apply endswith_append.
Qed.

Lemma endpoint_allocated (video_id title artist album album_cover_url : string)
    (w w1 w2 : world) (mp4 mp3 : string) :
  settings.MOCK_MODE S = false ->
  NamedTemporaryFile E ".mp4" w = (Ok mp4, w1) ->
  NamedTemporaryFile E ".mp3" w1 = (Ok mp3, w2) ->
  download_video_as_mp3 S E video_id title artist album album_cover_url w
  = try_except
      (try_block S E (url_decode E video_id)
         (decoded E title artist album album_cover_url) mp4 mp3)
      (on_Exception (except_block mp4 mp3)) w2.
Proof.
  intros Hmock H4 H3. unfold download_video_as_mp3. rewrite Hmock.
  unfold bind at 1. rewrite H4. unfold bind at 1. rewrite H3. reflexivity.
Qed.

Lemma endpoint_reraises (video_id title artist album album_cover_url : string)
    (w w1 w2 w3 : world) (mp4 mp3 : string) (e : exn) :
  settings.MOCK_MODE S = false ->
  NamedTemporaryFile E ".mp4" w = (Ok mp4, w1) ->
  NamedTemporaryFile E ".mp3" w1 = (Ok mp3, w2) ->
  try_block S E (url_decode E video_id)
    (decoded E title artist album album_cover_url) mp4 mp3 w2 = (Raise e, w3) ->
  download_video_as_mp3 S E video_id title artist album album_cover_url w
  = (Raise e, set_fs (delete mp3 (delete mp4 (fs w3))) w3).
Proof.
  intros Hmock H4 H3 Htry.
  rewrite (endpoint_allocated _ _ _ _ _ w w1 w2 mp4 mp3 Hmock H4 H3).
  destruct (allocated_placeholders w w1 w2 mp4 mp3 H4 H3) as (Hne & _ & _ & Hfs & _).
  pose proof (removes_nothing_try_block S E _ _ mp4 mp3 _ _ _ Htry) as Hkeep.
  unfold try_except. rewrite Htry. cbn.
  apply except_block_removes; [exact Hne | |]; apply Hkeep; rewrite Hfs.
  - rewrite lookup_insert_ne by (intros Heq; apply Hne; symmetry; exact Heq).
    rewrite lookup_insert_eq. eauto.
  - rewrite lookup_insert_eq. eauto.
Qed.

Lemma except_block_raises (mp4 mp3 : string) (e : exn) (w : world) :
  exists e' w', except_block mp4 mp3 e w = (Raise e', w').
Proof.
  unfold except_block, bind, logger, ret, raise.
  destruct (remove_tmp_files mp4 mp3 w) as [[[]|e0] w0]; eauto.
Qed.

(** A response comes only out of a [try] block that ran to its end. *)
Lemma try_block_Ok (video_id : string) (metadata : TrackMetadata.t) (mp4 mp3 : string)
    (w w' : world) (r : FileResponse) :
  try_block S E video_id metadata mp4 mp3 w = (Ok r, w') ->
  r = {| path := mp3; media_type := Some "audio/mpeg";
         background := Some (remove_tmp_files_task mp4 mp3) |} /\
  exists response f,
    http_get E (TrackMetadata.album_cover_url metadata) = Ok response /\
    fs w' !! mp3 = Some f /\
    id3 f = Some (built_tag (TrackMetadata.title metadata) (TrackMetadata.artist metadata)
                    (TrackMetadata.album metadata) (httpx.content response)).
Proof.
  unfold try_block, bind.
  destruct (download_youtube_video E video_id mp4 w) as [[[]|e1] w1]; [|discriminate].
  destruct (convert_mp4_to_mp3 S E mp4 mp3 w1) as [[[]|e2] w2]; [|discriminate].
  unfold lift.
  destruct (http_get E (TrackMetadata.album_cover_url metadata)) as [response|e3];
    [|discriminate].
  assert (Hlog : (if negb (in_range_200_300 (httpx.status_code response))
                  then logger "error" "Could not fetch album cover. HTTP code: "
                  else ret tt) w2 = (Ok tt, w2)).
  { destruct (negb _); reflexivity. }
  rewrite Hlog. unfold images_set. cbn [eyed3.image_data].
  destruct (image_refused E (httpx.content response)); [discriminate|].
  unfold ret at 1. unfold tag_save.
  destruct (save_fault E mp3); [discriminate|].
  destruct (fs w2 !! mp3) as [f|]; [|discriminate].
  intros [= <- <-]. split; [reflexivity|].
  exists response. eexists. split; [reflexivity|].
  cbn. rewrite lookup_insert_eq. split; reflexivity.
Qed.

Lemma try_block_runs (video_id : string) (metadata : TrackMetadata.t) (mp4 mp3 : string)
    (w w1 w2 : world) (response : httpx.Response) :
  is_Some (fs w !! mp3) ->
  download_youtube_video E video_id mp4 w = (Ok tt, w1) ->
  convert_mp4_to_mp3 S E mp4 mp3 w1 = (Ok tt, w2) ->
  http_get E (TrackMetadata.album_cover_url metadata) = Ok response ->
  image_refused E (httpx.content response) = None ->
  save_fault E mp3 = None ->
  exists f,
    fs w2 !! mp3 = Some f /\
    try_block S E video_id metadata mp4 mp3 w
    = (Ok {| path := mp3; media_type := Some "audio/mpeg";
             background := Some (remove_tmp_files_task mp4 mp3) |},
       set_fs (<[mp3 := {| data := data f;
                           id3 := Some (built_tag (TrackMetadata.title metadata)
                                          (TrackMetadata.artist metadata)
                                          (TrackMetadata.album metadata)
                                          (httpx.content response)) |}]> (fs w2)) w2).
Proof.
  intros Hmp3 Hdl Hcv Hget Himg Hsave.
  assert (Hf : is_Some (fs w2 !! mp3)).
  { eapply removes_nothing_convert_mp4_to_mp3; [exact Hcv|].
    eapply removes_nothing_download_youtube_video; [exact Hdl|]. exact Hmp3. }
  destruct Hf as [f Hf]. exists f. split; [exact Hf|].
  unfold try_block, bind. rewrite Hdl, Hcv. unfold lift. rewrite Hget.
  assert (Hlog : (if negb (in_range_200_300 (httpx.status_code response))
                  then logger "error" "Could not fetch album cover. HTTP code: "
                  else ret tt) w2 = (Ok tt, w2)).
  { destruct (negb _); reflexivity. }
  rewrite Hlog. unfold images_set. cbn [eyed3.image_data]. rewrite Himg.
  unfold ret at 1. unfold tag_save. rewrite Hsave, Hf. reflexivity.
Qed.

Lemma mkstemp_with_status (code : Z) (attempts : nat) (suffix : string) (w : world) :
  mkstemp (with_status code E) attempts suffix w = mkstemp E attempts suffix w.
Proof.
  revert w. induction attempts as [|n IH]; intros w; [reflexivity|].
  cbn [mkstemp]. change (tmp_name (with_status code E)) with (tmp_name E).
  destruct (fs w !! _); [apply IH | reflexivity].
Qed.

Lemma try_block_with_status (code : Z) (video_id : string) (metadata : TrackMetadata.t)
    (mp4 mp3 : string) (w : world) :
  try_block S (with_status code E) video_id metadata mp4 mp3 w
  = try_block S E video_id metadata mp4 mp3 w.
Proof.
  unfold try_block, bind.
  change (download_youtube_video (with_status code E)) with (download_youtube_video E).
  destruct (download_youtube_video E video_id mp4 w) as [[[]|e1] w1]; [|reflexivity].
  change (convert_mp4_to_mp3 S (with_status code E)) with (convert_mp4_to_mp3 S E).
  destruct (convert_mp4_to_mp3 S E mp4 mp3 w1) as [[[]|e2] w2]; [|reflexivity].
  unfold lift. cbn [http_get with_status].
  destruct (http_get E (TrackMetadata.album_cover_url metadata)) as [response|e3];
    [|reflexivity].
  cbn [httpx.status_code httpx.content].
  destruct (negb (in_range_200_300 code)), (negb (in_range_200_300 (httpx.status_code response)));
    reflexivity.
Qed.

End EndpointFacts.
Section EndpointInversion.
Import system utils main pipeline_notions.
Variable S : settings.t.
Variable E : env.

Lemma endpoint_Ok_inv (video_id title artist album album_cover_url : string)
    (w w' : world) (r : FileResponse) :
  settings.MOCK_MODE S = false ->
  download_video_as_mp3 S E video_id title artist album album_cover_url w = (Ok r, w') ->
  exists mp4 w1 mp3 w2,
    NamedTemporaryFile E ".mp4" w = (Ok mp4, w1) /\
    NamedTemporaryFile E ".mp3" w1 = (Ok mp3, w2) /\
    try_block S E (url_decode E video_id)
      (decoded E title artist album album_cover_url) mp4 mp3 w2 = (Ok r, w').
Proof.
  intros Hmock. unfold download_video_as_mp3. rewrite Hmock.
  fold (decoded E title artist album album_cover_url).
  remember (NamedTemporaryFile E) as allocate eqn:Hallocate.
  intros Hrun.
  unfold bind at 1 in Hrun.
  destruct (allocate ".mp4" w) as [[mp4|e4] w1] eqn:H4; [|discriminate].
  unfold bind at 1 in Hrun.
  destruct (allocate ".mp3" w1) as [[mp3|e3] w2] eqn:H3; [|discriminate].
  unfold try_except in Hrun.
  destruct (try_block S E _ _ mp4 mp3 w2) as [[r0|e] w3] eqn:Htry.
  - injection Hrun as <- <-. exists mp4, w1, mp3, w2. 
    split; [reflexivity|]. split; [exact H3 | exact Htry].
  - unfold on_Exception in Hrun.
    destruct (except_block_raises mp4 mp3 e w3) as (e' & w'' & Hex).
    rewrite Hex in Hrun. discriminate.
Qed.
End EndpointInversion.

(** * The claims about the pipeline *)

Section PipelineClaims.
Import system utils main pipeline_notions.
Variable S : settings.t.
Variable E : env.

(** C3.  Outside mock mode, once the two placeholders are allocated, an
    exception raised anywhere in the [try] block (download, transcode,
    cover fetch, tagging, saving) reaches the caller unchanged, and in the
    world it reaches the caller in, both placeholders have been removed:
    neither the raw [.mp4] nor the encoded [.mp3] is a file any more, and
    nothing else has been removed. *)
Theorem failed_acquisition_removes_both_placeholders
    (video_id title artist album album_cover_url : string)
    (w w1 w2 w3 : world) (mp4 mp3 : string) (e : exn) :
  settings.MOCK_MODE S = false ->
  NamedTemporaryFile E ".mp4" w = (Ok mp4, w1) ->
  NamedTemporaryFile E ".mp3" w1 = (Ok mp3, w2) ->
  try_block S E (url_decode E video_id)
    (decoded E title artist album album_cover_url) mp4 mp3 w2 = (Raise e, w3) ->
  exists w',
    download_video_as_mp3 S E video_id title artist album album_cover_url w = (Raise e, w') /\
    fs w' !! mp4 = None /\
    fs w' !! mp3 = None /\
    forall p, p <> mp4 -> p <> mp3 -> fs w' !! p = fs w3 !! p.
Proof.
  intros Hmock H4 H3 Htry.
  exists (set_fs (delete mp3 (delete mp4 (fs w3))) w3).
  split; [eapply endpoint_reraises; eassumption|].
  destruct (allocated_placeholders E w w1 w2 mp4 mp3 H4 H3) as (Hne & _).
  cbn. repeat split.
  - rewrite lookup_delete_ne by (intros Heq; apply Hne; symmetry; exact Heq).
    apply lookup_delete_eq.
  - apply lookup_delete_eq.
  - intros p Hp4 Hp3.
    rewrite lookup_delete_ne by (intros Heq; apply Hp3; symmetry; exact Heq).
    rewrite lookup_delete_ne by (intros Heq; apply Hp4; symmetry; exact Heq).
    reflexivity.
Qed.

(** C6.  When the hosting service has no resource for the identifier
    (the lookup raises [VideoUnavailable] or yields no audio stream) and the
    destination is an existing file, [download_youtube_video] raises
    [HTTPException] with status 404 and the identifier in its detail,
    leaving the files as they were; and the endpoint hands that very
    exception, for the decoded identifier, to its caller, with no file
    left over. *)
Theorem unavailable_video_is_reported_as_404 (video_id : string) :
  (youtube E video_id = Ok None \/
   exists other, youtube E video_id = Raise (VideoUnavailable other)) ->
  (forall (filepath : string) (w : world),
      is_Some (fs w !! filepath) ->
      download_youtube_video E video_id filepath w
      = (Raise (HTTPException 404 (String.append "No video found with ID " video_id)), w)) /\
  (forall (raw title artist album album_cover_url : string)
          (w w1 w2 : world) (mp4 mp3 : string),
      url_decode E raw = video_id ->
      settings.MOCK_MODE S = false ->
      NamedTemporaryFile E ".mp4" w = (Ok mp4, w1) ->
      NamedTemporaryFile E ".mp3" w1 = (Ok mp3, w2) ->
      exists w',
        download_video_as_mp3 S E raw title artist album album_cover_url w
        = (Raise (HTTPException 404 (String.append "No video found with ID " video_id)), w') /\
        fs w' = fs w).
Proof.
  intros Hmissing.
  assert (Hstep : forall (filepath : string) (w : world),
      is_Some (fs w !! filepath) ->
      download_youtube_video E video_id filepath w
      = (Raise (HTTPException 404 (String.append "No video found with ID " video_id)), w)).
  { intros filepath w Hfile.
    unfold download_youtube_video, bind at 1, isfile, gets.
    rewrite bool_decide_eq_true_2 by exact Hfile. cbn [negb].
    unfold bind at 1, try_except, bind at 1, lift.
    destruct Hmissing as [-> | [other ->]]; reflexivity. }
  split; [exact Hstep|].
  intros raw title artist album album_cover_url w w1 w2 mp4 mp3 Hid Hmock H4 H3.
  destruct (allocated_placeholders E w w1 w2 mp4 mp3 H4 H3)
    as (Hne & Hfree4 & Hfree3 & Hfs & _).
  assert (H4w2 : is_Some (fs w2 !! mp4)).
  { rewrite Hfs, lookup_insert_ne by (intros Heq; apply Hne; symmetry; exact Heq).
    rewrite lookup_insert_eq. eauto. }
  eexists. split.
  - eapply endpoint_reraises; [exact Hmock | exact H4 | exact H3 |].
    unfold try_block, bind at 1. rewrite Hid, (Hstep mp4 w2 H4w2). reflexivity.
  - cbn. rewrite Hfs. apply map_eq. intros p.
    destruct (decide (p = mp3)) as [-> | Hp3].
    + rewrite lookup_delete_eq. symmetry. exact Hfree3.
    + rewrite lookup_delete_ne by congruence.
      destruct (decide (p = mp4)) as [-> | Hp4].
      * rewrite lookup_delete_eq. symmetry. exact Hfree4.
      * rewrite lookup_delete_ne by congruence.
        rewrite !lookup_insert_ne by congruence. reflexivity.
Qed.

(** C7, as amended.  When the tool path and the two file paths contain no
    space, and the two files exist with the extensions [.mp4] and [.mp3],
    [convert_mp4_to_mp3] starts exactly one process, with the argument
    vector [tool -i input -ab 320k -y output]; it returns when that
    process exits with 0 and raises [Exception('Could not convert mp4 to
    mp3.')] when it exits with any other code. *)
Theorem convert_runs_the_encoder_once (mp4 mp3 : string) (w : world) :
  no_space (settings.FFMPEG_PATH S) = true ->
  no_space mp4 = true ->
  no_space mp3 = true ->
  endswith mp4 ".mp4" = true ->
  endswith mp3 ".mp3" = true ->
  is_Some (fs w !! mp4) ->
  is_Some (fs w !! mp3) ->
  exists r w',
    convert_mp4_to_mp3 S E mp4 mp3 w = (r, w') /\
    spawned w' = (spawned w ++ [encoder_argv S mp4 mp3])%list /\
    match run_process E (encoder_argv S mp4 mp3) (fs w) with
    | Exited returncode written =>
        r = (if returncode =? 0 then Ok tt
             else Raise (Exception "Could not convert mp4 to mp3.")) /\
        fs w' = write_all written (fs w)
    | SpawnFailed e => r = Raise e /\ fs w' = fs w
    end.
Proof.
  intros Htool Hin Hout Hext4 Hext3 Hfile4 Hfile3.
  unfold convert_mp4_to_mp3, bind at 1, isfile, gets.
  rewrite bool_decide_eq_true_2 by exact Hfile4. rewrite Hext4. cbn [negb orb].
  unfold bind at 1. rewrite bool_decide_eq_true_2 by exact Hfile3.
  rewrite Hext3. cbn [negb orb].
  rewrite split_space_command by assumption.
  fold (encoder_argv S mp4 mp3).
  unfold bind, subprocess_run.
  destruct (run_process E (encoder_argv S mp4 mp3) (fs w)) as [e|rc written].
  - do 2 eexists. split; [reflexivity|]. cbn. repeat split.
  - destruct (rc =? 0) eqn:Hrc; cbn [negb];
      do 2 eexists; (split; [reflexivity|]); cbn; repeat split.
Qed.

(** C9.  Outside mock mode, a response the endpoint returns names a file
    whose saved tag has the decoded title, artist and album of the request
    and exactly one lyrics frame, with empty text and description; and the
    endpoint does return one when the download and the transcode steps
    succeed, the cover request is answered, [eyed3] takes the image and the
    tag can be saved. *)
Theorem returned_file_carries_the_requested_tags
    (video_id title artist album album_cover_url : string) (w : world) :
  settings.MOCK_MODE S = false ->
  (forall (r : FileResponse) (w' : world),
      download_video_as_mp3 S E video_id title artist album album_cover_url w = (Ok r, w') ->
      exists f tag,
        fs w' !! path r = Some f /\ id3 f = Some tag /\
        eyed3.title tag = Some (url_decode E title) /\
        eyed3.artist tag = Some (url_decode E artist) /\
        eyed3.album tag = Some (url_decode E album) /\
        eyed3.lyrics tag = [{| eyed3.text := ""; eyed3.lyrics_description := "";
                               eyed3.lang := [Byte.x20; Byte.x20; Byte.x20] |}]) /\
  (forall (w1 w2 w3 w4 : world) (mp4 mp3 : string) (response : httpx.Response),
      NamedTemporaryFile E ".mp4" w = (Ok mp4, w1) ->
      NamedTemporaryFile E ".mp3" w1 = (Ok mp3, w2) ->
      download_youtube_video E (url_decode E video_id) mp4 w2 = (Ok tt, w3) ->
      convert_mp4_to_mp3 S E mp4 mp3 w3 = (Ok tt, w4) ->
      http_get E (url_decode E album_cover_url) = Ok response ->
      image_refused E (httpx.content response) = None ->
      save_fault E mp3 = None ->
      exists w',
        download_video_as_mp3 S E video_id title artist album album_cover_url w
        = (Ok {| path := mp3; media_type := Some "audio/mpeg";
                 background := Some (remove_tmp_files_task mp4 mp3) |}, w')).
Proof.
  intros Hmock. split.
  - intros r w' Hrun.
    destruct (endpoint_Ok_inv S E _ _ _ _ _ _ _ _ Hmock Hrun)
      as (mp4 & w1 & mp3 & w2 & _ & _ & Htry).
    apply try_block_Ok in Htry as (-> & response & f & _ & Hf & Htag).
    exists f, (built_tag (url_decode E title) (url_decode E artist) (url_decode E album)
                 (httpx.content response)).
    split; [exact Hf|]. split; [exact Htag|]. repeat split.
  - intros w1 w2 w3 w4 mp4 mp3 response H4 H3 Hdl Hcv Hget Himg Hsave.
    destruct (allocated_placeholders E w w1 w2 mp4 mp3 H4 H3) as (_ & _ & _ & Hfs & _).
    assert (H3w2 : is_Some (fs w2 !! mp3)) by (rewrite Hfs, lookup_insert_eq; eauto).
    destruct (try_block_runs S E (url_decode E video_id)
                (decoded E title artist album album_cover_url) mp4 mp3 w2 w3 w4 response
                H3w2 Hdl Hcv Hget Himg Hsave) as (f & _ & Htry).
    eexists.
    rewrite (endpoint_allocated S E _ _ _ _ _ w w1 w2 mp4 mp3 Hmock H4 H3).
    unfold try_except. rewrite Htry. reflexivity.
Qed.

(** C10.  The status code of the cover response has no influence on what
    the endpoint does: changing it in every response changes neither the
    outcome nor the resulting world.  And whenever the endpoint returns a
    file outside mock mode, the cover request was answered and the saved
    tag has exactly one image: a front cover, typed [image/jpeg], whose
    data are the bytes of that response's body. *)
Theorem cover_is_embedded_whatever_the_status
    (video_id title artist album album_cover_url : string) (w : world) :
  (forall code : Z,
      download_video_as_mp3 S (with_status code E) video_id title artist album
        album_cover_url w
      = download_video_as_mp3 S E video_id title artist album album_cover_url w) /\
  (forall (r : FileResponse) (w' : world),
      settings.MOCK_MODE S = false ->
      download_video_as_mp3 S E video_id title artist album album_cover_url w = (Ok r, w') ->
      exists response f tag,
        http_get E (url_decode E album_cover_url) = Ok response /\
        fs w' !! path r = Some f /\ id3 f = Some tag /\
        eyed3.images tag
        = [{| eyed3.picture_type := eyed3.FRONT_COVER;
              eyed3.image_data := httpx.content response;
              eyed3.mime_type := "image/jpeg";
              eyed3.image_description := String.append (url_decode E album) " Front Cover" |}]).
Proof.
  split.
  - intros code. unfold download_video_as_mp3.
    destruct (settings.MOCK_MODE S); [reflexivity|].
    change (url_decode (with_status code E)) with (url_decode E).
    unfold NamedTemporaryFile.
    change (TMP_MAX (with_status code E)) with (TMP_MAX E).
    unfold bind at 1. rewrite mkstemp_with_status.
    unfold bind at 2.
    destruct (mkstemp E (TMP_MAX E) ".mp4" w) as [[mp4|e4] w1]; [|reflexivity].
    unfold bind at 1. rewrite mkstemp_with_status.
    unfold bind at 1.
    destruct (mkstemp E (TMP_MAX E) ".mp3" w1) as [[mp3|e3] w2]; [|reflexivity].
    unfold try_except. rewrite try_block_with_status. reflexivity.
  - intros r w' Hmock Hrun.
    destruct (endpoint_Ok_inv S E _ _ _ _ _ _ _ _ Hmock Hrun)
      as (mp4 & w1 & mp3 & w2 & _ & _ & Htry).
    apply try_block_Ok in Htry as (-> & response & f & Hget & Hf & Htag).
    exists response, f. eexists.
    split; [exact Hget|]. split; [exact Hf|]. split; [exact Htag|]. reflexivity.
Qed.

End PipelineClaims.

(** * The claim about the metadata search *)

Section SearchClaims.
Import cache_storage utils.
Variable S : settings.t.
Variable V : services.

(** C8 (corrected).  Once the cache has given no answer and a token has
    been obtained, a search response whose status is outside 200..299, or
    whose body is JSON that pydantic rejects, makes
    [search_track_metadata_options] return the empty list; nothing is
    raised and nothing is written.  A response with a status in 200..299
    whose body cannot be decoded is not treated so: the exception of
    [response.json()] reaches the caller, only [ValidationError] being
    caught. *)
Theorem rejected_search_response_gives_no_results
    (partial_metadata : PartialTrackMetadata.t) (cache : option CacheStorage)
    (w w1 w2 : world) (token : string) (response : httpx.Response) :
  cached_metadata_options V cache (cache_key_of V partial_metadata) w = (Ok None, w1) ->
  get_spotify_api_token S V cache w1 = (Ok (Some token), w2) ->
  get V (search_url S V partial_metadata) (String.append "Bearer " token) = Ok response ->
  (in_range_200_300 (httpx.status_code response) = false \/
   (exists body, httpx.json response = Ok body /\ validate_search_response V body = None) ->
   search_track_metadata_options S V partial_metadata cache w = (Ok [], w2)) /\
  (forall e,
      in_range_200_300 (httpx.status_code response) = true ->
      httpx.json response = Raise e ->
      e <> ValidationError ->
      search_track_metadata_options S V partial_metadata cache w = (Raise e, w2)).
Proof.
  intros Hcached Htoken Hget.
  split.
  - intros Hbad.
    unfold search_track_metadata_options. cbv zeta.
    unfold bind at 1. rewrite Hcached.
    unfold bind at 1. rewrite Htoken.
    unfold bind at 1, lift. rewrite Hget.
    unfold bind at 1, logger at 1, ret at 1.
    destruct (in_range_200_300 (httpx.status_code response)) eqn:Hstatus; cbn [negb].
    + destruct Hbad as [Hbad | (body & Hjson & Hreject)]; [discriminate|].
      unfold bind at 1, try_except, bind at 1, lift.
      rewrite Hjson, Hreject. reflexivity.
    + reflexivity.
  - intros e Hstatus Hjson He.
    unfold search_track_metadata_options. cbv zeta.
    unfold bind at 1. rewrite Hcached.
    unfold bind at 1. rewrite Htoken.
    unfold bind at 1, lift. rewrite Hget.
    unfold bind at 1, logger at 1, ret at 1.
    rewrite Hstatus. cbn [negb].
    unfold bind at 1, try_except, bind at 1, lift.
    rewrite Hjson.
    destruct e; try reflexivity. contradiction.
Qed.

End SearchClaims.

(** * The cache claims on concrete runs *)

Section CacheRuns.
Import cache_storage notions examples.

(** With a clock that advances one second per reading, the [get_item]
    that follows [set_item("q1", ["a", "b"])] returns the pair. *)
Lemma set_item_then_get_item_returns_the_pair_witness :
  get_item (ticking usec) ten_seconds "q1" (after_set usec)
  = (Ok (PTuple [q1_value; PInt 1700000010]), set_reads 2 (after_set usec))
  /\ PTuple [q1_value; PInt 1700000010] <> q1_value.
Proof.
  apply (set_item_then_get_item_returns_the_pair
           (ticking usec) ten_seconds "q1" q1_value (started ∅) (after_set usec)).
  - vm_compute. reflexivity.
  - vm_compute. discriminate.
Defined.

(** The expiration is cut to whole seconds, so a pair written 0.9 s into
    a second is gone 9.6 s later, before its ten seconds have passed. *)
Lemma pair_expires_within_its_lifetime :
  off_the_second 1 - off_the_second 0 < item_lifetime ten_seconds /\
  fst (get_item off_the_second ten_seconds "q1"
         (snd (set_item off_the_second ten_seconds "q1" q1_value (started ∅))))
  = Ok PNone.
Proof. split; vm_compute; reflexivity. Qed.

(** C2, as stated, fails: a file that is valid JSON but maps the key to a
    number makes [get_item] raise [TypeError]; a file holding a JSON list
    makes it raise [AttributeError]; and a [set_item] on a JSON object
    with another key keeps that key next to the new one. *)
Lemma get_item_raises_on_a_stray_entry :
  fst (get_item (ticking usec) ten_seconds "k"
         (started {[ "cache.json" := Parsed (PDict [("k", PInt 5)]) ]}))
  = Raise TypeError /\
  fst (get_item (ticking usec) ten_seconds "k"
         (started {[ "cache.json" := Parsed (PList []) ]}))
  = Raise AttributeError /\
  disk (snd (set_item (ticking usec) ten_seconds "k" (PStr "v")
               (started {[ "cache.json" := Parsed (PDict [("other", PInt 5)]) ]})))
    !! "cache.json"
  = Some (Parsed (PDict [("other", PInt 5); ("k", PList [PStr "v"; PInt 1700000010])])).
Proof. repeat split; vm_compute; reflexivity. Qed.

Lemma unreadable_file_degrades_to_a_miss_witness :
  exists r w1,
    get_item (ticking usec) ten_seconds "q1" (started {[ "cache.json" := Unparseable ]})
    = (Ok r, w1) /\
    (r = PNone \/ mem_cache (started {[ "cache.json" := Unparseable ]}) !! "q1" = Some r) /\
    disk w1 = disk (started {[ "cache.json" := Unparseable ]}) /\
    exists w2,
      set_item (ticking usec) ten_seconds "q1" q1_value w1 = (Ok tt, w2) /\
      disk w2 !! cache_path ten_seconds
      = Some (Parsed (PDict [("q1", PList [to_json q1_value;
                                           PInt (expiration (ticking usec) ten_seconds w1)])])).
Proof.
  apply (unreadable_file_degrades_to_a_miss (ticking usec) ten_seconds "q1" "q1" q1_value
           (started {[ "cache.json" := Unparseable ]})).
  - right. vm_compute. reflexivity.
  - intros k item H. vm_compute in H. discriminate.
Defined.

(** Lifetime ten seconds.  Read exactly ten seconds after the write, at
    the boundary, the pair is served, from memory and, to a new process,
    from the file; read eleven seconds after the write (scenario 1 of the
    specification) it is absent. *)
Lemma expired_pairs_are_absent_witness :
  get_item (ticking (10 * usec)) ten_seconds "q1" (after_set (10 * usec))
  = (Ok (PTuple [q1_value; PInt 1700000010]), set_reads 2 (after_set (10 * usec))) /\
  get_item (ticking (10 * usec)) ten_seconds "q1"
    (World 1 ∅ (disk (after_set (10 * usec))))
  = (Ok q1_value, World 2 ∅ (disk (after_set (10 * usec)))) /\
  fst (get_item (ticking (11 * usec)) ten_seconds "q1" (after_set (11 * usec))) = Ok PNone.
Proof.
  split; [|split].
  - assert (Hmem : mem_cache (after_set (10 * usec)) !! "q1"
                   = Some (PTuple [q1_value; PInt 1700000010]))
      by (vm_compute; reflexivity).
    assert (Hnow : ticking (10 * usec) (reads (after_set (10 * usec)))
                   <= 1700000010 * usec)
      by (vm_compute; discriminate).
    exact (proj1 (proj2 (expired_pairs_are_absent (ticking (10 * usec))))
             ten_seconds "q1" (after_set (10 * usec)) q1_value 1700000010 Hmem Hnow).
  - assert (Hfile : file_entry ten_seconds "q1" (World 1 ∅ (disk (after_set (10 * usec))))
                    = Some (PList [q1_value; PInt 1700000010]))
      by (vm_compute; reflexivity).
    assert (Hnow : ticking (10 * usec) 1 <= 1700000010 * usec)
      by (vm_compute; discriminate).
    exact (proj1 (proj2 (proj2 (expired_pairs_are_absent (ticking (10 * usec)))))
             ten_seconds "q1" (World 1 ∅ (disk (after_set (10 * usec))))
             q1_value 1700000010 eq_refl Hfile Hnow).
  - apply (proj2 (proj2 (proj2 (proj2 (expired_pairs_are_absent (ticking (11 * usec))))))
             ten_seconds "q1" q1_value (started ∅) (after_set (11 * usec))
             (after_set (11 * usec))).
    + vm_compute. discriminate.
    + vm_compute. reflexivity.
    + right. reflexivity.
    + right. reflexivity.
    + vm_compute. reflexivity.
    + vm_compute. discriminate.
Defined.

Lemma durable_pair_is_served_to_a_fresh_process_witness :
  get_item (ticking usec) ten_seconds "q1"
    (started {[ "cache.json" := Parsed (PDict [("q1", PList [q1_value; PInt 1700000010])]) ]})
  = (Ok q1_value,
     set_reads 1
       (started {[ "cache.json" := Parsed (PDict [("q1", PList [q1_value; PInt 1700000010])]) ]})).
Proof.
  apply (durable_pair_is_served_to_a_fresh_process (ticking usec) ten_seconds "q1"
           q1_value 1700000010 [("q1", PList [q1_value; PInt 1700000010])]).
  - reflexivity.
  - vm_compute. reflexivity.
  - vm_compute. reflexivity.
  - vm_compute. discriminate.
Defined.

End CacheRuns.

(** * The pipeline and search claims on concrete runs *)

Section PipelineRuns.
Import system utils main pipeline_notions pipeline_examples.

(** The encoder exits with 1: the endpoint raises the transcode error and
    neither placeholder is left. *)
Lemma failed_acquisition_removes_both_placeholders_witness :
  exists w',
    download_video_as_mp3 (configured "/usr/bin/ffmpeg") (staged 1 200)
      "abc" "T" "A" "B" "http://x/y.jpg" empty_world
    = (Raise (Exception "Could not convert mp4 to mp3."), w') /\
    fs w' !! "/tmp/tmp.mp4" = None /\
    fs w' !! "/tmp/tmpa.mp3" = None /\
    forall p, p <> "/tmp/tmp.mp4" -> p <> "/tmp/tmpa.mp3" ->
              fs w' !! p
              = fs (snd (try_block (configured "/usr/bin/ffmpeg") (staged 1 200) "abc"
                           (decoded (staged 1 200) "T" "A" "B" "http://x/y.jpg")
                           "/tmp/tmp.mp4" "/tmp/tmpa.mp3"
                           (two_placeholders "/tmp/tmp.mp4" "/tmp/tmpa.mp3"))) !! p.
Proof.
  apply (failed_acquisition_removes_both_placeholders
           (configured "/usr/bin/ffmpeg") (staged 1 200)
           "abc" "T" "A" "B" "http://x/y.jpg" empty_world
           (snd (NamedTemporaryFile (staged 1 200) ".mp4" empty_world))
           (two_placeholders "/tmp/tmp.mp4" "/tmp/tmpa.mp3")).
  - reflexivity.
  - vm_compute. reflexivity.
  - vm_compute. reflexivity.
  - vm_compute. reflexivity.
Defined.

(** Scenario 2 of the specification. *)
Lemma unavailable_video_is_reported_as_404_witness :
  exists w',
    download_video_as_mp3 (configured "/usr/bin/ffmpeg") (staged 0 200)
      "missing123" "T" "A" "B" "http://x/y.jpg" empty_world
    = (Raise (HTTPException 404 "No video found with ID missing123"), w') /\
    fs w' = fs empty_world.
Proof.
  apply (proj2 (unavailable_video_is_reported_as_404
                  (configured "/usr/bin/ffmpeg") (staged 0 200) "missing123"
                  (or_introl eq_refl))
           "missing123" "T" "A" "B" "http://x/y.jpg" empty_world
           (snd (NamedTemporaryFile (staged 0 200) ".mp4" empty_world))
           (two_placeholders "/tmp/tmp.mp4" "/tmp/tmpa.mp3")
           "/tmp/tmp.mp4" "/tmp/tmpa.mp3").
  - reflexivity.
  - reflexivity.
  - vm_compute. reflexivity.
  - vm_compute. reflexivity.
Defined.

(** C7, as stated, fails: a space in the input path, or in the configured
    tool path, is a separator like any other, so the process is started
    with eight arguments instead of seven. *)
Lemma space_in_a_path_splits_the_arguments :
  spawned (snd (convert_mp4_to_mp3 (configured "/usr/bin/ffmpeg") (staged 0 200)
                  "/tmp/my music/a.mp4" "/tmp/b.mp3"
                  (two_placeholders "/tmp/my music/a.mp4" "/tmp/b.mp3")))
  = [["/usr/bin/ffmpeg"; "-i"; "/tmp/my"; "music/a.mp4"; "-ab"; "320k"; "-y"; "/tmp/b.mp3"]]
  /\
  spawned (snd (convert_mp4_to_mp3 (configured "/usr/bin/ffmpeg") (staged 0 200)
                  "/tmp/my music/a.mp4" "/tmp/b.mp3"
                  (two_placeholders "/tmp/my music/a.mp4" "/tmp/b.mp3")))
  <> [encoder_argv (configured "/usr/bin/ffmpeg") "/tmp/my music/a.mp4" "/tmp/b.mp3"]
  /\
  spawned (snd (convert_mp4_to_mp3 (configured "/opt/media tools/ffmpeg") (staged 0 200)
                  "/tmp/a.mp4" "/tmp/b.mp3"
                  (two_placeholders "/tmp/a.mp4" "/tmp/b.mp3")))
  = [["/opt/media"; "tools/ffmpeg"; "-i"; "/tmp/a.mp4"; "-ab"; "320k"; "-y"; "/tmp/b.mp3"]].
Proof.
  split; [vm_compute; reflexivity|].
  split; [vm_compute; discriminate | vm_compute; reflexivity].
Qed.

Lemma convert_runs_the_encoder_once_witness :
  exists r w',
    convert_mp4_to_mp3 (configured "/usr/bin/ffmpeg") (staged 1 200)
      "/tmp/a.mp4" "/tmp/b.mp3" (two_placeholders "/tmp/a.mp4" "/tmp/b.mp3") = (r, w') /\
    spawned w'
    = (spawned (two_placeholders "/tmp/a.mp4" "/tmp/b.mp3")
       ++ [encoder_argv (configured "/usr/bin/ffmpeg") "/tmp/a.mp4" "/tmp/b.mp3"])%list /\
    match run_process (staged 1 200)
            (encoder_argv (configured "/usr/bin/ffmpeg") "/tmp/a.mp4" "/tmp/b.mp3")
            (fs (two_placeholders "/tmp/a.mp4" "/tmp/b.mp3")) with
    | Exited returncode written =>
        r = (if returncode =? 0 then Ok tt
             else Raise (Exception "Could not convert mp4 to mp3.")) /\
        fs w' = write_all written (fs (two_placeholders "/tmp/a.mp4" "/tmp/b.mp3"))
    | SpawnFailed e => r = Raise e /\ fs w' = fs (two_placeholders "/tmp/a.mp4" "/tmp/b.mp3")
    end.
Proof.
  apply (convert_runs_the_encoder_once (configured "/usr/bin/ffmpeg") (staged 1 200)
           "/tmp/a.mp4" "/tmp/b.mp3" (two_placeholders "/tmp/a.mp4" "/tmp/b.mp3"));
    try reflexivity.
  - vm_compute. eauto.
  - vm_compute. eauto.
Defined.

(** Scenario 3 of the specification. *)
Lemma returned_file_carries_the_requested_tags_witness :
  exists w',
    download_video_as_mp3 (configured "/usr/bin/ffmpeg") (staged 0 200)
      "abc" "T" "A" "B" "http://x/y.jpg" empty_world
    = (Ok {| path := "/tmp/tmpa.mp3"; media_type := Some "audio/mpeg";
             background := Some (remove_tmp_files_task "/tmp/tmp.mp4" "/tmp/tmpa.mp3") |},
       w').
Proof.
  eapply (proj2 (returned_file_carries_the_requested_tags
                   (configured "/usr/bin/ffmpeg") (staged 0 200)
                   "abc" "T" "A" "B" "http://x/y.jpg" empty_world eq_refl)
            (snd (NamedTemporaryFile (staged 0 200) ".mp4" empty_world))
            (two_placeholders "/tmp/tmp.mp4" "/tmp/tmpa.mp3")
            (snd (download_youtube_video (staged 0 200) "abc" "/tmp/tmp.mp4"
                    (two_placeholders "/tmp/tmp.mp4" "/tmp/tmpa.mp3")))
            (snd (convert_mp4_to_mp3 (configured "/usr/bin/ffmpeg") (staged 0 200)
                    "/tmp/tmp.mp4" "/tmp/tmpa.mp3"
                    (snd (download_youtube_video (staged 0 200) "abc" "/tmp/tmp.mp4"
                            (two_placeholders "/tmp/tmp.mp4" "/tmp/tmpa.mp3")))))
            "/tmp/tmp.mp4" "/tmp/tmpa.mp3"
            {| httpx.status_code := 200; httpx.content := [Byte.x03];
               httpx.json := Raise JSONDecodeError |});
    try reflexivity; vm_compute; reflexivity.
Defined.

(** The cover server answers 404: the file is returned all the same, with
    the body of that answer as its front cover. *)
Lemma cover_is_embedded_whatever_the_status_witness :
  exists response f tag,
    http_get (staged 0 404) "http://x/y.jpg" = Ok response /\
    fs (snd (download_video_as_mp3 (configured "/usr/bin/ffmpeg") (staged 0 404)
               "abc" "T" "A" "B" "http://x/y.jpg" empty_world))
      !! "/tmp/tmpa.mp3" = Some f /\
    id3 f = Some tag /\
    eyed3.images tag
    = [{| eyed3.picture_type := eyed3.FRONT_COVER;
          eyed3.image_data := httpx.content response;
          eyed3.mime_type := "image/jpeg";
          eyed3.image_description := "B Front Cover" |}].
Proof.
  apply (proj2 (cover_is_embedded_whatever_the_status
                  (configured "/usr/bin/ffmpeg") (staged 0 404)
                  "abc" "T" "A" "B" "http://x/y.jpg" empty_world)
           {| path := "/tmp/tmpa.mp3"; media_type := Some "audio/mpeg";
              background := Some (remove_tmp_files_task "/tmp/tmp.mp4" "/tmp/tmpa.mp3") |}
           (snd (download_video_as_mp3 (configured "/usr/bin/ffmpeg") (staged 0 404)
                   "abc" "T" "A" "B" "http://x/y.jpg" empty_world))).
  - reflexivity.
  - vm_compute. reflexivity.
Defined.

End PipelineRuns.

Section SearchRuns.
Import cache_storage utils examples pipeline_examples search_examples.

(** The search service answers 500, or answers 200 with a JSON body of
    another shape: no results, and no exception. *)
Lemma rejected_search_response_gives_no_results_witness :
  fst (search_track_metadata_options (configured "/usr/bin/ffmpeg")
         (answering 500 (Raise JSONDecodeError)) some_track (Some ten_seconds) (started ∅))
  = Ok [] /\
  fst (search_track_metadata_options (configured "/usr/bin/ffmpeg")
         (answering 200 (Ok (PDict [("error", PStr "x")]))) some_track (Some ten_seconds)
         (started ∅))
  = Ok [].
Proof.
  split.
  - refine (f_equal fst
              (proj1 (rejected_search_response_gives_no_results
                 (configured "/usr/bin/ffmpeg") (answering 500 (Raise JSONDecodeError))
                 some_track (Some ten_seconds) (started ∅)
                 (snd (cached_metadata_options (answering 500 (Raise JSONDecodeError))
                         (Some ten_seconds) "T|A" (started ∅)))
                 _ "granted"
                 {| httpx.status_code := 500; httpx.content := [];
                    httpx.json := Raise JSONDecodeError |} _ _ _) _)).
    + vm_compute. reflexivity.
    + vm_compute. reflexivity.
    + reflexivity.
    + left. reflexivity.
  - refine (f_equal fst
              (proj1 (rejected_search_response_gives_no_results
                 (configured "/usr/bin/ffmpeg")
                 (answering 200 (Ok (PDict [("error", PStr "x")])))
                 some_track (Some ten_seconds) (started ∅)
                 (snd (cached_metadata_options
                         (answering 200 (Ok (PDict [("error", PStr "x")])))
                         (Some ten_seconds) "T|A" (started ∅)))
                 _ "granted"
                 {| httpx.status_code := 200; httpx.content := [];
                    httpx.json := Ok (PDict [("error", PStr "x")]) |} _ _ _) _)).
    + vm_compute. reflexivity.
    + vm_compute. reflexivity.
    + reflexivity.
    + right. exists (PDict [("error", PStr "x")]). split; reflexivity.
Defined.

(** C8, as stated, fails: the search service answers 200 with a body that
    is not JSON, and [search_track_metadata_options] raises
    [JSONDecodeError] to its caller instead of returning the empty list. *)
Lemma undecodable_search_body_is_raised :
  in_range_200_300 200 = true /\
  fst (search_track_metadata_options (configured "/usr/bin/ffmpeg")
         (answering 200 (Raise JSONDecodeError)) some_track (Some ten_seconds) (started ∅))
  = Raise JSONDecodeError.
Proof. split; vm_compute; reflexivity. Qed.

End SearchRuns.

(** * Further properties of the cache *)

Section JsonFacts.

Lemma to_json_fixed : forall x : pyval, is_json x = true -> to_json x = x.
Proof.
  fix IH 1. intros [| b | n | f | s | l | l | d]; cbn; intros H; try reflexivity.
  - f_equal. induction l as [|y l IHl]; [reflexivity|].
    cbn in H. apply andb_true_iff in H as [Hy Hl].
    cbn. rewrite (IH y Hy), (IHl Hl). reflexivity.
  - discriminate.
  - f_equal. induction d as [|[k y] d IHd]; [reflexivity|].
    cbn in H. apply andb_true_iff in H as [Hy Hd].
    cbn. rewrite (IH y Hy), (IHd Hd). reflexivity.
Qed.

Lemma dict_get_to_json (d : list (string * pyval)) (key : string) :
  dict_get (map (fun kv => match kv with (k, y) => (k, to_json y) end) d) key
  = to_json <$> dict_get d key.
Proof.
  induction d as [|[k y] d IH]; [reflexivity|].
  cbn. destruct (String.eqb k key); [reflexivity | exact IH].
Qed.

Lemma dict_get_set_eq {A} (d : list (string * A)) (key : string) (x : A) :
  dict_get (dict_set d key x) key = Some x.
Proof.
  induction d as [|[k y] d IH]; cbn.
  - rewrite String.eqb_refl. reflexivity.
  - destruct (String.eqb k key) eqn:Hk; cbn; rewrite Hk; [reflexivity | exact IH].
Qed.

Lemma dict_get_set_ne {A} (d : list (string * A)) (key other : string) (x : A) :
  key <> other -> dict_get (dict_set d key x) other = dict_get d other.
Proof.
  intros Hne. induction d as [|[k y] d IH]; cbn.
  - destruct (String.eqb_spec key other); [contradiction | reflexivity].
  - destruct (String.eqb_spec k key) as [-> | Hk]; cbn.
    + destruct (String.eqb_spec key other); [contradiction | reflexivity].
    + destruct (String.eqb k other); [reflexivity | exact IH].
Qed.

End JsonFacts.

Section CacheExtras.
Import cache_storage notions cache_sessions.
Variable clock : nat -> Z.

Lemma has_expired_world (item : pyval) (w w' : world) (r : outcome bool) :
  _has_expired clock item w = (r, w') -> w' = set_reads (S (reads w)) w.
Proof.
  unfold _has_expired, bind, now, lift.
  destruct (getitem item 1) as [x|e]; [|intros [= <- <-]; reflexivity].
  intros [= <- <-]. reflexivity.
Qed.

Lemma load_world (path : string) (w w' : world) (r : outcome pyval) :
  load path w = (r, w') -> w' = w.
Proof.
  unfold load. destruct (disk w !! path) as [[| |j]|]; intros [= <- <-]; reflexivity.
Qed.

Lemma get_item_durable_world (self : CacheStorage) (key : string) (w w' : world)
    (r : outcome pyval) :
  get_item_durable clock self key w = (r, w') ->
  w' = w \/ w' = set_reads (S (reads w)) w.
Proof.
  unfold get_item_durable, bind at 1.
  destruct (try_except _ _ w) as [[item|e] w0] eqn:Htry.
  - assert (w0 = w) as ->.
    { revert Htry. unfold try_except, bind, lift.
      destruct (load (cache_path self) w) as [[j|e] w1] eqn:Hload;
        apply load_world in Hload; subst w1.
      - destruct (dict_get_method j key) as [x|e].
        + intros [= _ <-]; try reflexivity.
        + destruct (storage_errors e); intros [= _ <-]; try reflexivity.
      - destruct (storage_errors e); intros [= _ <-]; try reflexivity. }
    assert (Hcheck : forall r w',
               bind (_has_expired clock item)
                 (fun expired => if expired then ret PNone else lift (getitem item 0)) w
               = (r, w') -> w' = set_reads (S (reads w)) w).
    { clear. intros r w'. unfold bind.
      destruct (_has_expired clock item w) as [[b|e] w1] eqn:Hexp;
        apply has_expired_world in Hexp; subst w1.
      - destruct b; intros [= <- <-]; reflexivity.
      - intros [= <- <-]. reflexivity. }
    destruct item; try (intros H; right; eapply Hcheck; exact H).
    intros [= <- <-]. left. reflexivity.
  - assert (w0 = w) as ->.
    { revert Htry. unfold try_except, bind, lift.
      destruct (load (cache_path self) w) as [[j|e0] w1] eqn:Hload;
        apply load_world in Hload; subst w1.
      - destruct (dict_get_method j key) as [x|e0].
        + intros [= _ <-]; try reflexivity.
        + destruct (storage_errors e0); intros [= _ <-]; try reflexivity.
      - destruct (storage_errors e0); intros [= _ <-]; try reflexivity. }
    intros [= <- <-]. left. reflexivity.
Qed.

Lemma get_item_keeps_stores (self : CacheStorage) (key : string) (w w' : world)
    (r : outcome pyval) :
  get_item clock self key w = (r, w') ->
  mem_cache w' = mem_cache w /\ disk w' = disk w.
Proof.
  unfold get_item, bind at 1, gets.
  destruct (mem_cache w !! key) as [item|].
  - unfold bind.
    destruct (_has_expired clock item w) as [[b|e] w1] eqn:Hexp;
      apply has_expired_world in Hexp; subst w1.
    + destruct b; cbn [negb].
      * intros H. apply get_item_durable_world in H as [-> | ->]; cbn; auto.
      * intros [= <- <-]. cbn. auto.
    + intros [= <- <-]. cbn. auto.
  - intros H. apply get_item_durable_world in H as [-> | ->]; cbn; auto.
Qed.

(** X1.  [get_item] only reads: whatever it returns or raises, the
    dictionary in memory and every file are as before, and it has read the
    clock at most twice. *)
Theorem get_item_only_reads (self : CacheStorage) (key : string) (w w' : world)
    (r : outcome pyval) :
  get_item clock self key w = (r, w') ->
  mem_cache w' = mem_cache w /\ disk w' = disk w /\
  (reads w <= reads w' <= reads w + 2)%nat.
Proof.
  unfold get_item, bind at 1, gets.
  destruct (mem_cache w !! key) as [item|].
  - unfold bind.
    destruct (_has_expired clock item w) as [[b|e] w1] eqn:Hexp;
      apply has_expired_world in Hexp; subst w1.
    + destruct b; cbn [negb].
      * intros H. apply get_item_durable_world in H as [-> | ->]; cbn; repeat split; lia.
      * intros [= <- <-]. cbn. repeat split; lia.
    + intros [= <- <-]. cbn. repeat split; lia.
  - intros H. apply get_item_durable_world in H as [-> | ->]; cbn; repeat split; lia.
Qed.

(** X2.  [set_item] writes both tiers or neither: when it raises, which it
    does with [UnicodeDecodeError] or [TypeError] only, the dictionary in
    memory and every file are as before. *)
Theorem failed_set_item_writes_nothing (self : CacheStorage) (key : string) (value : pyval)
    (w w' : world) (e : exn) :
  set_item clock self key value w = (Raise e, w') ->
  (e = UnicodeDecodeError \/ e = TypeError) /\
  mem_cache w' = mem_cache w /\ disk w' = disk w.
Proof.
  rewrite set_item_unfold. cbv zeta.
  destruct (disk w !! cache_path self) as [[| |j]|]; try discriminate.
  - intros [= <- <-]. cbn. auto.
  - destruct j; try discriminate; intros [= <- <-]; cbn; auto.
Qed.

(** X3.  A successful [set_item(k, _)] leaves every other key alone: its
    pair in memory, its entry in the cache file when that file was a JSON
    object (re-serialised as JSON), and every other file. *)
Theorem set_item_keeps_the_other_keys (self : CacheStorage) (key other : string)
    (value : pyval) (w w' : world) :
  set_item clock self key value w = (Ok tt, w') ->
  key <> other ->
  mem_cache w' !! other = mem_cache w !! other /\
  (forall p, p <> cache_path self -> disk w' !! p = disk w !! p) /\
  (forall d, disk w !! cache_path self = Some (Parsed (PDict d)) ->
             exists d', disk w' !! cache_path self = Some (Parsed (PDict d')) /\
                        dict_get d' other = to_json <$> dict_get d other).
Proof.
  rewrite set_item_unfold. cbv zeta. intros Hset Hne.
  assert (Hshape : exists d0,
             w' = World (S (reads w))
                    (<[key := PTuple [value; PInt (expiration clock self w)]]> (mem_cache w))
                    (<[cache_path self := Parsed (to_json (PDict d0))]> (disk w)) /\
             forall d, disk w !! cache_path self = Some (Parsed (PDict d)) ->
                       d0 = dict_set d key (PTuple [value; PInt (expiration clock self w)])).
  { destruct (disk w !! cache_path self) as [[| |j]|]; try discriminate.
    - exists [(key, PTuple [value; PInt (expiration clock self w)])].
      injection Hset as <-. split; [reflexivity|]. intros d [=].
    - destruct j; try discriminate.
      exists (dict_set d key (PTuple [value; PInt (expiration clock self w)])).
      injection Hset as <-. split; [reflexivity|]. intros d0 [= <-]. reflexivity.
    - exists [(key, PTuple [value; PInt (expiration clock self w)])].
      injection Hset as <-. split; [reflexivity|]. intros d [=]. }
  destruct Hshape as (d0 & -> & Hd0). cbn. repeat split.
  - apply lookup_insert_ne. exact Hne.
  - intros p Hp. apply lookup_insert_ne. congruence.
  - intros d Hd. rewrite (Hd0 d Hd). eexists. split; [apply lookup_insert_eq|].
    rewrite dict_get_to_json, dict_get_set_ne by exact Hne. reflexivity.
Qed.

Lemma restart_reads_the_file (self : CacheStorage) (key : string) (value : pyval)
    (w w' : world) :
  set_item clock self key value w = (Ok tt, w') ->
  clock (reads w') <= expiration clock self w * usec ->
  fst (get_item clock self key (restart w')) = Ok (to_json value).
Proof.
  intros Hset Hnow.
  destruct (set_item_Ok clock _ _ _ _ _ Hset) as (_ & _ & d & Hd & Hk).
  rewrite get_item_mem_miss by apply lookup_empty.
  rewrite (get_item_durable_pair clock self key (restart w') d (to_json value)
             (expiration clock self w)).
  - cbn. destruct (Z.ltb_spec (expiration clock self w * usec) (clock (reads w')));
      [lia | reflexivity].
  - cbn. rewrite Hd. apply lookup_insert_eq.
  - exact Hk.
Qed.

(** X4.  What [set_item(k, v)] wrote survives a restart: a new process
    that reads the clock no later than the expiration gets [v] back from
    the file, as JSON returns it; for a JSON-compatible [v] that is [v]
    itself. *)
Theorem set_item_survives_a_restart (self : CacheStorage) (key : string) (value : pyval)
    (w w' : world) :
  set_item clock self key value w = (Ok tt, w') ->
  clock (reads w') <= expiration clock self w * usec ->
  fst (get_item clock self key (restart w')) = Ok (to_json value) /\
  (is_json value = true -> fst (get_item clock self key (restart w')) = Ok value).
Proof.
  intros Hset Hnow.
  pose proof (restart_reads_the_file self key value w w' Hset Hnow) as Hget.
  split; [exact Hget|]. intros Hjson. rewrite Hget, (to_json_fixed value Hjson). reflexivity.
Qed.


(** X6.  The file is the fallback: when the pair in memory has expired
    but the file holds a pair for the key that has not (another process
    wrote it), [get_item] answers with the file's value, after two clock
    readings. *)
Theorem stale_memory_falls_back_on_the_file (self : CacheStorage) (key : string)
    (w : world) (v0 v : pyval) (e0 e : Z) (d : list (string * pyval)) :
  mem_cache w !! key = Some (PTuple [v0; PInt e0]) ->
  e0 * usec < clock (reads w) ->
  disk w !! cache_path self = Some (Parsed (PDict d)) ->
  dict_get d key = Some (PList [v; PInt e]) ->
  clock (S (reads w)) <= e * usec ->
  get_item clock self key w = (Ok v, set_reads (S (S (reads w))) w).
Proof.
  intros Hmem Hstale Hd Hk Hfresh.
  rewrite (get_item_mem_hit clock self key w v0 e0 Hmem).
  destruct (Z.ltb_spec (e0 * usec) (clock (reads w))); [|lia].
  rewrite (get_item_durable_pair clock self key (set_reads (S (reads w)) w) d v e Hd Hk).
  cbn. destruct (Z.ltb_spec (e * usec) (clock (S (reads w)))); [lia | reflexivity].
Qed.

(** X7.  A pair is kept for at least its lifetime less one second: the
    expiration is the end of the lifetime cut to a whole second, so a
    [get_item] that reads the clock a second or more before that end still
    finds the pair in memory. *)
Theorem pair_lives_a_lifetime_less_a_second (self : CacheStorage) (key : string)
    (value : pyval) (w w' : world) :
  0 <= clock (reads w) + item_lifetime self ->
  set_item clock self key value w = (Ok tt, w') ->
  clock (reads w') + usec <= clock (reads w) + item_lifetime self ->
  clock (reads w) + item_lifetime self - usec < expiration clock self w * usec
    <= clock (reads w) + item_lifetime self /\
  fst (get_item clock self key w')
  = Ok (PTuple [value; PInt (expiration clock self w)]).
Proof.
  intros Hpos Hset Hearly.
  assert (Hbounds : clock (reads w) + item_lifetime self - usec
                    < expiration clock self w * usec
                    <= clock (reads w) + item_lifetime self).
  { unfold expiration. rewrite Z.quot_div_nonneg by (unfold usec; lia).
    pose proof (Z.div_mod (clock (reads w) + item_lifetime self) usec) as Hdm.
    pose proof (Z.mod_pos_bound (clock (reads w) + item_lifetime self) usec) as Hmod.
    unfold usec in *. lia. }
  split; [exact Hbounds|].
  destruct (set_item_Ok clock _ _ _ _ _ Hset) as (_ & Hmem & _).
  rewrite (get_item_mem_hit clock self key w' value (expiration clock self w))
    by (rewrite Hmem; apply lookup_insert_eq).
  destruct (Z.ltb_spec (expiration clock self w * usec) (clock (reads w')));
    [lia | reflexivity].
Qed.

Lemma to_json_pairs (d : list (string * pyval)) :
  Forall (fun kv => is_pair (snd kv) \/ exists v e, snd kv = PTuple [v; PInt e]) d ->
  Forall (fun kv => is_pair (snd kv))
    (map (fun kv => match kv with (k, y) => (k, to_json y) end) d).
Proof.
  induction 1 as [|[k y] d Hy _ IH]; cbn; constructor; [|exact IH].
  cbn in *. destruct Hy as [(v & e & ->) | (v & e & ->)]; cbn; unfold is_pair; eauto.
Qed.

Lemma dict_set_Forall {A} (P : string * A -> Prop) (d : list (string * A))
    (key : string) (x : A) :
  Forall P d -> (forall k, P (k, x)) -> Forall P (dict_set d key x).
Proof.
  intros Hd Hx. induction Hd as [|[k y] d Hy Hd IH]; cbn.
  - constructor; [apply Hx | constructor].
  - destruct (String.eqb k key); constructor; auto.
Qed.

Lemma dict_get_Forall {A} (P : string * A -> Prop) (d : list (string * A))
    (key : string) (x : A) :
  Forall P d -> dict_get d key = Some x -> exists k, P (k, x).
Proof.
  induction 1 as [|[k y] d Hy _ IH]; cbn; [discriminate|].
  destruct (String.eqb k key); [intros [= <-]; eauto | exact IH].
Qed.

(** What holds between any two calls of a cache that started sound. *)
Lemma perform_keeps_sound (self : CacheStorage) (c : call) (w : world) :
  wf_mem (mem_cache w) -> sound_file (disk w !! cache_path self) ->
  (exists x, fst (perform clock self c w) = Ok x) /\
  wf_mem (mem_cache (snd (perform clock self c w))) /\
  sound_file (disk (snd (perform clock self c w)) !! cache_path self).
Proof.
  intros Hwf Hfile. destruct c as [key | key value]; cbn [perform].
  - destruct (get_item clock self key w) as [r w'] eqn:Hget.
    destruct (get_item_keeps_stores self key w w' r Hget) as (Hmem & Hdisk).
    cbn. rewrite Hmem, Hdisk. split; [|split; assumption].
    assert (Hdurable : forall w0, disk w0 = disk w ->
               exists x, fst (get_item_durable clock self key w0) = Ok x).
    { intros w0 Hw0.
      unfold sound_file in Hfile. rewrite <- Hw0 in Hfile.
      destruct (disk w0 !! cache_path self) as [[| |j]|] eqn:Hd; try contradiction.
      - rewrite get_item_durable_no_document by (right; exact Hd). eauto.
      - destruct j; try contradiction.
        destruct (dict_get d key) as [item|] eqn:Hk.
        + destruct (dict_get_Forall _ d key item Hfile Hk) as (k & v & e & Hitem).
          cbn in Hitem. subst item.
          rewrite (get_item_durable_pair clock self key w0 d v e Hd Hk). cbn.
          destruct (e * usec <? clock (reads w0)); eauto.
        + unfold get_item_durable, bind at 1, try_except, bind at 1, load, lift,
            dict_get_method.
          rewrite Hd, Hk. cbn. eauto.
      - rewrite get_item_durable_no_document by (left; exact Hd). eauto. }
    assert (Hfst : r = fst (get_item clock self key w)) by (rewrite Hget; reflexivity).
    rewrite Hfst.
    destruct (mem_cache w !! key) as [item|] eqn:Hhit.
    + destruct (Hwf _ _ Hhit) as (v & e & ->).
      rewrite (get_item_mem_hit clock self key w v e Hhit).
      destruct (e * usec <? clock (reads w)); [apply Hdurable; reflexivity | cbn; eauto].
    + rewrite get_item_mem_miss by exact Hhit. apply Hdurable. reflexivity.
  - unfold bind. rewrite set_item_unfold. cbv zeta.
    assert (Hins : wf_mem (<[key := PTuple [value; PInt (expiration clock self w)]]>
                             (mem_cache w))).
    { intros k item. rewrite lookup_insert. case_decide; [intros [= <-]; eauto | apply Hwf]. }
    unfold sound_file in Hfile.
    destruct (disk w !! cache_path self) as [[| |j]|]; try contradiction.
    + cbn. split; [eauto|]. split; [exact Hins|].
      rewrite lookup_insert_eq. cbn. constructor; [|constructor].
      cbn. unfold is_pair. eauto.
    + destruct j; try contradiction.
      cbn. split; [eauto|]. split; [exact Hins|].
      rewrite lookup_insert_eq. cbn. apply to_json_pairs.
      apply dict_set_Forall.
      * eapply Forall_impl; [exact Hfile|]. cbn. auto.
      * intros k. right. cbn. eauto.
    + cbn. split; [eauto|]. split; [exact Hins|].
      rewrite lookup_insert_eq. cbn. constructor; [|constructor].
      cbn. unfold is_pair. eauto.
Qed.

(** X8.  A cache that starts sound stays sound and never raises: with
    pairs only in memory (none, in a new process) and a cache file that is
    absent, not JSON, or a JSON object of pairs, every [get_item] and
    [set_item] of every sequence of calls returns normally, and the same
    holds of the world each call leaves. *)
Theorem sound_cache_never_raises (self : CacheStorage) (calls : list call) (c : call)
    (w : world) :
  wf_mem (mem_cache w) ->
  sound_file (disk w !! cache_path self) ->
  (exists x, fst (perform clock self c (session clock self calls w)) = Ok x) /\
  wf_mem (mem_cache (session clock self calls w)) /\
  sound_file (disk (session clock self calls w) !! cache_path self).
Proof.
  revert w. induction calls as [|c0 calls IH]; intros w Hwf Hfile; cbn [session].
  - destruct (perform_keeps_sound self c w Hwf Hfile) as (Hok & _). auto.
  - destruct (perform_keeps_sound self c0 w Hwf Hfile) as (_ & Hwf' & Hfile').
    apply IH; assumption.
Qed.

End CacheExtras.

(** * The further cache properties on concrete runs *)

Section CacheExtraRuns.
Import cache_storage notions cache_sessions examples cache_session_examples.

Lemma get_item_only_reads_witness :
  mem_cache (snd (get_item (ticking usec) ten_seconds "q1" outdated_memory))
  = mem_cache outdated_memory /\
  disk (snd (get_item (ticking usec) ten_seconds "q1" outdated_memory))
  = disk outdated_memory /\
  (reads outdated_memory
   <= reads (snd (get_item (ticking usec) ten_seconds "q1" outdated_memory))
   <= reads outdated_memory + 2)%nat.
Proof.
  apply (get_item_only_reads (ticking usec) ten_seconds "q1" outdated_memory _
           (fst (get_item (ticking usec) ten_seconds "q1" outdated_memory))).
  vm_compute. reflexivity.
Defined.

Lemma failed_set_item_writes_nothing_witness :
  (TypeError = UnicodeDecodeError \/ TypeError = TypeError) /\
  mem_cache (snd (set_item (ticking usec) ten_seconds "q1" q1_value
                    (started {[ "cache.json" := Parsed (PList []) ]})))
  = mem_cache (started {[ "cache.json" := Parsed (PList []) ]}) /\
  disk (snd (set_item (ticking usec) ten_seconds "q1" q1_value
               (started {[ "cache.json" := Parsed (PList []) ]})))
  = disk (started {[ "cache.json" := Parsed (PList []) ]}).
Proof.
  apply (failed_set_item_writes_nothing (ticking usec) ten_seconds "q1" q1_value
           (started {[ "cache.json" := Parsed (PList []) ]})).
  vm_compute. reflexivity.
Defined.

Lemma set_item_keeps_the_other_keys_witness :
  exists d',
    disk (snd (set_item (ticking usec) ten_seconds "q1" q1_value (started other_entry)))
      !! "cache.json" = Some (Parsed (PDict d')) /\
    dict_get d' "other" = Some (PList [PStr "x"; PInt 1700000300]).
Proof.
  destruct (set_item_keeps_the_other_keys (ticking usec) ten_seconds "q1" "other" q1_value
              (started other_entry)
              (snd (set_item (ticking usec) ten_seconds "q1" q1_value (started other_entry))))
    as (_ & _ & Hfile).
  - vm_compute. reflexivity.
  - discriminate.
  - apply (Hfile [("other", PList [PStr "x"; PInt 1700000300])]).
    vm_compute. reflexivity.
Defined.

Lemma set_item_survives_a_restart_witness :
  fst (get_item (ticking usec) ten_seconds "q1" (restart (after_set usec)))
  = Ok (to_json q1_value) /\
  (is_json q1_value = true ->
   fst (get_item (ticking usec) ten_seconds "q1" (restart (after_set usec))) = Ok q1_value).
Proof.
  apply (set_item_survives_a_restart (ticking usec) ten_seconds "q1" q1_value (started ∅)).
  - vm_compute. reflexivity.
  - vm_compute. discriminate.
Defined.


Lemma stale_memory_falls_back_on_the_file_witness :
  get_item (ticking usec) ten_seconds "q1" outdated_memory
  = (Ok q1_value, set_reads 2 outdated_memory).
Proof.
  apply (stale_memory_falls_back_on_the_file (ticking usec) ten_seconds "q1"
           outdated_memory (PStr "old") q1_value 1600000000 1700000010
           [("q1", PList [q1_value; PInt 1700000010])]).
  - vm_compute. reflexivity.
  - vm_compute. reflexivity.
  - vm_compute. reflexivity.
  - vm_compute. reflexivity.
  - vm_compute. discriminate.
Defined.

Lemma pair_lives_a_lifetime_less_a_second_witness :
  fst (get_item (ticking (9 * usec)) ten_seconds "q1" (after_set (9 * usec)))
  = Ok (PTuple [q1_value; PInt 1700000010]).
Proof.
  refine (proj2 (pair_lives_a_lifetime_less_a_second (ticking (9 * usec)) ten_seconds "q1"
                   q1_value (started ∅) (after_set (9 * usec)) _ _ _)).
  - vm_compute. discriminate.
  - vm_compute. reflexivity.
  - vm_compute. discriminate.
Defined.

Lemma sound_cache_never_raises_witness :
  exists x,
    fst (perform (ticking usec) ten_seconds (GetItem "k")
           (session (ticking usec) ten_seconds some_calls (started ∅))) = Ok x.
Proof.
  refine (proj1 (sound_cache_never_raises (ticking usec) ten_seconds some_calls
                   (GetItem "k") (started ∅) _ _)).
  - intros k item H. vm_compute in H. discriminate.
  - vm_compute. exact I.
Defined.

End CacheExtraRuns.

(** * Further properties of the media steps *)

Section MediaExtras.
Import system utils main pipeline_notions.
Variable S : settings.t.
Variable E : env.

Lemma isfile_true (p : string) (w : world) :
  is_Some (fs w !! p) -> isfile p w = (Ok true, w).
Proof. intros H. unfold isfile, gets. rewrite bool_decide_eq_true_2 by exact H. reflexivity. Qed.

Lemma isfile_false (p : string) (w : world) :
  fs w !! p = None -> isfile p w = (Ok false, w).
Proof.
  intros H. unfold isfile, gets. rewrite bool_decide_eq_false_2; [reflexivity|].
  rewrite H. intros [x Hx]. discriminate.
Qed.

(** How [download_youtube_video] ends when the destination is a file, by
    what the hosting service answers. *)
Lemma download_youtube_video_unfold (video_id filepath : string) (w : world) :
  is_Some (fs w !! filepath) ->
  download_youtube_video E video_id filepath w =
  match youtube E video_id with
  | Ok (Some stream) =>
      (match snd stream with Some e => Raise e | None => Ok tt end,
       set_fs (<[filepath := {| data := fst stream; id3 := None |}]> (fs w)) w)
  | Ok None | Raise (VideoUnavailable _) =>
      (Raise (HTTPException 404 (String.append "No video found with ID " video_id)), w)
  | Raise e => (Raise e, w)
  end.
Proof.
  intros Hfile. unfold download_youtube_video, bind at 1.
  rewrite (isfile_true filepath w Hfile). cbn [negb].
  unfold bind at 1, try_except, bind at 1, lift.
  destruct (youtube E video_id) as [[stream|]|e].
  - unfold ret, bind, logger, ret, stream_download.
    destruct (snd stream); reflexivity.
  - reflexivity.
  - destruct e; reflexivity.
Qed.

Lemma download_spawns_nothing (video_id filepath : string) (w w' : world)
    (r : outcome unit) :
  download_youtube_video E video_id filepath w = (r, w') -> spawned w' = spawned w.
Proof.
  destruct (fs w !! filepath) as [f|] eqn:Hfile.
  - rewrite download_youtube_video_unfold by (rewrite Hfile; eauto).
    destruct (youtube E video_id) as [[stream|]|e]; [| |destruct e];
      intros [= <- <-]; reflexivity.
  - unfold download_youtube_video, bind at 1.
    rewrite (isfile_false filepath w Hfile). cbn [negb].
    intros [= <- <-]. reflexivity.
Qed.

(** X9.  [download_youtube_video] touches nothing but its destination:
    whatever it returns or raises, every other path holds what it held, the
    destination is a file afterwards exactly if it was one before, and no
    process is started; with no file at the destination it raises
    [IOError] and changes nothing at all. *)
Theorem download_touches_only_its_destination (video_id filepath : string)
    (w w' : world) (r : outcome unit) :
  download_youtube_video E video_id filepath w = (r, w') ->
  (forall p, p <> filepath -> fs w' !! p = fs w !! p) /\
  (is_Some (fs w' !! filepath) <-> is_Some (fs w !! filepath)) /\
  spawned w' = spawned w /\
  (fs w !! filepath = None ->
   r = Raise (IOError [String.append "`filepath` must be a valid filepath: " filepath])
   /\ w' = w).
Proof.
  destruct (fs w !! filepath) as [f|] eqn:Hfile.
  - rewrite download_youtube_video_unfold by (rewrite Hfile; eauto).
    assert (Hwrite : forall (bytes : list Byte.byte) (w' : world),
               w' = set_fs (<[filepath := {| data := bytes; id3 := None |}]> (fs w)) w ->
               (forall p, p <> filepath -> fs w' !! p = fs w !! p) /\
               (is_Some (fs w' !! filepath) <-> is_Some (Some f)) /\
               spawned w' = spawned w /\
               (Some f = None -> r = r /\ w' = w)).
    { intros bytes w0 ->. cbn. repeat split; try discriminate.
      - intros p Hp. apply lookup_insert_ne. congruence.
      - eauto.
      - intros _. rewrite lookup_insert_eq. eauto. }
    assert (Hsame : (forall p, p <> filepath -> fs w !! p = fs w !! p) /\
                    (is_Some (fs w !! filepath) <-> is_Some (Some f)) /\
                    spawned w = spawned w /\
                    (Some f = None -> r = r /\ w = w)).
    { rewrite Hfile. repeat split; auto; discriminate. }
    destruct (youtube E video_id) as [[stream|]|e].
    + intros [= <- <-].
      destruct (Hwrite (fst stream) _ eq_refl) as (H1 & H2 & H3 & _).
      repeat split; try apply H2; auto; discriminate.
    + intros [= <- <-]. destruct Hsame as (H1 & H2 & H3 & _).
      repeat split; try apply H2; auto; discriminate.
    + destruct e; intros [= <- <-]; destruct Hsame as (H1 & H2 & H3 & _);
        repeat split; try apply H2; auto; discriminate.
  - unfold download_youtube_video, bind at 1.
    rewrite (isfile_false filepath w Hfile). cbn [negb].
    intros [= <- <-]. rewrite Hfile. repeat split; auto.
Qed.

(** X10.  Of what the hosting service raises, only [VideoUnavailable] is
    translated (into the 404); any other exception of the lookup reaches
    the caller as it is, with no file changed, and an exception of the
    transfer reaches the caller after the destination has received what
    was transferred; success means the destination holds exactly the
    stream's bytes, untagged. *)
Theorem download_passes_on_service_failures (video_id filepath : string) (w : world) :
  is_Some (fs w !! filepath) ->
  (forall e, youtube E video_id = Raise e ->
             (forall other, e <> VideoUnavailable other) ->
             download_youtube_video E video_id filepath w = (Raise e, w)) /\
  (forall bytes e, youtube E video_id = Ok (Some (bytes, Some e)) ->
             download_youtube_video E video_id filepath w
             = (Raise e, set_fs (<[filepath := {| data := bytes; id3 := None |}]> (fs w)) w)) /\
  (forall bytes, youtube E video_id = Ok (Some (bytes, None)) ->
             download_youtube_video E video_id filepath w
             = (Ok tt, set_fs (<[filepath := {| data := bytes; id3 := None |}]> (fs w)) w)).
Proof.
  intros Hfile. rewrite download_youtube_video_unfold by exact Hfile.
  repeat split.
  - intros e -> Hother. destruct e; try reflexivity. exfalso. eapply Hother. reflexivity.
  - intros bytes e ->. reflexivity.
  - intros bytes ->. reflexivity.
Qed.

(** X11.  [convert_mp4_to_mp3] checks before it runs anything: unless the
    input ends in [.mp4], the output ends in [.mp3] and both are files, it
    raises [IOError] and leaves the world as it was, so no process has
    been started. *)
Theorem convert_refuses_before_running_anything (mp4 mp3 : string) (w : world) :
  endswith mp4 ".mp4" && bool_decide (is_Some (fs w !! mp4))
  && endswith mp3 ".mp3" && bool_decide (is_Some (fs w !! mp3)) = false ->
  exists args, convert_mp4_to_mp3 S E mp4 mp3 w = (Raise (IOError args), w).
Proof.
  intros Hpre. unfold convert_mp4_to_mp3, bind at 1, isfile, gets.
  destruct (endswith mp4 ".mp4"); cbn [negb orb]; [|eauto].
  destruct (bool_decide (is_Some (fs w !! mp4))); cbn [negb]; [|eauto].
  unfold bind at 1.
  destruct (endswith mp3 ".mp3"); cbn [negb orb]; [|eauto].
  destruct (bool_decide (is_Some (fs w !! mp3))); cbn [negb]; [|eauto].
  discriminate.
Qed.

Lemma join_split_space (s : string) : join " " (split_space s) = s.
Proof.
  induction s as [|c s IH]; [reflexivity|].
  cbn [split_space].
  destruct (Ascii.eqb_spec c " "%char) as [-> | Hc].
  - destruct (split_space s) as [|field fields] eqn:Hs.
    + cbn in IH. subst s. discriminate.
    + change (join " " (EmptyString :: field :: fields))
        with (String " "%char (join " " (field :: fields))).
      rewrite IH. reflexivity.
  - destruct (split_space s) as [|field fields] eqn:Hs.
    + cbn in IH. subst s. discriminate.
    + rewrite <- IH. destruct fields; reflexivity.
Qed.

Lemma convert_spawns_at_most_once (mp4 mp3 : string) (w w' : world) (r : outcome unit) :
  convert_mp4_to_mp3 S E mp4 mp3 w = (r, w') ->
  spawned w' = spawned w \/ exists argv, spawned w' = (spawned w ++ [argv])%list.
Proof.
  unfold convert_mp4_to_mp3, bind at 1, isfile, gets.
  destruct (negb (endswith mp4 ".mp4") || _); [intros [= <- <-]; left; auto|].
  unfold bind at 1.
  destruct (negb (endswith mp3 ".mp3") || _); [intros [= <- <-]; left; auto|].
  unfold bind, subprocess_run.
  set (argv := split_space _).
  intros Hrun. right. exists argv.
  destruct (run_process E argv (fs w)) as [e|rc written].
  - injection Hrun as <- <-. reflexivity.
  - destruct (negb (rc =? 0)); injection Hrun as <- <-; reflexivity.
Qed.

(** X12.  Whatever the paths contain, [convert_mp4_to_mp3] starts at most
    one process, and the arguments it starts it with, joined by single
    spaces, are the command line [tool -i input -ab 320k -y output]; the
    files change only by what that process wrote. *)
Theorem convert_runs_the_command_line (mp4 mp3 : string) (w w' : world) (r : outcome unit) :
  convert_mp4_to_mp3 S E mp4 mp3 w = (r, w') ->
  (spawned w' = spawned w /\ fs w' = fs w) \/
  exists argv,
    spawned w' = (spawned w ++ [argv])%list /\
    join " " argv
    = String.append (settings.FFMPEG_PATH S)
        (String.append " -i " (String.append mp4 (String.append " -ab 320k -y " mp3))) /\
    match run_process E argv (fs w) with
    | Exited _ written => fs w' = write_all written (fs w)
    | SpawnFailed _ => fs w' = fs w
    end.
Proof.
  unfold convert_mp4_to_mp3, bind at 1, isfile, gets.
  destruct (negb (endswith mp4 ".mp4") || _); [intros [= <- <-]; left; auto|].
  unfold bind at 1.
  destruct (negb (endswith mp3 ".mp3") || _); [intros [= <- <-]; left; auto|].
  unfold bind, subprocess_run.
  set (argv := split_space _).
  intros Hrun. right. exists argv. split; [|split].
  - destruct (run_process E argv (fs w)) as [e|rc written].
    + injection Hrun as <- <-. reflexivity.
    + destruct (negb (rc =? 0)); injection Hrun as <- <-; reflexivity.
  - apply join_split_space.
  - destruct (run_process E argv (fs w)) as [e|rc written].
    + injection Hrun as <- <-. reflexivity.
    + destruct (negb (rc =? 0)); injection Hrun as <- <-; reflexivity.
Qed.

End MediaExtras.

(** * Further properties of the download endpoint *)

Section EndpointExtras.
Import system utils main pipeline_notions.
Variable S : settings.t.
Variable E : env.

Lemma mkstemp_Raise (attempts : nat) (suffix : string) (w w' : world) (e : exn) :
  mkstemp E attempts suffix w = (Raise e, w') ->
  e = FileExistsError /\ fs w' = fs w /\ spawned w' = spawned w /\
  forall i, (i < attempts)%nat ->
            is_Some (fs w !! String.append (tmp_name E (names_drawn w + i)) suffix).
Proof.
  revert w. induction attempts as [|n IH]; intros w.
  - intros [= <- <-]. repeat split. intros i Hi. lia.
  - cbn [mkstemp].
    destruct (fs w !! String.append (tmp_name E (names_drawn w)) suffix) as [f|] eqn:Htaken;
      [|discriminate].
    intros H. apply IH in H as (-> & Hfs & Hsp & Hall). cbn in *.
    repeat split; try assumption.
    intros [|i] Hi.
    + rewrite Nat.add_0_r, Htaken. eauto.
    + replace (names_drawn w + Datatypes.S i)%nat
        with (Datatypes.S (names_drawn w) + i)%nat by lia.
      apply Hall. lia.
Qed.

(** X13.  The cleanup a successful acquisition defers does its work: the
    response names the encoded file and carries a task for the two
    placeholders of the request, both are still files when the response is
    returned, and running the task removes both and nothing else. *)
Theorem deferred_cleanup_removes_both_placeholders
    (video_id title artist album album_cover_url : string) (w w' : world)
    (r : FileResponse) :
  settings.MOCK_MODE S = false ->
  download_video_as_mp3 S E video_id title artist album album_cover_url w = (Ok r, w') ->
  exists mp4 mp3 w'',
    path r = mp3 /\
    background r = Some (remove_tmp_files_task mp4 mp3) /\
    is_Some (fs w' !! mp4) /\ is_Some (fs w' !! mp3) /\
    run_background (background r) w' = (Ok tt, w'') /\
    fs w'' !! mp4 = None /\ fs w'' !! mp3 = None /\
    forall p, p <> mp4 -> p <> mp3 -> fs w'' !! p = fs w' !! p.
Proof.
  intros Hmock Hrun.
  destruct (endpoint_Ok_inv S E _ _ _ _ _ _ _ _ Hmock Hrun)
    as (mp4 & w1 & mp3 & w2 & H4 & H3 & Htry).
  destruct (allocated_placeholders E w w1 w2 mp4 mp3 H4 H3) as (Hne & _ & _ & Hfs & _).
  pose proof (removes_nothing_try_block S E _ _ mp4 mp3 _ _ _ Htry) as Hkeep.
  assert (H4' : is_Some (fs w' !! mp4)).
  { apply Hkeep. rewrite Hfs, lookup_insert_ne by congruence.
    rewrite lookup_insert_eq. eauto. }
  assert (H3' : is_Some (fs w' !! mp3)).
  { apply Hkeep. rewrite Hfs, lookup_insert_eq. eauto. }
  apply try_block_Ok in Htry as (-> & _).
  exists mp4, mp3, (set_fs (delete mp3 (delete mp4 (fs w'))) w').
  cbn [path background run_background].
  rewrite (remove_tmp_files_Ok mp4 mp3 w' Hne H4' H3'). cbn.
  repeat split; try assumption.
  - rewrite lookup_delete_ne by congruence. apply lookup_delete_eq.
  - apply lookup_delete_eq.
  - intros p Hp4 Hp3. rewrite !lookup_delete_ne by congruence. reflexivity.
Qed.

(** X14.  The placeholders are allocated before the [try]: when no name
    can be found for the first, the endpoint raises [FileExistsError] and
    no file has changed; when none can be found for the second, it raises
    [FileExistsError] as well and the first placeholder, already created,
    stays behind as an empty file. *)
Theorem failed_allocation_is_not_cleaned_up
    (video_id title artist album album_cover_url : string) (w : world) :
  settings.MOCK_MODE S = false ->
  (forall e w1,
      NamedTemporaryFile E ".mp4" w = (Raise e, w1) ->
      download_video_as_mp3 S E video_id title artist album album_cover_url w
      = (Raise FileExistsError, w1) /\ fs w1 = fs w) /\
  (forall mp4 w1 e w2,
      NamedTemporaryFile E ".mp4" w = (Ok mp4, w1) ->
      NamedTemporaryFile E ".mp3" w1 = (Raise e, w2) ->
      download_video_as_mp3 S E video_id title artist album album_cover_url w
      = (Raise FileExistsError, w2) /\
      fs w !! mp4 = None /\ fs w2 = <[mp4 := empty_file]> (fs w)).
Proof.
  intros Hmock. split.
  - intros e w1 H4. unfold download_video_as_mp3. rewrite Hmock.
    unfold bind at 1. rewrite H4.
    apply mkstemp_Raise in H4 as (-> & Hfs & _). auto.
  - intros mp4 w1 e w2 H4 H3. unfold download_video_as_mp3. rewrite Hmock.
    unfold bind at 1. rewrite H4. unfold bind at 1. rewrite H3.
    apply mkstemp_Raise in H3 as (-> & Hfs & _).
    apply NamedTemporaryFile_Ok in H4 as (Hfree & Hfs1 & _).
    rewrite Hfs, Hfs1. auto.
Qed.

Lemma try_block_spawned (video_id : string) (metadata : TrackMetadata.t)
    (mp4 mp3 : string) (w w' : world) (r : outcome FileResponse) :
  try_block S E video_id metadata mp4 mp3 w = (r, w') ->
  spawned w' = spawned w \/ exists argv, spawned w' = (spawned w ++ [argv])%list.
Proof.
  unfold try_block, bind at 1.
  destruct (download_youtube_video E video_id mp4 w) as [[[]|e1] w1] eqn:Hdl;
    apply download_spawns_nothing in Hdl as Hsp1;
    [|intros [= <- <-]; left; exact Hsp1].
  unfold bind at 1.
  destruct (convert_mp4_to_mp3 S E mp4 mp3 w1) as [[[]|e2] w2] eqn:Hcv.
  - intros Hrun.
    assert (Hsp2 : spawned w' = spawned w2).
    { revert Hrun. unfold bind at 1, lift.
      destruct (http_get E _) as [response|e]; [|intros [= <- <-]; reflexivity].
      unfold bind at 1.
      assert (Hlog : (if negb (in_range_200_300 (httpx.status_code response))
                      then logger "error" "Could not fetch album cover. HTTP code: "
                      else ret tt) w2 = (Ok tt, w2)).
      { destruct (negb _); reflexivity. }
      rewrite Hlog. unfold bind at 1, images_set.
      destruct (image_refused E _); [intros [= <- <-]; reflexivity|].
      unfold ret at 1, bind, tag_save.
      destruct (save_fault E mp3); [intros [= <- <-]; reflexivity|].
      destruct (fs w2 !! mp3); intros [= <- <-]; reflexivity. }
    rewrite Hsp2.
    apply convert_spawns_at_most_once in Hcv as [Hsp | (argv & Hsp)];
      rewrite Hsp, Hsp1; eauto.
  - intros [= <- <-].
    apply convert_spawns_at_most_once in Hcv as [Hsp | (argv & Hsp)];
      rewrite Hsp, Hsp1; eauto.
Qed.

Lemma remove_spawned (p : string) (w w' : world) (r : outcome unit) :
  remove p w = (r, w') -> spawned w' = spawned w.
Proof. unfold remove. destruct (fs w !! p); intros [= <- <-]; reflexivity. Qed.

Lemma mkstemp_spawned (attempts : nat) (suffix : string) (w w' : world)
    (r : outcome string) :
  mkstemp E attempts suffix w = (r, w') -> spawned w' = spawned w.
Proof.
  destruct r as [p|e]; intros H.
  - apply mkstemp_Ok in H as (_ & _ & Hsp & _). exact Hsp.
  - apply mkstemp_Raise in H as (_ & _ & Hsp & _). exact Hsp.
Qed.

(** X15.  One request starts at most one process, however it ends: the
    encoder is never run a second time, and in mock mode nothing is run
    and no file is touched. *)
Theorem one_request_starts_at_most_one_process
    (video_id title artist album album_cover_url : string) (w w' : world)
    (r : outcome FileResponse) :
  download_video_as_mp3 S E video_id title artist album album_cover_url w = (r, w') ->
  (settings.MOCK_MODE S = true -> w' = w) /\
  (spawned w' = spawned w \/ exists argv, spawned w' = (spawned w ++ [argv])%list).
Proof.
  unfold download_video_as_mp3.
  destruct (settings.MOCK_MODE S).
  - intros [= <- <-]. auto.
  - intros Hrun. split; [discriminate|]. revert Hrun.
    unfold NamedTemporaryFile, bind at 1.
    destruct (mkstemp E (TMP_MAX E) ".mp4" w) as [[mp4|e4] w1] eqn:H4;
      apply mkstemp_spawned in H4; [|intros [= <- <-]; left; exact H4].
    unfold bind at 1.
    destruct (mkstemp E (TMP_MAX E) ".mp3" w1) as [[mp3|e3] w2] eqn:H3;
      apply mkstemp_spawned in H3; [|intros [= <- <-]; left; congruence].
    unfold try_except.
    destruct (try_block S E _ _ mp4 mp3 w2) as [[r0|e] w3] eqn:Htry;
      apply try_block_spawned in Htry.
    + intros [= <- <-]. rewrite H3, H4 in Htry. exact Htry.
    + unfold on_Exception, except_block, bind at 1, logger at 1, ret at 1, bind,
        remove_tmp_files, bind.
      destruct (remove mp4 w3) as [[[]|e1] w4] eqn:Hr1; apply remove_spawned in Hr1.
      * destruct (remove mp3 w4) as [[[]|e2] w5] eqn:Hr2; apply remove_spawned in Hr2;
          intros [= <- <-]; rewrite ?Hr2, Hr1; rewrite H3, H4 in Htry; exact Htry.
      * intros [= <- <-]. rewrite Hr1. rewrite H3, H4 in Htry. exact Htry.
Qed.

End EndpointExtras.

(** * The further pipeline properties on concrete runs *)

Section PipelineExtraRuns.
Import system utils main pipeline_notions pipeline_examples pipeline_more_examples.

Lemma download_touches_only_its_destination_witness :
  spawned (snd (download_youtube_video (staged 0 200) "abc" "/tmp/a.mp4"
                  (two_placeholders "/tmp/a.mp4" "/tmp/b.mp3")))
  = spawned (two_placeholders "/tmp/a.mp4" "/tmp/b.mp3") /\
  fs (snd (download_youtube_video (staged 0 200) "abc" "/tmp/a.mp4"
             (two_placeholders "/tmp/a.mp4" "/tmp/b.mp3"))) !! "/tmp/b.mp3"
  = fs (two_placeholders "/tmp/a.mp4" "/tmp/b.mp3") !! "/tmp/b.mp3".
Proof.
  destruct (download_touches_only_its_destination (staged 0 200) "abc" "/tmp/a.mp4"
              (two_placeholders "/tmp/a.mp4" "/tmp/b.mp3")
              (snd (download_youtube_video (staged 0 200) "abc" "/tmp/a.mp4"
                      (two_placeholders "/tmp/a.mp4" "/tmp/b.mp3")))
              (Ok tt))
    as (Hother & _ & Hspawned & _).
  - vm_compute. reflexivity.
  - split; [exact Hspawned|]. apply Hother. discriminate.
Defined.

Lemma download_passes_on_service_failures_witness :
  download_youtube_video (staged 0 200) "abc" "/tmp/a.mp4"
    (two_placeholders "/tmp/a.mp4" "/tmp/b.mp3")
  = (Ok tt,
     set_fs (<["/tmp/a.mp4" := {| data := [Byte.x01]; id3 := None |}]>
               (fs (two_placeholders "/tmp/a.mp4" "/tmp/b.mp3")))
       (two_placeholders "/tmp/a.mp4" "/tmp/b.mp3")).
Proof.
  refine (proj2 (proj2 (download_passes_on_service_failures (staged 0 200) "abc"
                          "/tmp/a.mp4" (two_placeholders "/tmp/a.mp4" "/tmp/b.mp3") _))
            [Byte.x01] _).
  - vm_compute. eauto.
  - reflexivity.
Defined.

Lemma convert_refuses_before_running_anything_witness :
  exists args,
    convert_mp4_to_mp3 (configured "/usr/bin/ffmpeg") (staged 0 200)
      "/tmp/a.mp4" "/tmp/b.wav" (two_placeholders "/tmp/a.mp4" "/tmp/b.wav")
    = (Raise (IOError args), two_placeholders "/tmp/a.mp4" "/tmp/b.wav").
Proof.
  apply (convert_refuses_before_running_anything (configured "/usr/bin/ffmpeg")
           (staged 0 200) "/tmp/a.mp4" "/tmp/b.wav"
           (two_placeholders "/tmp/a.mp4" "/tmp/b.wav")).
  vm_compute. reflexivity.
Defined.

Lemma convert_runs_the_command_line_witness :
  (spawned (snd (convert_mp4_to_mp3 (configured "/usr/bin/ffmpeg") (staged 0 200)
                   "/tmp/my music/a.mp4" "/tmp/b.mp3"
                   (two_placeholders "/tmp/my music/a.mp4" "/tmp/b.mp3")))
   = spawned (two_placeholders "/tmp/my music/a.mp4" "/tmp/b.mp3") /\
   fs (snd (convert_mp4_to_mp3 (configured "/usr/bin/ffmpeg") (staged 0 200)
              "/tmp/my music/a.mp4" "/tmp/b.mp3"
              (two_placeholders "/tmp/my music/a.mp4" "/tmp/b.mp3")))
   = fs (two_placeholders "/tmp/my music/a.mp4" "/tmp/b.mp3")) \/
  exists argv,
    spawned (snd (convert_mp4_to_mp3 (configured "/usr/bin/ffmpeg") (staged 0 200)
                    "/tmp/my music/a.mp4" "/tmp/b.mp3"
                    (two_placeholders "/tmp/my music/a.mp4" "/tmp/b.mp3")))
    = (spawned (two_placeholders "/tmp/my music/a.mp4" "/tmp/b.mp3") ++ [argv])%list /\
    join " " argv = "/usr/bin/ffmpeg -i /tmp/my music/a.mp4 -ab 320k -y /tmp/b.mp3" /\
    match run_process (staged 0 200) argv
            (fs (two_placeholders "/tmp/my music/a.mp4" "/tmp/b.mp3")) with
    | Exited _ written =>
        fs (snd (convert_mp4_to_mp3 (configured "/usr/bin/ffmpeg") (staged 0 200)
                   "/tmp/my music/a.mp4" "/tmp/b.mp3"
                   (two_placeholders "/tmp/my music/a.mp4" "/tmp/b.mp3")))
        = write_all written (fs (two_placeholders "/tmp/my music/a.mp4" "/tmp/b.mp3"))
    | SpawnFailed _ =>
        fs (snd (convert_mp4_to_mp3 (configured "/usr/bin/ffmpeg") (staged 0 200)
                   "/tmp/my music/a.mp4" "/tmp/b.mp3"
                   (two_placeholders "/tmp/my music/a.mp4" "/tmp/b.mp3")))
        = fs (two_placeholders "/tmp/my music/a.mp4" "/tmp/b.mp3")
    end.
Proof.
  apply (convert_runs_the_command_line (configured "/usr/bin/ffmpeg") (staged 0 200)
           "/tmp/my music/a.mp4" "/tmp/b.mp3"
           (two_placeholders "/tmp/my music/a.mp4" "/tmp/b.mp3") _ (Ok tt)).
  vm_compute. reflexivity.
Defined.

Lemma deferred_cleanup_removes_both_placeholders_witness :
  exists mp4 mp3 w'',
    path (acquired_response) = mp3 /\
    background (acquired_response) = Some (remove_tmp_files_task mp4 mp3) /\
    is_Some (fs acquired_world !! mp4) /\ is_Some (fs acquired_world !! mp3) /\
    run_background (background (acquired_response)) acquired_world = (Ok tt, w'') /\
    fs w'' !! mp4 = None /\ fs w'' !! mp3 = None /\
    forall p, p <> mp4 -> p <> mp3 -> fs w'' !! p = fs acquired_world !! p.
Proof.
  apply (deferred_cleanup_removes_both_placeholders (configured "/usr/bin/ffmpeg")
           (staged 0 200) "abc" "T" "A" "B" "http://x/y.jpg" empty_world).
  - reflexivity.
  - vm_compute. reflexivity.
Defined.

Lemma failed_allocation_is_not_cleaned_up_witness :
  download_video_as_mp3 (configured "/usr/bin/ffmpeg") one_name
    "abc" "T" "A" "B" "http://x/y.jpg" (only_file "/tmp/x.mp3")
  = (Raise FileExistsError,
     snd (NamedTemporaryFile one_name ".mp3"
            (snd (NamedTemporaryFile one_name ".mp4" (only_file "/tmp/x.mp3"))))) /\
  fs (only_file "/tmp/x.mp3") !! "/tmp/x.mp4" = None /\
  fs (snd (NamedTemporaryFile one_name ".mp3"
             (snd (NamedTemporaryFile one_name ".mp4" (only_file "/tmp/x.mp3")))))
  = <["/tmp/x.mp4" := empty_file]> (fs (only_file "/tmp/x.mp3")).
Proof.
  refine (proj2 (failed_allocation_is_not_cleaned_up (configured "/usr/bin/ffmpeg") one_name
                   "abc" "T" "A" "B" "http://x/y.jpg" (only_file "/tmp/x.mp3") _)
            "/tmp/x.mp4" (snd (NamedTemporaryFile one_name ".mp4" (only_file "/tmp/x.mp3")))
            FileExistsError _ _ _).
  - reflexivity.
  - vm_compute. reflexivity.
  - vm_compute. reflexivity.
Defined.

Lemma one_request_starts_at_most_one_process_witness :
  spawned (snd (download_video_as_mp3 (configured "/usr/bin/ffmpeg") (staged 1 200)
                  "abc" "T" "A" "B" "http://x/y.jpg" empty_world))
  = spawned empty_world \/
  exists argv,
    spawned (snd (download_video_as_mp3 (configured "/usr/bin/ffmpeg") (staged 1 200)
                    "abc" "T" "A" "B" "http://x/y.jpg" empty_world))
    = (spawned empty_world ++ [argv])%list.
Proof.
  refine (proj2 (one_request_starts_at_most_one_process (configured "/usr/bin/ffmpeg")
                   (staged 1 200) "abc" "T" "A" "B" "http://x/y.jpg" empty_world _
                   (Raise (Exception "Could not convert mp4 to mp3.")) _)).
  vm_compute. reflexivity.
Defined.

End PipelineExtraRuns.

(** * Further properties of the Spotify lookups *)

Section LookupExtras.
Import cache_storage utils notions lookup_notions.
Variable S : settings.t.
Variable V : services.

Lemma bind_Ok {W A B} (c : M W A) (k : A -> M W B) (w w' : W) (a : A) :
  c w = (Ok a, w') -> bind c k w = k a w'.
Proof. intros H. unfold bind. rewrite H. reflexivity. Qed.

Lemma bind_Raise {W A B} (c : M W A) (k : A -> M W B) (w w' : W) (e : exn) :
  c w = (Raise e, w') -> bind c k w = (Raise e, w').
Proof. intros H. unfold bind. rewrite H. reflexivity. Qed.

Lemma try_except_handled {W A} (c : M W A) (h : exn -> option (M W A)) (k : M W A)
    (w w' : W) (e : exn) :
  c w = (Raise e, w') -> h e = Some k -> try_except c h w = k w'.
Proof. intros H Hh. unfold try_except. rewrite H, Hh. reflexivity. Qed.

Lemma try_except_Ok {W A} (c : M W A) (h : exn -> option (M W A)) (w w' : W) (a : A) :
  c w = (Ok a, w') -> try_except c h w = (Ok a, w').
Proof. intros H. unfold try_except. rewrite H. reflexivity. Qed.

Lemma dict_get_in_keys {A} (d : list (string * A)) (key : string) :
  existsb (String.eqb key) (dict_keys d)
  = match dict_get d key with Some _ => true | None => false end.
Proof.
  induction d as [|[k y] d IH]; [reflexivity|].
  cbn. rewrite String.eqb_sym. destruct (String.eqb k key); [reflexivity | exact IH].
Qed.

(** The first block of [get_spotify_api_token], when it finds no token. *)
Lemma token_request_after_cache (cache : option CacheStorage) (w w' : world) :
  no_cached_token V cache w w' ->
  get_spotify_api_token S V cache w
  = bind (lift (post V (settings.SPOTIFY_API_TOKEN_URL S) (grant_request S)))
      (fun response =>
         let* data := lift (httpx.json response) in
         let* has_error := lift (py_in "error" data) in
         if has_error then
           let* error := lift (getitem_str data "error") in
           logger "error" "Error fetching a new spotify access token. Error:" >>
           ret None
         else
           let* access_token := lift (getitem_str data "access_token") in
           let* t := now (clock V) in
           let* expires_in := lift (getitem_str data "expires_in") in
           let* expires_in' := lift (py_int V expires_in) in
           let* token :=
             SpotifyAPIToken_model_validate V
               (PDict [("token", access_token);
                       ("expires_at", PInt (Z.quot t usec + expires_in'))]) in
           match cache with
           | Some c =>
               set_item (clock V) c "spotify_api_token" (SpotifyAPIToken.model_dump token)
           | None => ret tt
           end >>
           logger "info" "Fetched new Spotify access token." >>
           ret (Some (SpotifyAPIToken.token token))) w'.
Proof.
  intros Hmiss. unfold get_spotify_api_token. cbv zeta.
  destruct cache as [c|]; unfold no_cached_token in Hmiss.
  - destruct Hmiss as (item & w1 & Hget & Hval).
    rewrite (bind_Ok _ _ w w' None); [reflexivity|].
    rewrite (try_except_handled _ _ (ret None) w w' ValidationError); [reflexivity | | reflexivity].
    rewrite (bind_Ok _ _ w w1 item Hget). apply bind_Raise. exact Hval.
  - subst w'. reflexivity.
Qed.

Lemma model_validate_fields (x : pyval) (token : string) (n : Z) (w : world) :
  token_fields V x = Some (Some token, Some n) ->
  SpotifyAPIToken_model_validate V x w
  = (if n * usec <=? clock V (reads w) then Raise ValidationError
     else Ok {| SpotifyAPIToken.token := token; SpotifyAPIToken.expires_at := n |},
     set_reads (Datatypes.S (reads w)) w).
Proof.
  intros H. unfold SpotifyAPIToken_model_validate. rewrite H.
  unfold bind, now. destruct (n * usec <=? clock V (reads w)); reflexivity.
Qed.

(** X16.  A refusal is not cached and becomes a server error: when the
    cache holds no valid token and the token service answers with a JSON
    object that has an [error] key, [get_spotify_api_token] returns [None]
    without writing anything, and a search that had to ask for the token
    raises [HTTPException] with status 500. *)
Theorem refused_grant_is_a_server_error (cache : option CacheStorage)
    (w w' : world) (response : httpx.Response) (d : list (string * pyval)) (err : pyval) :
  no_cached_token V cache w w' ->
  post V (settings.SPOTIFY_API_TOKEN_URL S) (grant_request S) = Ok response ->
  httpx.json response = Ok (PDict d) ->
  dict_get d "error" = Some err ->
  get_spotify_api_token S V cache w = (Ok None, w') /\
  forall (partial_metadata : PartialTrackMetadata.t) (w0 : world),
    cached_metadata_options V cache (cache_key_of V partial_metadata) w0 = (Ok None, w) ->
    search_track_metadata_options S V partial_metadata cache w0
    = (Raise (HTTPException 500 "Internal Server Error"), w').
Proof.
  intros Hmiss Hpost Hjson Herr.
  assert (Htoken : get_spotify_api_token S V cache w = (Ok None, w')).
  { rewrite (token_request_after_cache cache w w' Hmiss).
    unfold bind at 1, lift. rewrite Hpost. unfold bind at 1. rewrite Hjson.
    unfold bind at 1, py_in. rewrite dict_get_in_keys, Herr.
    unfold bind at 1, lift, getitem_str. rewrite Herr. reflexivity. }
  split; [exact Htoken|].
  intros partial_metadata w0 Hcached.
  unfold search_track_metadata_options. cbv zeta.
  unfold bind at 1. rewrite Hcached. unfold bind at 1. rewrite Htoken. reflexivity.
Qed.

(** X17.  A grant is cached for as long as it says: when the token service
    answers with an object without [error], whose [access_token] and
    computed [expires_at] (the second of issue plus [expires_in]) pydantic
    accepts, then, if that [expires_at] still lies ahead, the token is
    stored under [spotify_api_token] with its [expires_at] and returned;
    if it does not lie ahead, [ValidationError] is raised and nothing is
    stored. *)
Theorem grant_is_cached_with_its_expiry (c : CacheStorage)
    (w w' : world) (response : httpx.Response) (d : list (string * pyval))
    (access_token expires_in : pyval) (n : Z) (token : string) :
  no_cached_token V (Some c) w w' ->
  post V (settings.SPOTIFY_API_TOKEN_URL S) (grant_request S) = Ok response ->
  httpx.json response = Ok (PDict d) ->
  dict_get d "error" = None ->
  dict_get d "access_token" = Some access_token ->
  dict_get d "expires_in" = Some expires_in ->
  py_int V expires_in = Ok n ->
  token_fields V (PDict [("token", access_token);
                         ("expires_at", PInt (Z.quot (clock V (reads w')) usec + n))])
  = Some (Some token, Some (Z.quot (clock V (reads w')) usec + n)) ->
  let expires_at := Z.quot (clock V (reads w')) usec + n in
  let issued := set_reads (Datatypes.S (Datatypes.S (reads w'))) w' in
  (clock V (Datatypes.S (reads w')) < expires_at * usec ->
   get_spotify_api_token S V (Some c) w
   = (let (r, w'') :=
        set_item (clock V) c "spotify_api_token"
          (PDict [("token", PStr token); ("expires_at", PInt expires_at)]) issued in
      (match r with Ok _ => Ok (Some token) | Raise e => Raise e end, w''))) /\
  (expires_at * usec <= clock V (Datatypes.S (reads w')) ->
   get_spotify_api_token S V (Some c) w = (Raise ValidationError, issued)).
Proof.
  intros Hmiss Hpost Hjson Herr Haccess Hexpires Hint Hfields expires_at issued.
  rewrite (token_request_after_cache (Some c) w w' Hmiss).
  rewrite (bind_Ok _ _ w' w' response) by (unfold lift; rewrite Hpost; reflexivity).
  rewrite (bind_Ok _ _ w' w' (PDict d)) by (unfold lift; rewrite Hjson; reflexivity).
  rewrite (bind_Ok _ _ w' w' false)
    by (unfold lift, py_in; rewrite dict_get_in_keys, Herr; reflexivity).
  rewrite (bind_Ok _ _ w' w' access_token)
    by (unfold lift, getitem_str; rewrite Haccess; reflexivity).
  rewrite (bind_Ok _ _ w' (set_reads (Datatypes.S (reads w')) w') (clock V (reads w')))
    by reflexivity.
  rewrite (bind_Ok _ _ _ (set_reads (Datatypes.S (reads w')) w') expires_in)
    by (unfold lift, getitem_str; rewrite Hexpires; reflexivity).
  rewrite (bind_Ok _ _ _ (set_reads (Datatypes.S (reads w')) w') n)
    by (unfold lift; rewrite Hint; reflexivity).
  pose proof (model_validate_fields _ token expires_at
                (set_reads (Datatypes.S (reads w')) w') Hfields) as Hval.
  cbn [reads set_reads] in Hval.
  change (set_reads (Datatypes.S (Datatypes.S (reads w')))
            (set_reads (Datatypes.S (reads w')) w')) with issued in Hval.
  split; intros Hvalid.
  - destruct (Z.leb_spec (expires_at * usec) (clock V (Datatypes.S (reads w')))); [lia|].
    rewrite (bind_Ok _ _ _ _ _ Hval).
    unfold bind, logger, ret.
    change (SpotifyAPIToken.model_dump _)
      with (PDict [("token", PStr token); ("expires_at", PInt expires_at)]).
    destruct (set_item (clock V) c "spotify_api_token" _ issued) as [[[]|e] w'']; reflexivity.
  - destruct (Z.leb_spec (expires_at * usec) (clock V (Datatypes.S (reads w')))); [|lia].
    apply bind_Raise. exact Hval.
Qed.

(** X18.  A cached token is reused exactly while its own [expires_at]
    lies strictly ahead: when [get_item] returns a value whose fields
    pydantic extracts, [get_spotify_api_token] returns that token if the
    clock reads less than [expires_at], having done nothing but read the
    clock; from [expires_at] on the cache counts as holding no token. *)
Theorem cached_token_is_reused_while_valid (c : CacheStorage) (w w1 : world)
    (item : pyval) (token : string) (n : Z) :
  get_item (clock V) c "spotify_api_token" w = (Ok item, w1) ->
  token_fields V item = Some (Some token, Some n) ->
  (clock V (reads w1) < n * usec ->
   get_spotify_api_token S V (Some c) w
   = (Ok (Some token), set_reads (Datatypes.S (reads w1)) w1)) /\
  (n * usec <= clock V (reads w1) ->
   no_cached_token V (Some c) w (set_reads (Datatypes.S (reads w1)) w1)).
Proof.
  intros Hget Hfields.
  pose proof (model_validate_fields item token n w1 Hfields) as Hval.
  split; intros Hnow.
  - destruct (Z.leb_spec (n * usec) (clock V (reads w1))); [lia|].
    unfold get_spotify_api_token. cbv zeta.
    rewrite (bind_Ok _ _ w (set_reads (Datatypes.S (reads w1)) w1) (Some token));
      [reflexivity|].
    apply try_except_Ok.
    rewrite (bind_Ok _ _ w w1 item Hget).
    rewrite (bind_Ok _ _ _ _ _ Hval). reflexivity.
  - destruct (Z.leb_spec (n * usec) (clock V (reads w1))); [|lia].
    exists item, w1. split; [exact Hget | exact Hval].
Qed.

Lemma for_each_metadata_option (items : list SpotifyTrack.t) (w : world) :
  (Forall (fun track => ~ without_image track) items ->
   exists options,
     Forall2 describes items options /\
     for_each metadata_option items w = (Ok options, w)) /\
  (Exists without_image items ->
   for_each metadata_option items w = (Raise IndexError, w)).
Proof.
  induction items as [|track items [IHok IHbad]]; split.
  - intros _. exists []. split; [constructor | reflexivity].
  - intros H. inversion H.
  - intros Hall. inversion Hall as [|? ? Htrack Hrest]; subst.
    destruct (IHok Hrest) as (options & Hdesc & Hrun).
    unfold without_image in Htrack.
    destruct (SpotifyAlbum.images (SpotifyTrack.album track)) as [|image rest] eqn:Himg;
      [contradiction|].
    exists ({| TrackMetadata.artist :=
                 join " & " (map SpotifyArtist.name (SpotifyTrack.artists track));
               TrackMetadata.title := SpotifyTrack.name track;
               TrackMetadata.album := SpotifyAlbum.name (SpotifyTrack.album track);
               TrackMetadata.album_cover_url := SpotifyAlbumImage.url image |} :: options).
    split.
    + constructor; [|exact Hdesc].
      unfold describes. cbn. split; [reflexivity|]. split; [reflexivity|].
      split; [reflexivity|]. exists image, rest. split; [exact Himg | reflexivity].
    + cbn [for_each].
      erewrite bind_Ok by (unfold metadata_option; rewrite Himg; reflexivity).
      rewrite (bind_Ok _ _ w w options Hrun). reflexivity.
  - intros Hex. cbn [for_each].
    destruct (SpotifyAlbum.images (SpotifyTrack.album track)) as [|image rest] eqn:Himg.
    + apply bind_Raise. unfold metadata_option. rewrite Himg. reflexivity.
    + erewrite bind_Ok by (unfold metadata_option; rewrite Himg; reflexivity).
      inversion Hex as [? ? Htrack | ? ? Hrest]; subst.
      * unfold without_image in Htrack. congruence.
      * apply bind_Raise. apply IHbad, Hrest.
Qed.

(** X19.  A search answers with one option per track, in order: each has
    the track's name as title, its artists' names joined by [ & ], the
    album's name and the address of the album's first image, and the list
    is what is written to the cache before it is returned.  A track whose
    album has no image makes the search raise [IndexError], with nothing
    written. *)
Theorem search_describes_every_track
    (partial_metadata : PartialTrackMetadata.t) (cache : option CacheStorage)
    (w w1 w2 : world) (token : string) (response : httpx.Response) (body : pyval)
    (data : SpotifySearchResponse.t) :
  cached_metadata_options V cache (cache_key_of V partial_metadata) w = (Ok None, w1) ->
  get_spotify_api_token S V cache w1 = (Ok (Some token), w2) ->
  get V (search_url S V partial_metadata) (String.append "Bearer " token) = Ok response ->
  in_range_200_300 (httpx.status_code response) = true ->
  httpx.json response = Ok body ->
  validate_search_response V body = Some data ->
  let items := SpotifyTracksResult.items (SpotifySearchResponse.tracks data) in
  (Forall (fun track => ~ without_image track) items ->
   exists options,
     Forall2 describes items options /\
     search_track_metadata_options S V partial_metadata cache w
     = bind (remember V cache (cache_key_of V partial_metadata) options)
         (fun _ => ret options) w2) /\
  (Exists without_image items ->
   search_track_metadata_options S V partial_metadata cache w = (Raise IndexError, w2)).
Proof.
  intros Hcached Htoken Hget Hstatus Hjson Hvalid items.
  assert (Hrun : search_track_metadata_options S V partial_metadata cache w
                 = bind (for_each metadata_option items)
                     (fun options =>
                        remember V cache (cache_key_of V partial_metadata) options >>
                        ret options) w2).
  { unfold search_track_metadata_options. cbv zeta.
    rewrite (bind_Ok _ _ w w1 None Hcached).
    rewrite (bind_Ok _ _ w1 w2 (Some token) Htoken).
    rewrite (bind_Ok _ _ w2 w2 response) by (unfold lift; rewrite Hget; reflexivity).
    rewrite (bind_Ok _ _ w2 w2 tt) by reflexivity.
    rewrite Hstatus. cbn [negb].
    rewrite (bind_Ok _ _ w2 w2 (Some data)); [reflexivity|].
    apply try_except_Ok.
    rewrite (bind_Ok _ _ w2 w2 body) by (unfold lift; rewrite Hjson; reflexivity).
    rewrite Hvalid. reflexivity. }
  destruct (for_each_metadata_option items w2) as [Hok Hbad].
  split.
  - intros Hall. destruct (Hok Hall) as (options & Hdesc & Heach).
    exists options. split; [exact Hdesc|].
    rewrite Hrun, (bind_Ok _ _ w2 w2 options Heach). reflexivity.
  - intros Hex. rewrite Hrun. apply bind_Raise. apply Hbad, Hex.
Qed.

Lemma model_dumps_are_json (options : list TrackMetadata.t) :
  is_json (PList (map TrackMetadata.model_dump options)) = true.
Proof. induction options as [|m options IH]; [reflexivity | exact IH]. Qed.

Lemma for_each_validates_dumps (options : list TrackMetadata.t) (w : world) :
  (forall m, validate_track_metadata V (TrackMetadata.model_dump m) = Some m) ->
  for_each (TrackMetadata_model_validate V) (map TrackMetadata.model_dump options) w
  = (Ok options, w).
Proof.
  intros Hround. induction options as [|m options IH]; [reflexivity|].
  cbn [map for_each]. unfold bind at 1, TrackMetadata_model_validate at 1.
  rewrite Hround. unfold ret at 1. unfold bind at 1. rewrite IH. reflexivity.
Qed.

(** X20.  What a search cached serves the next process: provided pydantic
    validates the dump of a [TrackMetadata] back to it, the list that was
    written under the search's key is what
    [search_track_metadata_options] returns after a restart, as long as
    the clock has not passed the expiration; nothing is written and only
    the clock is read. *)
Theorem cached_search_is_served_after_a_restart
    (partial_metadata : PartialTrackMetadata.t) (c : CacheStorage)
    (options : list TrackMetadata.t) (w w' : world) :
  (forall m, validate_track_metadata V (TrackMetadata.model_dump m) = Some m) ->
  set_item (clock V) c (cache_key_of V partial_metadata)
    (PList (map TrackMetadata.model_dump options)) w = (Ok tt, w') ->
  clock V (reads w') <= expiration (clock V) c w * usec ->
  search_track_metadata_options S V partial_metadata (Some c)
    (cache_sessions.restart w')
  = (Ok options, set_reads (Datatypes.S (reads w')) (cache_sessions.restart w')).
Proof.
  intros Hround Hset Hnow.
  destruct (set_item_Ok (clock V) _ _ _ _ _ Hset) as (_ & _ & d & Hd & Hk).
  rewrite (to_json_fixed _ (model_dumps_are_json options)) in Hk.
  assert (Hget : get_item (clock V) c (cache_key_of V partial_metadata)
                   (cache_sessions.restart w')
                 = (Ok (PList (map TrackMetadata.model_dump options)),
                    set_reads (Datatypes.S (reads w')) (cache_sessions.restart w'))).
  { rewrite get_item_mem_miss by apply lookup_empty.
    rewrite (get_item_durable_pair (clock V) c _ (cache_sessions.restart w') d
               (PList (map TrackMetadata.model_dump options)) (expiration (clock V) c w)).
    - cbn [reads cache_sessions.restart].
      destruct (Z.ltb_spec (expiration (clock V) c w * usec) (clock V (reads w')));
        [lia | reflexivity].
    - cbn. rewrite Hd. apply lookup_insert_eq.
    - exact Hk. }
  unfold search_track_metadata_options. cbv zeta.
  rewrite (bind_Ok _ _ _ (set_reads (Datatypes.S (reads w')) (cache_sessions.restart w'))
             (Some options)); [reflexivity|].
  unfold cached_metadata_options. apply try_except_Ok.
  rewrite (bind_Ok _ _ _ _ _ Hget).
  rewrite (bind_Ok _ _ _ (set_reads (Datatypes.S (reads w')) (cache_sessions.restart w'))
             (map TrackMetadata.model_dump options)) by reflexivity.
  rewrite (bind_Ok _ _ _ _ _ (for_each_validates_dumps options _ Hround)). reflexivity.
Qed.

End LookupExtras.

(** * The further lookup properties on concrete runs *)

Section LookupExtraRuns.
Import cache_storage utils notions cache_sessions examples pipeline_examples
  search_examples lookup_notions lookup_examples lookup_more_examples.

Lemma refused_grant_is_a_server_error_witness :
  get_spotify_api_token (configured "/usr/bin/ffmpeg") (granting refusal []) None (started ∅)
  = (Ok None, started ∅).
Proof.
  refine (proj1 (refused_grant_is_a_server_error (configured "/usr/bin/ffmpeg")
                   (granting refusal []) None (started ∅) (started ∅)
                   {| httpx.status_code := 200; httpx.content := [];
                      httpx.json := Ok refusal |}
                   [("error", PStr "invalid_client")] (PStr "invalid_client") _ _ _ _)).
  - reflexivity.
  - reflexivity.
  - reflexivity.
  - reflexivity.
Defined.

Lemma grant_is_cached_with_its_expiry_witness :
  get_spotify_api_token (configured "/usr/bin/ffmpeg") (granting good_grant [])
    (Some ten_seconds) (started ∅)
  = (let (r, w'') :=
       set_item (ticking usec) ten_seconds "spotify_api_token"
         (PDict [("token", PStr "granted"); ("expires_at", PInt 1700003600)])
         (set_reads 2 (started ∅)) in
     (match r with Ok _ => Ok (Some "granted") | Raise e => Raise e end, w'')).
Proof.
  refine (proj1 (grant_is_cached_with_its_expiry (configured "/usr/bin/ffmpeg")
                   (granting good_grant []) ten_seconds (started ∅) (started ∅)
                   {| httpx.status_code := 200; httpx.content := [];
                      httpx.json := Ok good_grant |}
                   [("access_token", PStr "granted"); ("expires_in", PInt 3600)]
                   (PStr "granted") (PInt 3600) 3600 "granted" _ _ _ _ _ _ _ _) _).
  - exists PNone, (started ∅). split; vm_compute; reflexivity.
  - reflexivity.
  - reflexivity.
  - reflexivity.
  - reflexivity.
  - reflexivity.
  - reflexivity.
  - vm_compute. reflexivity.
  - vm_compute. reflexivity.
Defined.

Lemma cached_token_is_reused_while_valid_witness :
  get_spotify_api_token (configured "/usr/bin/ffmpeg") (granting refusal [])
    (Some ten_seconds) kept_token
  = (Ok (Some "kept"), set_reads 2 kept_token).
Proof.
  refine (proj1 (cached_token_is_reused_while_valid (configured "/usr/bin/ffmpeg")
                   (granting refusal []) ten_seconds kept_token (set_reads 1 kept_token)
                   (PDict [("token", PStr "kept"); ("expires_at", PInt 1700000500)])
                   "kept" 1700000500 _ _) _).
  - vm_compute. reflexivity.
  - reflexivity.
  - vm_compute. reflexivity.
Defined.

Lemma search_describes_every_track_witness :
  exists options,
    Forall2 describes [one_track] options /\
    search_track_metadata_options (configured "/usr/bin/ffmpeg")
      (granting good_grant [one_track]) some_track None (started ∅)
    = bind (remember (granting good_grant [one_track]) None "T|A" options)
        (fun _ => ret options) (set_reads 2 (started ∅)).
Proof.
  refine (proj1 (search_describes_every_track (configured "/usr/bin/ffmpeg")
                   (granting good_grant [one_track]) some_track None
                   (started ∅) (started ∅) (set_reads 2 (started ∅)) "granted"
                   {| httpx.status_code := 200; httpx.content := [];
                      httpx.json := Ok PNone |}
                   PNone
                   {| SpotifySearchResponse.tracks :=
                        {| SpotifyTracksResult.total := 1;
                           SpotifyTracksResult.items := [one_track] |} |}
                   _ _ _ _ _ _) _).
  - reflexivity.
  - vm_compute. reflexivity.
  - reflexivity.
  - reflexivity.
  - reflexivity.
  - reflexivity.
  - constructor; [discriminate | constructor].
Defined.

Lemma cached_search_is_served_after_a_restart_witness :
  search_track_metadata_options (configured "/usr/bin/ffmpeg")
    (granting refusal []) some_track (Some ten_seconds)
    (restart (snd (set_item (ticking usec) ten_seconds "T|A"
                     (PList (map TrackMetadata.model_dump [one_option])) (started ∅))))
  = (Ok [one_option],
     set_reads 2
       (restart (snd (set_item (ticking usec) ten_seconds "T|A"
                        (PList (map TrackMetadata.model_dump [one_option])) (started ∅))))).
Proof.
  apply (cached_search_is_served_after_a_restart (configured "/usr/bin/ffmpeg")
           (granting refusal []) some_track ten_seconds [one_option] (started ∅)).
  - intros [t a b c]. reflexivity.
  - vm_compute. reflexivity.
  - vm_compute. discriminate.
Defined.

End LookupExtraRuns.

(** * Properties of the video search and of the logging switch *)

Section ThumbnailFacts.
Import video_search.

Lemma sorted_by_area_head (l : list Thumbnail) :
  match sorted_by_area l with
  | [] => l = []
  | t :: _ =>
      exists before after,
        l = (before ++ t :: after)%list /\
        (forall u, In u before -> area u < area t) /\
        (forall u, In u after -> area u <= area t)
  end.
Proof.
  induction l as [|a rest IH]; [reflexivity|].
  cbn [sorted_by_area].
  destruct (sorted_by_area rest) as [|t s].
  - subst rest. cbn. exists [], []. repeat split; intros u [].
  - destruct IH as (before & after & -> & Hbefore & Hafter).
    cbn [insert_by_area].
    destruct (Z.ltb_spec (area a) (area t)) as [Hlt | Hge].
    + exists (a :: before), after. repeat split.
      * intros u [<- | Hu]; [exact Hlt | apply Hbefore, Hu].
      * exact Hafter.
    + exists [], (before ++ t :: after)%list. repeat split.
      * intros u [].
      * intros u Hu. apply in_app_or in Hu as [Hu | [<- | Hu]].
        -- specialize (Hbefore u Hu). lia.
        -- exact Hge.
        -- specialize (Hafter u Hu). lia.
Qed.

Lemma before_question_mark_splits (s : string) :
  exists query,
    s = String.append (before_question_mark s) query /\
    (query = EmptyString \/ exists q, query = String "?"%char q).
Proof.
  induction s as [|c s (query & Hs & Hq)].
  - exists EmptyString. split; [reflexivity | left; reflexivity].
  - cbn [before_question_mark].
    destruct (Ascii.eqb_spec c "?"%char) as [-> | Hc].
    + exists (String "?"%char s). split; [reflexivity | right; eauto].
    + exists query. split; [|exact Hq].
      change (String.append (String c (before_question_mark s)) query)
        with (String c (String.append (before_question_mark s) query)).
      rewrite <- Hs. reflexivity.
Qed.

Lemma before_question_mark_has_none (s : string) (i : nat) :
  String.get i (before_question_mark s) <> Some "?"%char.
Proof.
  revert i. induction s as [|c s IH]; intros i; [destruct i; discriminate|].
  cbn [before_question_mark].
  destruct (Ascii.eqb_spec c "?"%char) as [-> | Hc]; [destruct i; discriminate|].
  destruct i as [|i]; cbn; [congruence | apply IH].
Qed.

(** X21.  The thumbnail a search result is presented with is the largest
    one by area, the earliest of them when several are as large, and its
    address is cut before the first question mark; a result without
    thumbnails raises [IndexError]. *)
Theorem largest_thumbnail_is_presented (result : YouTube) (l : list Thumbnail) :
  thumbnails result = Ok l ->
  (l = [] -> thumbnail_url_of result = Raise IndexError) /\
  (l <> [] ->
   exists t before after query,
     l = (before ++ t :: after)%list /\
     (forall u, In u before -> area u < area t) /\
     (forall u, In u after -> area u <= area t) /\
     thumbnail_url_of result = Ok (before_question_mark (url t)) /\
     url t = String.append (before_question_mark (url t)) query /\
     (query = EmptyString \/ exists q, query = String "?"%char q) /\
     forall i, String.get i (before_question_mark (url t)) <> Some "?"%char).
Proof.
  intros Hl. unfold thumbnail_url_of. rewrite Hl. split.
  - intros ->. reflexivity.
  - intros Hne. pose proof (sorted_by_area_head l) as Hhead.
    destruct (sorted_by_area l) as [|t s]; [contradiction|].
    destruct Hhead as (before & after & -> & Hbefore & Hafter).
    destruct (before_question_mark_splits (url t)) as (query & Hsplit & Hquery).
    exists t, before, after, query.
    split; [reflexivity|]. split; [exact Hbefore|]. split; [exact Hafter|].
    split; [reflexivity|]. split; [exact Hsplit|]. split; [exact Hquery|].
    apply before_question_mark_has_none.
Qed.

End ThumbnailFacts.

Section VideoSearchFacts.
Import cache_storage utils video_search.
Variable S : settings.t.
Variable P : video_services.

Lemma video_search_result_world (result : YouTube) (w : world) :
  (exists m, presents result m /\ video_search_result result w = (Ok m, w)) \/
  (unpresentable result /\ exists e, video_search_result result w = (Raise e, w)).
Proof.
  unfold video_search_result, presents, unpresentable, bind, lift.
  destruct (title result) as [t|e] eqn:Ht; [|right; split; eauto].
  destruct (author result) as [a|e] eqn:Ha; [|right; split; eauto].
  destruct (thumbnail_url_of result) as [u|e] eqn:Hu; [|right; split; eauto 6].
  left. eexists. split; [|reflexivity]. cbn. auto.
Qed.

Lemma presents_functional (result : YouTube) (m m' : VideoSearchResult.t) :
  presents result m -> presents result m' -> m = m'.
Proof.
  destruct m, m'. unfold presents. cbn.
  intros (-> & -> & Ht & Ha & Hu) (-> & -> & Ht' & Ha' & Hu'). congruence.
Qed.

Lemma for_each_presents (results : list YouTube) (finals : list VideoSearchResult.t)
    (w : world) :
  Forall2 presents results finals ->
  for_each video_search_result results w = (Ok finals, w).
Proof.
  induction 1 as [|result m results finals Hm _ IH]; [reflexivity|].
  cbn [for_each].
  destruct (video_search_result_world result w) as [(m' & Hm' & Hrun) | (Hbad & _)].
  - rewrite (bind_Ok _ _ w w m' Hrun), (bind_Ok _ _ w w finals IH).
    rewrite (presents_functional result m m' Hm Hm'). reflexivity.
  - exfalso. destruct Hm as (_ & _ & Ht & Ha & Hu).
    destruct Hbad as [[e He] | [[e He] | [e He]]]; congruence.
Qed.

Lemma for_each_unpresentable (results : list YouTube) (w : world) :
  Exists unpresentable results ->
  exists e, for_each video_search_result results w = (Raise e, w).
Proof.
  induction results as [|result results IH]; intros Hex; [inversion Hex|].
  cbn [for_each].
  destruct (video_search_result_world result w) as [(m & Hm & Hrun) | (_ & e & Hrun)].
  - inversion Hex as [? ? Hbad | ? ? Hrest]; subst.
    + exfalso. destruct Hm as (_ & _ & Ht & Ha & Hu).
      destruct Hbad as [[e He] | [[e He] | [e He]]]; congruence.
    + destruct (IH Hrest) as (e & Heach). exists e.
      rewrite (bind_Ok _ _ w w m Hrun). apply bind_Raise. exact Heach.
  - exists e. apply bind_Raise. exact Hrun.
Qed.

Lemma search_videos_miss (cache : CacheStorage) (query : string) (w w1 : world) :
  settings.MOCK_MODE S = false ->
  get_item (tick P) cache (video_cache_key P query) w = (Ok PNone, w1) ->
  search_videos S P cache query w
  = bind (lift (pytube_search P (unquote P (strip P query))))
      (fun results =>
         match results with
         | None | Some [] => ret (Videos [])
         | Some results =>
             let* final_results := for_each video_search_result results in
             set_item (tick P) cache (video_cache_key P query)
               (PList (map VideoSearchResult.model_dump final_results)) >>
             ret (Videos final_results)
         end) w1.
Proof.
  intros Hmock Hget. unfold search_videos. rewrite Hmock. cbv zeta.
  fold (video_cache_key P query).
  rewrite (bind_Ok _ _ w w1 PNone Hget).
  rewrite (bind_Ok _ _ w1 w1 None) by reflexivity. reflexivity.
Qed.

(** X22.  On a cache miss outside mock mode [search_videos] asks pytube
    for the decoded, stripped query.  No result gives the empty list and
    writes nothing.  Otherwise it presents every result, in order, writes
    the dumps of what it presents under [search_video_] followed by the
    lower-cased query, and returns them; if some result cannot be
    presented, or the search itself raises, the exception reaches the
    caller and nothing is written. *)
Theorem search_videos_on_a_miss (cache : CacheStorage) (query : string) (w w1 : world) :
  settings.MOCK_MODE S = false ->
  get_item (tick P) cache (video_cache_key P query) w = (Ok PNone, w1) ->
  let asked := pytube_search P (unquote P (strip P query)) in
  (asked = Ok None \/ asked = Ok (Some []) ->
   search_videos S P cache query w = (Ok (Videos []), w1)) /\
  (forall e, asked = Raise e -> search_videos S P cache query w = (Raise e, w1)) /\
  (forall results finals,
      asked = Ok (Some results) -> results <> [] ->
      Forall2 presents results finals ->
      search_videos S P cache query w
      = bind (set_item (tick P) cache (video_cache_key P query)
                (PList (map VideoSearchResult.model_dump finals)))
          (fun _ => ret (Videos finals)) w1) /\
  (forall results,
      asked = Ok (Some results) ->
      Exists unpresentable results ->
      exists e, search_videos S P cache query w = (Raise e, w1)).
Proof.
  intros Hmock Hget asked.
  rewrite (search_videos_miss cache query w w1 Hmock Hget). fold asked.
  repeat split.
  - intros [-> | ->]; reflexivity.
  - intros e ->. reflexivity.
  - intros results finals -> Hne Hall.
    rewrite (bind_Ok _ _ w1 w1 (Some results)) by reflexivity.
    destruct results as [|result results]; [contradiction|].
    rewrite (bind_Ok _ _ w1 w1 finals (for_each_presents _ _ w1 Hall)). reflexivity.
  - intros results -> Hex.
    rewrite (bind_Ok _ _ w1 w1 (Some results)) by reflexivity.
    destruct results as [|result results]; [inversion Hex|].
    destruct (for_each_unpresentable _ w1 Hex) as (e & Heach).
    exists e. apply bind_Raise. exact Heach.
Qed.

Lemma for_each_validates (elements : list pyval) (models : list VideoSearchResult.t)
    (w : world) :
  Forall2 (fun x m => validate_video P x = Some m) elements models ->
  for_each (VideoSearchResult_model_validate P) elements w = (Ok models, w).
Proof.
  induction 1 as [|x m elements models Hx _ IH]; [reflexivity|].
  cbn [for_each].
  rewrite (bind_Ok _ _ w w m), (bind_Ok _ _ w w models IH); [reflexivity|].
  unfold VideoSearchResult_model_validate. rewrite Hx. reflexivity.
Qed.

Lemma for_each_rejects (elements : list pyval) (w : world) :
  Exists (fun x => validate_video P x = None) elements ->
  for_each (VideoSearchResult_model_validate P) elements w = (Raise ValidationError, w).
Proof.
  induction elements as [|x elements IH]; intros Hex; [inversion Hex|].
  cbn [for_each].
  destruct (validate_video P x) as [m|] eqn:Hx.
  - rewrite (bind_Ok _ _ w w m)
      by (unfold VideoSearchResult_model_validate; rewrite Hx; reflexivity).
    apply bind_Raise, IH.
    inversion Hex as [? ? Hbad | ? ? Hrest]; subst; [congruence | exact Hrest].
  - apply bind_Raise. unfold VideoSearchResult_model_validate. rewrite Hx. reflexivity.
Qed.

(** X23.  Outside mock mode, when the cache holds under the key of the
    query a value that can be iterated: if every element validates, the
    validated models are returned and pytube is not asked; if some element
    does not, the [ValidationError] is dropped and the endpoint goes on
    from the world the cache lookup left with the search itself: it asks
    pytube, returns the empty list for no result, and otherwise presents,
    writes and returns the results. *)
Theorem search_videos_on_a_hit (cache : CacheStorage) (query : string) (w w1 : world)
    (cached : pyval) (elements : list pyval) :
  settings.MOCK_MODE S = false ->
  get_item (tick P) cache (video_cache_key P query) w = (Ok cached, w1) ->
  py_iter cached = Ok elements ->
  (forall models,
      Forall2 (fun x m => validate_video P x = Some m) elements models ->
      search_videos S P cache query w = (Ok (Videos models), w1)) /\
  (Exists (fun x => validate_video P x = None) elements ->
   search_videos S P cache query w
   = bind (lift (pytube_search P (unquote P (strip P query))))
       (fun results =>
          match results with
          | None | Some [] => ret (Videos [])
          | Some results =>
              let* final_results := for_each video_search_result results in
              set_item (tick P) cache (video_cache_key P query)
                (PList (map VideoSearchResult.model_dump final_results)) >>
              ret (Videos final_results)
          end) w1).
Proof.
  intros Hmock Hget Hiter.
  set (validated :=
         try_except
           (let* elements := lift (py_iter cached) in
            let* models := for_each (VideoSearchResult_model_validate P) elements in
            ret (Some models))
           (on_ValidationError (ret None))).
  assert (Hrun : forall r w2,
             validated w1 = (Ok r, w2) ->
             search_videos S P cache query w
             = match r with
               | Some models => ret (Videos models)
               | None =>
                   let* results := lift (pytube_search P (unquote P (strip P query))) in
                   match results with
                   | None | Some [] => ret (Videos [])
                   | Some results =>
                       let* final_results := for_each video_search_result results in
                       set_item (tick P) cache (video_cache_key P query)
                         (PList (map VideoSearchResult.model_dump final_results)) >>
                       ret (Videos final_results)
                   end
               end w2).
  { intros r w2 Hval. unfold search_videos. rewrite Hmock. cbv zeta.
    fold (video_cache_key P query).
    rewrite (bind_Ok _ _ w w1 cached Hget).
    rewrite (bind_Ok _ _ w1 w2 r); [reflexivity|].
    destruct cached; try discriminate Hiter; exact Hval. }
  split.
  - intros models Hall. apply (Hrun (Some models) w1).
    apply try_except_Ok. rewrite Hiter.
    rewrite (bind_Ok _ _ w1 w1 elements) by reflexivity.
    rewrite (bind_Ok _ _ w1 w1 models (for_each_validates _ _ w1 Hall)). reflexivity.
  - intros Hex.
    apply (Hrun None w1).
    apply (try_except_handled _ _ (ret None) w1 w1 ValidationError); [|reflexivity].
    rewrite Hiter.
    rewrite (bind_Ok _ _ w1 w1 elements) by reflexivity.
    apply bind_Raise, for_each_rejects, Hex.
Qed.

End VideoSearchFacts.

Section LoggingFacts.
Import logger_config.


End LoggingFacts.

(** * The video search and logging properties on concrete runs *)

Section VideoRuns.
Import cache_storage utils examples pipeline_examples video_search video_examples
  logger_config.

Lemma largest_thumbnail_is_presented_witness :
  exists t, In t clip_thumbnails /\
            thumbnail_url_of clip = Ok (before_question_mark (url t)).
Proof.
  assert (Hsome : clip_thumbnails <> []) by discriminate.
  destruct (proj2 (largest_thumbnail_is_presented clip clip_thumbnails eq_refl) Hsome)
    as (t & before & after & query & Hl & _ & _ & Hurl & _).
  exists t. split; [rewrite Hl; apply in_elt | exact Hurl].
Defined.

Lemma search_videos_on_a_miss_witness :
  search_videos (configured "/usr/bin/ffmpeg") (finding (Ok (Some [clip; clip])))
    ten_seconds "cats" (started ∅)
  = bind (set_item (ticking usec) ten_seconds "search_video_cats"
            (PList (map VideoSearchResult.model_dump [presented_clip; presented_clip])))
      (fun _ => ret (Videos [presented_clip; presented_clip])) (started ∅).
Proof.
  refine (proj1 (proj2 (proj2
            (search_videos_on_a_miss (configured "/usr/bin/ffmpeg")
               (finding (Ok (Some [clip; clip]))) ten_seconds "cats"
               (started ∅) (started ∅) _ _)))
            [clip; clip] [presented_clip; presented_clip] _ _ _).
  - reflexivity.
  - vm_compute. reflexivity.
  - reflexivity.
  - discriminate.
  - repeat constructor.
Defined.

(** A cached list that validates is served although the search is out of
    reach; a cached list with an element of another shape is dropped and
    the search is made afresh, its result written over the entry. *)
Lemma search_videos_on_a_hit_witness :
  search_videos (configured "/usr/bin/ffmpeg") (finding (Raise (Exception "offline")))
    ten_seconds "cats"
    (holding (PList [VideoSearchResult.model_dump presented_clip]) 1700000010)
  = (Ok (Videos [presented_clip]),
     set_reads 1 (holding (PList [VideoSearchResult.model_dump presented_clip]) 1700000010))
  /\
  search_videos (configured "/usr/bin/ffmpeg") (finding (Ok (Some [clip])))
    ten_seconds "cats" (holding (PList [PStr "stray"]) 1700000010)
  = bind (set_item (ticking usec) ten_seconds "search_video_cats"
            (PList [VideoSearchResult.model_dump presented_clip]))
      (fun _ => ret (Videos [presented_clip]))
      (set_reads 1 (holding (PList [PStr "stray"]) 1700000010)).
Proof.
  split.
  - assert (Hget : get_item (tick (finding (Raise (Exception "offline")))) ten_seconds
                     (video_cache_key (finding (Raise (Exception "offline"))) "cats")
                     (holding (PList [VideoSearchResult.model_dump presented_clip]) 1700000010)
                   = (Ok (PList [VideoSearchResult.model_dump presented_clip]),
                      set_reads 1
                        (holding (PList [VideoSearchResult.model_dump presented_clip])
                           1700000010)))
      by (vm_compute; reflexivity).
    refine (proj1 (search_videos_on_a_hit (configured "/usr/bin/ffmpeg")
                     (finding (Raise (Exception "offline"))) ten_seconds "cats" _ _ _
                     [VideoSearchResult.model_dump presented_clip] eq_refl Hget eq_refl)
              [presented_clip] _).
    repeat constructor.
  - assert (Hget : get_item (tick (finding (Ok (Some [clip])))) ten_seconds
                     (video_cache_key (finding (Ok (Some [clip]))) "cats")
                     (holding (PList [PStr "stray"]) 1700000010)
                   = (Ok (PList [PStr "stray"]),
                      set_reads 1 (holding (PList [PStr "stray"]) 1700000010)))
      by (vm_compute; reflexivity).
    refine (eq_trans
              (proj2 (search_videos_on_a_hit (configured "/usr/bin/ffmpeg")
                        (finding (Ok (Some [clip]))) ten_seconds "cats" _ _ _
                        [PStr "stray"] eq_refl Hget eq_refl) _) _).
    + constructor. reflexivity.
    + reflexivity.
Defined.


End VideoRuns.
